(** * Stable-frame thumbnail extraction: a shallow embedding

    Embedding of the thumbnail scripts of the repository
    ([dev/optimize-vids-agressive.js], second script, and its
    predecessor with the single-file freshness check): the freshness
    gate [needsExtraction], the motion analysis [analyzeMotion], the
    frame scorer [calculateFrameDifference], the two extraction drivers
    and the top-level [extractVideoThumbnail].  Of the first-frame
    script the whole run is embedded as well ([FirstFrameRun]), and of
    the compression script (first script of the same file) the part
    that runs before any video is compressed ([Compress]): the
    collection of the videos, the output path of each and the sorting
    into files to process and files to skip.  [compressVideo] is left
    out: its ['close'] handler calls [fs.statSync] on the output
    unguarded, and an exception thrown there is neither a resolution
    nor a rejection of its promise.

    Conventions of the embedding.
    - A JavaScript number is an exact rational or [NaN].  Every
      timestamp the scripts compute is a multiple of one half, which
      binary64 represents exactly; a similarity read from the engine
      is taken at its decimal value, without the rounding of binary64;
      infinities are not modelled.
    - The file system is a tree of directories and files; a path is the
      list of its components below the root, so [path.join dir file] is
      [dir ++ [file]] and [path.dirname] drops the last component.  A
      directory keeps its modification time when entries come and go.
    - ffmpeg / ffprobe are an oracle [engine]: a request and the current
      tree give the process event, the captured text and the tree the
      process leaves behind.  Every spawn is recorded in the world.
    - A synchronous [throw] and a promise rejection are both the
      [Rejected] outcome of the monad [M]; [console.log] calls are
      diagnostics and are left out. *)

From Stdlib Require Import ZArith QArith Qround Qabs String Ascii List Sorted Lqa Lia
  DecimalString DecimalN.
From stdpp Require Import base option list gmap strings.
Import ListNotations.

#[local] Set Warnings "-register-all,-notation-for-abbreviation".
#[local] Open Scope Z_scope.

(** ** JavaScript numbers and strings *)

Module JS.

Inductive number : Type :=
| NaN
| Num (q : Q).

Definition lift2 (f : Q -> Q -> Q) (a b : number) : number :=
  match a, b with
  | Num x, Num y => Num (Qred (f x y))
  | _, _ => NaN
  end.

Definition add : number -> number -> number := lift2 Qplus.
Definition sub : number -> number -> number := lift2 Qminus.
Definition mul : number -> number -> number := lift2 Qmult.

Definition Qltb (x y : Q) : bool := negb (Qle_bool y x).

(** [a < b]: false as soon as one side is [NaN]. *)
Definition lt (a b : number) : bool :=
  match a, b with
  | Num x, Num y => Qltb x y
  | _, _ => false
  end.

(** [Math.min(a, b)]. *)
Definition Math_min (a b : number) : number :=
  match a, b with
  | Num x, Num y => if Qle_bool x y then Num x else Num y
  | _, _ => NaN
  end.

Definition of_nat (i : nat) : number := Num (inject_Z (Z.of_nat i)).

Definition half : number := Num (1 # 2).
Definition one : number := Num 1.
Definition two : number := Num 2.
Definition ten : number := Num 10.

(** *** Strings *)

Definition startsWith (s pre : string) : bool := String.prefix pre s.

(** [s.endsWith(suf)]: some suffix of [s] is [suf]. *)
Fixpoint endsWith (s suf : string) : bool :=
  String.eqb s suf ||
  match s with
  | String _ s' => endsWith s' suf
  | EmptyString => false
  end.

Fixpoint drop (n : nat) (s : string) : string :=
  match n, s with
  | S n', String _ s' => drop n' s'
  | _, _ => s
  end.

(** [s.replace(pat, rep)] with a string pattern: the first occurrence only. *)
Fixpoint replace (pat rep s : string) : string :=
  if String.prefix pat s then rep +:+ drop (String.length pat) s
  else match s with
       | EmptyString => EmptyString
       | String c s' => String c (replace pat rep s')
       end.

Definition decimal (n : Z) : string :=
  NilZero.string_of_uint (N.to_uint (Z.to_N n)).

(** [x.toFixed(1)]: the sign, then the integer [n] with [n / 10]
    nearest to [|x|] (the larger one on a tie), written with a point
    before its last digit.  From 10^21 on, [toFixed] hands over to
    [Number.prototype.toString] and its exponent notation, which is the
    parameter [toString]. *)
Definition toFixed1 (toString : Q -> string) (x : number) : string :=
  match x with
  | NaN => "NaN"
  | Num q =>
    if Qle_bool (inject_Z (10 ^ 21)) (Qabs q) then toString q
    else
      let s := if Qltb q 0 then "-" else "" in
      let n := Qfloor (Qabs q * 10 + (1 # 2)) in
      s +:+ decimal (n / 10) +:+ "." +:+ decimal (n mod 10)
  end.

Definition is_digit (c : ascii) : bool :=
  (48 <=? nat_of_ascii c)%nat && (nat_of_ascii c <=? 57)%nat.

Definition is_digit_or_dot (c : ascii) : bool :=
  is_digit c || Ascii.eqb c ".".

Fixpoint take_while (p : ascii -> bool) (s : string) : string :=
  match s with
  | String c s' => if p c then String c (take_while p s') else EmptyString
  | EmptyString => EmptyString
  end.

Fixpoint drop_while (p : ascii -> bool) (s : string) : string :=
  match s with
  | String c s' => if p c then drop_while p s' else s
  | EmptyString => EmptyString
  end.

Definition digit_value (c : ascii) : Z := Z.of_nat (nat_of_ascii c) - 48.

Fixpoint digits_value (acc : Z) (s : string) : Z :=
  match s with
  | String c s' => digits_value (10 * acc + digit_value c) s'
  | EmptyString => acc
  end.

Definition decimal_value (int frac : string) : number :=
  let k := Z.of_nat (String.length frac) in
  Num (Qred (Qmake (digits_value (digits_value 0 int) frac) (Z.to_pos (10 ^ k)))).

(** [parseFloat] on the strings the scorer hands it, which the regular
    expression restricts to digits and dots: the longest prefix of the
    shape [digits], [digits.], [digits.digits] or [.digits], and [NaN]
    when there is none.  (Sign, exponent, [Infinity] and leading blanks
    cannot occur in such a string.) *)
Definition parseFloat (s : string) : number :=
  let int := take_while is_digit s in
  let rest := drop_while is_digit s in
  match int, rest with
  | EmptyString, String "." rest' =>
    match take_while is_digit rest' with
    | EmptyString => NaN
    | frac => decimal_value EmptyString frac
    end
  | EmptyString, _ => NaN
  | _, String "." rest' => decimal_value int (take_while is_digit rest')
  | _, _ => decimal_value int EmptyString
  end.

(** [s.match(/All:([0-9.]+)/)]: the first capture group of the leftmost
    match, a maximal run of digits and dots right after ["All:"]. *)
Fixpoint match_All (s : string) : option string :=
  match s with
  | EmptyString => None
  | String _ s' =>
    if String.prefix "All:" s then
      match take_while is_digit_or_dot (drop 4 s) with
      | EmptyString => match_All s'
      | capture => Some capture
      end
    else match_All s'
  end.

Definition lower (c : ascii) : ascii :=
  let n := nat_of_ascii c in
  if (65 <=? n)%nat && (n <=? 90)%nat then ascii_of_nat (n + 32) else c.

(** [s.toLowerCase()] on ASCII letters. *)
Fixpoint toLowerCase (s : string) : string :=
  match s with
  | String c s' => String (lower c) (toLowerCase s')
  | EmptyString => EmptyString
  end.

(** The suffix of [s] from its last dot on, when it has a dot. *)
Fixpoint from_last_dot (s : string) : option string :=
  match s with
  | EmptyString => None
  | String c s' =>
    match from_last_dot s' with
    | Some e => Some e
    | None => if Ascii.eqb c "." then Some s else None
    end
  end.

(** [path.extname] of a file name: from the last dot on; empty when
    there is no dot, when the only dot leads the name, and for [".."]. *)
Definition path_extname (name : string) : string :=
  match from_last_dot name with
  | None => EmptyString
  | Some e =>
    if String.eqb e name || String.eqb name ".." then EmptyString else e
  end.

Fixpoint insert_sorted (x : string) (l : list string) : list string :=
  match l with
  | [] => [x]
  | y :: l' => if String.leb x y then x :: l else y :: insert_sorted x l'
  end.

(** [arr.sort()] on an array of strings: ascending by code units. *)
Definition sort (l : list string) : list string :=
  foldr insert_sorted [] l.

End JS.

(** ** The file system *)

Definition path : Type := list string.

(** A file or a directory, each with its modification time in
    milliseconds ([stats.mtime]). *)
Inductive node : Type :=
| File (mtime : Z) (data : string)
| Dir (mtime : Z) (entries : gmap string node).

Definition mtime_of (n : node) : Z :=
  match n with
  | File m _ => m
  | Dir m _ => m
  end.

Definition isFile (n : node) : bool :=
  match n with
  | File _ _ => true
  | Dir _ _ => false
  end.

Fixpoint lookup_path (n : node) (p : path) : option node :=
  match p with
  | [] => Some n
  | c :: p' =>
    match n with
    | Dir _ es =>
      match es !! c with
      | Some n' => lookup_path n' p'
      | None => None
      end
    | File _ _ => None
    end
  end.

(** The chain of fresh directories [c/.../] that [mkdir -p] creates. *)
Fixpoint fresh_dirs (now : Z) (p : path) : node :=
  match p with
  | [] => Dir now ∅
  | c :: p' => Dir now {[ c := fresh_dirs now p' ]}
  end.

(** [mkdir -p]: [None] when a component of the path is a file. *)
Fixpoint mkdir_p (now : Z) (n : node) (p : path) : option node :=
  match n with
  | File _ _ => None
  | Dir m es =>
    match p with
    | [] => Some n
    | c :: p' =>
      match es !! c with
      | Some n' =>
        match mkdir_p now n' p' with
        | Some n'' => Some (Dir m (<[ c := n'' ]> es))
        | None => None
        end
      | None => Some (Dir m (<[ c := fresh_dirs now p' ]> es))
      end
    end
  end.

(** [rm -rf]: the subtree at [p] is removed when it is there. *)
Fixpoint remove (n : node) (p : path) : node :=
  match n, p with
  | Dir m es, [c] => Dir m (delete c es)
  | Dir m es, c :: p' => Dir m (alter (fun n' => remove n' p') c es)
  | _, _ => n
  end.

(** ** The external engine and the world *)

Inductive error : Type :=
| FsError (code : string) (p : path)
| SpawnFailed (command : string)
| TypeError (message : string)
| Error (message : string).

Record VideoInfo : Type := mkVideoInfo {
  duration : JS.number;
  size : JS.number;
  width : JS.number;
  height : JS.number;
  fps : JS.number
}.

(** One spawned process, by the arguments that vary. *)
Inductive request : Type :=
| FfmpegVersion
| Ffprobe (inputPath : path)
| SampleFrames (inputPath : path) (ss t : JS.number) (tempDir : path)
| Ssim (frame1Path frame2Path : path)
| ExtractFrame (inputPath : path) (ss : JS.number) (videoInfo : VideoInfo)
    (finalOutputPath : path).

(** What a child process reports: ['close'] with its exit code, or
    ['error'] when it could not be spawned.  (Node emits ['close'] with
    a negative code after ['error'] as well; by then each promise below
    is settled, and the only thing the ['close'] handlers still do is
    remove the temporary directory once more.) *)
Inductive proc_event : Type :=
| Close (code : Z)
| ProcError (e : error).

Record response : Type := mkResponse {
  event : proc_event;
  stdout : string;
  stderr : string;
  fs_after : node
}.

Record world : Type := mkWorld {
  fs : node;
  now : Z;
  spawned : list request
}.

(** ** Promises and exceptions: a state and error monad *)

Inductive outcome (A : Type) : Type :=
| Resolved (a : A)
| Rejected (e : error).
Arguments Resolved {A} a.
Arguments Rejected {A} e.

Definition M (A : Type) : Type := world -> outcome A * world.

Definition ret {A} (a : A) : M A := fun w => (Resolved a, w).

Definition throw {A} (e : error) : M A := fun w => (Rejected e, w).

Definition bind {A B} (m : M A) (k : A -> M B) : M B :=
  fun w =>
    match m w with
    | (Resolved a, w') => k a w'
    | (Rejected e, w') => (Rejected e, w')
    end.

Definition try_catch {A} (m : M A) (handler : error -> M A) : M A :=
  fun w =>
    match m w with
    | (Resolved a, w') => (Resolved a, w')
    | (Rejected e, w') => handler e w'
    end.

Notation "'let*' x ':=' m 'in' k" := (bind m (fun x => k))
  (at level 10, x name, m at level 100, k at level 200).

Definition existsSync (p : path) : M bool :=
  fun w => (Resolved (bool_decide (is_Some (lookup_path (fs w) p))), w).

Definition statSync (p : path) : M node :=
  fun w =>
    match lookup_path (fs w) p with
    | Some n => (Resolved n, w)
    | None => (Rejected (FsError "ENOENT" p), w)
    end.

Definition readdirSync (p : path) : M (list string) :=
  fun w =>
    match lookup_path (fs w) p with
    | Some (Dir _ es) => (Resolved (map_to_list es).*1, w)
    | Some (File _ _) => (Rejected (FsError "ENOTDIR" p), w)
    | None => (Rejected (FsError "ENOENT" p), w)
    end.

(** [fs.mkdirSync(p, { recursive: true })]. *)
Definition mkdirSync (p : path) : M unit :=
  fun w =>
    match mkdir_p (now w) (fs w) p with
    | Some n => (Resolved tt, mkWorld n (now w) (spawned w))
    | None => (Rejected (FsError "ENOTDIR" p), w)
    end.

(** [fs.rmSync(p, { recursive: true, force: true })]. *)
Definition rmSync (p : path) : M unit :=
  fun w => (Resolved tt, mkWorld (remove (fs w) p) (now w) (spawned w)).

Definition ensureDirectoryExists (dirPath : path) : M unit :=
  let* ex := existsSync dirPath in
  if negb ex then mkdirSync dirPath else ret tt.

Definition path_join (dir : path) (file : string) : path := dir ++ [file].

Definition path_dirname (p : path) : path := removelast p.

(** ** The single-file script (first-frame extraction) *)

Module FirstFrame.

Definition needsExtraction (inputPath outputPath : path) : M bool :=
  let* ex := existsSync outputPath in
  if negb ex then ret true
  else
    let* inputStats := statSync inputPath in
    let* outputStats := statSync outputPath in
    ret (mtime_of outputStats <? mtime_of inputStats).

End FirstFrame.

(** ** The stable-frame script *)

Module StableFrame.

Definition OUTPUT_BASE_FILENAME : string := "firstframe".

Definition SUPPORTED_FORMATS : list string :=
  [".mp4"; ".mov"; ".avi"; ".mkv"; ".webm"; ".m4v"; ".flv"; ".wmv"]%string.

Record MotionScore : Type := mkMotionScore {
  timestamp : JS.number;
  score : JS.number;
  frameIndex : nat
}.

(** The object an extraction resolves with: [{ success: false }] or
    [{ success: true, filename, timestamp }]. *)
Inductive extraction : Type :=
| Failure
| Success (filename : string) (timestamp : JS.number).

(** How a run of the script ends: [process.exit(1)], or a return. *)
Inductive run_result : Type :=
| ExitFailure
| NoVideo
| UpToDate
| Extracted (filename : string) (timestamp : JS.number).

(** [arr.reduce(f)] without an initial value. *)
Definition reduce {A} (f : A -> A -> A) (l : list A) : M A :=
  match l with
  | [] => throw (TypeError "Reduce of empty array with no initial value")
  | x :: l' => ret (fold_left f l' x)
  end.

Definition is_frame (f : string) : bool :=
  JS.startsWith f "frame_" && JS.endsWith f ".jpg".

Definition is_output (file : string) : bool :=
  JS.startsWith file OUTPUT_BASE_FILENAME && JS.endsWith file ".webp".

(** The video files of a directory, searched as [findFirstVideoFile]
    does: the files of the directory first, in listing order, then its
    subdirectories in listing order, depth first. *)
Fixpoint find_video (n : node) (dir : path) : option path :=
  match n with
  | File _ _ => None
  | Dir _ es =>
    match
      map_fold (fun file n' found =>
        if isFile n' && bool_decide (JS.toLowerCase (JS.path_extname file) ∈ SUPPORTED_FORMATS)
        then Some (path_join dir file) else found) None es
    with
    | Some p => Some p
    | None =>
      map_fold (fun file n' found =>
        match n' with
        | Dir _ _ =>
          match find_video n' (path_join dir file) with
          | Some p => Some p
          | None => found
          end
        | File _ _ => found
        end) None es
    end
  end.

Section Scripts.

(** ffmpeg and ffprobe. *)
Variable engine : request -> node -> response.
(** The directory of the script and the working directory of the run. *)
Variable __dirname : path.
Variable cwd : path.
(** [Number.prototype.toString] on magnitudes from 10^21 on. *)
Variable toString : Q -> string.
(** [JSON.parse] of ffprobe's report and the fields read from it;
    [None] when parsing or a field access throws. *)
Variable parse_info : string -> option VideoInfo.

Definition INPUT_DIR : path := cwd ++ ["vid"]%string.
Definition OUTPUT_DIR : path := removelast cwd ++ ["src"; "assets"; "img"]%string.

(** [spawn(command, args)] run to its ['close'] or ['error'] event. *)
Definition spawn (req : request) : M response :=
  fun w =>
    let r := engine req (fs w) in
    (Resolved r, mkWorld (fs_after r) (now w) (spawned w ++ [req])).

Definition checkFFmpeg : M bool :=
  let* ffmpeg := spawn FfmpegVersion in
  match event ffmpeg with
  | Close code => ret (code =? 0)
  | ProcError _ => ret false
  end.

Definition getVideoInfo (inputPath : path) : M VideoInfo :=
  let* ffprobe := spawn (Ffprobe inputPath) in
  match event ffprobe with
  | Close code =>
    if code =? 0 then
      match parse_info (stdout ffprobe) with
      | Some info => ret info
      | None => throw (Error "Failed to parse video info")
      end
    else throw (Error "FFprobe failed")
  | ProcError _ => throw (Error "FFprobe error")
  end.

Definition findFirstVideoFile (dir : path) : M (option path) :=
  fun w =>
    match lookup_path (fs w) dir with
    | Some (Dir m es) => (Resolved (find_video (Dir m es) dir), w)
    | Some (File _ _) => (Rejected (FsError "ENOTDIR" dir), w)
    | None => (Rejected (FsError "ENOENT" dir), w)
    end.

(** The loop of [needsExtraction] over the existing outputs. *)
Fixpoint anyUpToDate (inputStats : node) (outputDir : path) (existingFiles : list string) : M bool :=
  match existingFiles with
  | [] => ret true
  | file :: rest =>
    let filePath := path_join outputDir file in
    let* fileStats := statSync filePath in
    if mtime_of inputStats <=? mtime_of fileStats then ret false
    else anyUpToDate inputStats outputDir rest
  end.

Definition needsExtraction (inputPath outputDir : path) : M bool :=
  let* ex := existsSync outputDir in
  if negb ex then ret true
  else
    let* files := readdirSync outputDir in
    let existingFiles := List.filter is_output files in
    if (length existingFiles =? 0)%nat then ret true
    else
      let* inputStats := statSync inputPath in
      anyUpToDate inputStats outputDir existingFiles.

Definition calculateFrameDifference (frame1Path frame2Path : path) : M JS.number :=
  let* ffmpeg := spawn (Ssim frame1Path frame2Path) in
  let output := stderr ffmpeg in
  match event ffmpeg with
  | Close _ =>
    match JS.match_All output with
    | Some ssimMatch =>
      let ssim := JS.parseFloat ssimMatch in
      let motionScore := JS.sub JS.one ssim in
      ret motionScore
    | None => ret JS.half
    end
  | ProcError _ => ret JS.half
  end.

(** The loop [for (let i = 1; i < frameFiles.length; i++)] of
    [analyzeMotion], over the indices still to visit. *)
Fixpoint scoreFrames (tempDir : path) (startTime : JS.number) (frameFiles : list string)
    (indices : list nat) (motionScores : list MotionScore) : M (list MotionScore) :=
  match indices with
  | [] => ret motionScores
  | i :: rest =>
    let prevFrame := path_join tempDir (nth (i - 1) frameFiles EmptyString) in
    let currFrame := path_join tempDir (nth i frameFiles EmptyString) in
    let* motionScore := calculateFrameDifference prevFrame currFrame in
    let timestamp := JS.add startTime (JS.mul (JS.of_nat i) JS.half) in
    scoreFrames tempDir startTime frameFiles rest
      (motionScores ++ [mkMotionScore timestamp motionScore i])
  end.

Definition tempDir : path := path_join __dirname "temp_frames".

Definition analyzeMotion (inputPath : path) (startTime endTime : JS.number)
    (videoInfo : VideoInfo) : M JS.number :=
  let* _ := ensureDirectoryExists tempDir in
  let* ffmpeg :=
    spawn (SampleFrames inputPath startTime (JS.sub endTime startTime) tempDir) in
  match event ffmpeg with
  | Close code =>
    if code =? 0 then
      try_catch
        (let* files := readdirSync tempDir in
         let frameFiles := JS.sort (List.filter is_frame files) in
         if (length frameFiles <? 2)%nat then
           let* _ := rmSync tempDir in
           ret (JS.add startTime JS.half)
         else
           let* motionScores :=
             scoreFrames tempDir startTime frameFiles
               (seq 1 (length frameFiles - 1)) [] in
           let* stableFrame :=
             reduce (fun min current =>
                       if JS.lt (score current) (score min) then current else min)
                    motionScores in
           let* _ := rmSync tempDir in
           ret (timestamp stableFrame))
        (fun error =>
           let* _ := rmSync tempDir in
           throw error)
    else
      let* _ := rmSync tempDir in
      ret (JS.add startTime JS.one)
  | ProcError error =>
    let* _ := rmSync tempDir in
    throw error
  end.

Definition outputFilename (timestamp : JS.number) : string :=
  let timestampFormatted := JS.replace "." "-" (JS.toFixed1 toString timestamp) in
  OUTPUT_BASE_FILENAME +:+ "--" +:+ timestampFormatted +:+ "s.webp".

Definition extractSimpleFrame (inputPath outputPath : path) (videoInfo : VideoInfo)
    (timestamp : JS.number) : M extraction :=
  let finalOutputPath := path_join (path_dirname outputPath) (outputFilename timestamp) in
  let* ffmpeg := spawn (ExtractFrame inputPath timestamp videoInfo finalOutputPath) in
  match event ffmpeg with
  | Close code =>
    if code =? 0 then
      let* ex := existsSync finalOutputPath in
      if ex then
        let* outputStats := statSync finalOutputPath in
        ret (Success (outputFilename timestamp) timestamp)
      else ret Failure
    else ret Failure
  | ProcError _ => ret Failure
  end.

Definition extractStableFrame (inputPath outputPath : path) (videoInfo : VideoInfo)
    : M extraction :=
  try_catch
    (let analysisEndTime :=
       JS.Math_min JS.ten (JS.mul (duration videoInfo) (JS.Num (3 # 10))) in
     let* stableTimestamp := analyzeMotion inputPath JS.half analysisEndTime videoInfo in
     let finalOutputPath :=
       path_join (path_dirname outputPath) (outputFilename stableTimestamp) in
     let* ffmpeg :=
       spawn (ExtractFrame inputPath stableTimestamp videoInfo finalOutputPath) in
     match event ffmpeg with
     | Close code =>
       if code =? 0 then
         let* ex := existsSync finalOutputPath in
         if ex then
           let* outputStats := statSync finalOutputPath in
           ret (Success (outputFilename stableTimestamp) stableTimestamp)
         else ret Failure
       else ret Failure
     | ProcError _ => ret Failure
     end)
    (fun error => extractSimpleFrame inputPath outputPath videoInfo JS.two).

Definition extractVideoThumbnail : M run_result :=
  let* hasFFmpeg := checkFFmpeg in
  if negb hasFFmpeg then ret ExitFailure
  else
    let* ex := existsSync INPUT_DIR in
    if negb ex then ret ExitFailure
    else
      let* found := findFirstVideoFile INPUT_DIR in
      match found with
      | None => ret NoVideo
      | Some videoFile =>
        let* _ := ensureDirectoryExists OUTPUT_DIR in
        let* stale := needsExtraction videoFile OUTPUT_DIR in
        if negb stale then ret UpToDate
        else
          try_catch
            (let* videoInfo := getVideoInfo videoFile in
             let tempOutputPath := path_join OUTPUT_DIR "temp.webp" in
             let* result := extractStableFrame videoFile tempOutputPath videoInfo in
             match result with
             | Success filename timestamp => ret (Extracted filename timestamp)
             | Failure => ret ExitFailure
             end)
            (fun error => ret ExitFailure)
      end.

End Scripts.

End StableFrame.

(** ** The first-frame script, end to end *)

(** [checkFFmpeg], [getVideoInfo], [findFirstVideoFile] and
    [ensureDirectoryExists] have the same text in this script and in the
    stable-frame script; the definitions above serve both. *)
Module FirstFrameRun.

Definition OUTPUT_FILENAME : string := "firstframe.webp".

(** How a run ends: [process.exit(1)], or a return after one of the
    three messages (no video, up to date, extracted). *)
Inductive run_result : Type :=
| ExitFailure
| NoVideo
| UpToDate
| Extracted.

Section Scripts.

Variable engine : request -> node -> response.
Variable cwd : path.
Variable parse_info : string -> option VideoInfo.

Definition INPUT_DIR : path := cwd ++ ["vid"]%string.
Definition OUTPUT_DIR : path := removelast cwd ++ ["src"; "assets"; "img"]%string.

(** The frame is always taken at 0.1 s. *)
Definition extractFirstFrame (inputPath outputPath : path) (videoInfo : VideoInfo) : M bool :=
  let* ffmpeg :=
    StableFrame.spawn engine (ExtractFrame inputPath (JS.Num (1 # 10)) videoInfo outputPath) in
  match event ffmpeg with
  | Close code =>
    if code =? 0 then
      let* ex := existsSync outputPath in
      if ex then
        let* outputStats := statSync outputPath in
        ret true
      else ret false
    else ret false
  | ProcError _ => ret false
  end.

Definition extractVideoThumbnail : M run_result :=
  let* hasFFmpeg := StableFrame.checkFFmpeg engine in
  if negb hasFFmpeg then ret ExitFailure
  else
    let* ex := existsSync INPUT_DIR in
    if negb ex then ret ExitFailure
    else
      let* found := StableFrame.findFirstVideoFile INPUT_DIR in
      match found with
      | None => ret NoVideo
      | Some videoFile =>
        let* _ := ensureDirectoryExists OUTPUT_DIR in
        let outputPath := path_join OUTPUT_DIR OUTPUT_FILENAME in
        let* stale := FirstFrame.needsExtraction videoFile outputPath in
        if negb stale then ret UpToDate
        else
          try_catch
            (let* videoInfo := StableFrame.getVideoInfo engine parse_info videoFile in
             let* success := extractFirstFrame videoFile outputPath videoInfo in
             if success then ret Extracted else ret ExitFailure)
            (fun error => ret ExitFailure)
      end.

End Scripts.

End FirstFrameRun.

(** ** The compression script: the videos it collects and where it writes *)

(** [path.relative(from, to)] on absolute paths: the common prefix is
    dropped, and each component left of [from] is climbed with [".."]. *)
Fixpoint path_relative (from to : path) : path :=
  match from, to with
  | a :: from', b :: to' =>
    if String.eqb a b then path_relative from' to'
    else repeat ".."%string (length from) ++ to
  | _, _ => repeat ".."%string (length from) ++ to
  end.

(** [path.parse(p).name]: the last component without its extension. *)
Definition path_parse_name (p : path) : string :=
  let base := List.last p EmptyString in
  String.substring 0 (String.length base - String.length (JS.path_extname base)) base.

(** [path.parse(p).dir]. *)
Definition path_parse_dir (p : path) : path := removelast p.

Module Compress.

Definition SUPPORTED_FORMATS : list string :=
  [".mp4"; ".mov"; ".avi"; ".mkv"; ".webm"; ".m4v"; ".flv"; ".wmv"]%string.

(** One entry of [filesToProcess]. *)
Record job : Type := mkJob {
  inputPath : path;
  outputPath : path
}.

(** What [getAllVideoFiles] pushes on [fileList] while it walks the
    directory [n] at [dir]: entries in listing order, a subdirectory
    walked where it is listed. *)
Fixpoint video_files (n : node) (dir : path) : list path :=
  match n with
  | File _ _ => []
  | Dir _ es =>
    map_fold (fun file n' pushedLater =>
      match n' with
      | Dir _ _ => video_files n' (path_join dir file)
      | File _ _ =>
        if bool_decide (JS.toLowerCase (JS.path_extname file) ∈ SUPPORTED_FORMATS)
        then [path_join dir file] else []
      end ++ pushedLater) [] es
  end.

Definition getAllVideoFiles (dir : path) (fileList : list path) : M (list path) :=
  fun w =>
    match lookup_path (fs w) dir with
    | Some (Dir m es) => (Resolved (fileList ++ video_files (Dir m es) dir), w)
    | Some (File _ _) => (Rejected (FsError "ENOTDIR" dir), w)
    | None => (Rejected (FsError "ENOENT" dir), w)
    end.

Definition needsCompression (inputPath outputPath : path) : M bool :=
  let* ex := existsSync outputPath in
  if negb ex then ret true
  else
    let* inputStats := statSync inputPath in
    let* outputStats := statSync outputPath in
    ret (mtime_of outputStats <? mtime_of inputStats).

Section Scripts.

Variable cwd : path.

Definition INPUT_DIR : path := cwd ++ ["vid"]%string.
Definition OUTPUT_DIR : path := removelast cwd ++ ["src"; "assets"; "vid"]%string.

(** The output of one video: same place below the output directory,
    the extension replaced by [--extra-compressed.mp4]. *)
Definition outputPathOf (inputPath : path) : path :=
  let relativePath := path_relative INPUT_DIR inputPath in
  let outputRelativePath :=
    path_join (path_parse_dir relativePath)
              (path_parse_name relativePath +:+ "--extra-compressed.mp4") in
  OUTPUT_DIR ++ outputRelativePath.

(** The loop of [compressVideos] that sorts the videos into
    [filesToProcess] and [skippedFiles]. *)
Fixpoint selectFiles (videoFiles : list path) (filesToProcess : list job)
    (skippedFiles : list path) : M (list job * list path) :=
  match videoFiles with
  | [] => ret (filesToProcess, skippedFiles)
  | inputPath :: rest =>
    let outputPath := outputPathOf inputPath in
    let* stale := needsCompression inputPath outputPath in
    if stale then
      selectFiles rest (filesToProcess ++ [mkJob inputPath outputPath]) skippedFiles
    else
      selectFiles rest filesToProcess (skippedFiles ++ [inputPath])
  end.

End Scripts.

End Compress.

(** ** Reference definitions for the freshness gate *)

(** The entries of an output directory that count as outputs: name
    starting with the base name and ending in [.webp]. *)
Definition outputs (es : gmap string node) : list (string * node) :=
  List.filter (fun e => StableFrame.is_output e.1) (map_to_list es).

(** The modification time of the most recently modified entry. *)
Definition newest_mtime (l : list (string * node)) : option Z :=
  match l with
  | [] => None
  | e :: l' => Some (fold_right (fun e' t => Z.max (mtime_of e'.2) t) (mtime_of e.2) l')
  end.

(** ** Reference definitions for the selection *)

Section Reference.

Variable engine : request -> node -> response.
Variable __dirname : path.

(** The Frame Sampler of the specification: the temporary directory
    is made sure of and the engine is asked for the burst. *)
Definition sample (inputPath : path) (windowStart windowEnd : JS.number) : M response :=
  let* _ := ensureDirectoryExists (StableFrame.tempDir __dirname) in
  StableFrame.spawn engine
    (SampleFrames inputPath windowStart (JS.sub windowEnd windowStart)
       (StableFrame.tempDir __dirname)).

(** The frames of a burst, in extraction order. *)
Definition burst (w : world) : option (list string) :=
  match lookup_path (fs w) (StableFrame.tempDir __dirname) with
  | Some (Dir _ es) => Some (JS.sort (List.filter StableFrame.is_frame (map_to_list es).*1))
  | _ => None
  end.

(** The pairs (i-1, i) of adjacent frames. *)
Fixpoint adjacent (frames : list string) : list (string * string) :=
  match frames with
  | prev :: (curr :: _) as rest => (prev, curr) :: adjacent rest
  | _ => []
  end.

(** [scored pairs w scores w']: the Similarity Scorer, run on the pairs
    in order from the world [w], gives [scores] and leaves [w']. *)
Inductive scored : list (string * string) -> world -> list JS.number -> world -> Prop :=
| scored_nil w : scored [] w [] w
| scored_cons prev curr pairs w s w' scores w'' :
    StableFrame.calculateFrameDifference engine
      (path_join (StableFrame.tempDir __dirname) prev)
      (path_join (StableFrame.tempDir __dirname) curr) w = (Resolved s, w') ->
    scored pairs w' scores w'' ->
    scored ((prev, curr) :: pairs) w (s :: scores) w''.

(** The world once the temporary directory is removed. *)
Definition cleaned (w : world) : world :=
  mkWorld (remove (fs w) (StableFrame.tempDir __dirname)) (now w) (spawned w).

(** The comparison the scorer spawns for a pair of frames. *)
Definition ssim_request (p : string * string) : request :=
  Ssim (path_join (StableFrame.tempDir __dirname) p.1)
       (path_join (StableFrame.tempDir __dirname) p.2).

End Reference.

(** The time stamp given to the [i]-th pair: [windowStart + i * 0.5]. *)
Definition pair_timestamp (windowStart : JS.number) (i : nat) : JS.number :=
  JS.add windowStart (JS.mul (JS.of_nat i) JS.half).

(** The step of the reduction in [analyzeMotion]. *)
Definition lower (min current : StableFrame.MotionScore) : StableFrame.MotionScore :=
  if JS.lt (StableFrame.score current) (StableFrame.score min) then current else min.

(** The records the scoring loop pushes for the given indices and scores. *)
Definition records (startTime : JS.number) (indices : list nat) (scores : list JS.number)
    : list StableFrame.MotionScore :=
  zip_with (fun i s => StableFrame.mkMotionScore (pair_timestamp startTime i) s i)
           indices scores.

(** The frames the loop compares at index [i]. *)
Definition pair_at (frameFiles : list string) (i : nat) : string * string :=
  (nth (i - 1) frameFiles EmptyString, nth i frameFiles EmptyString).

(** The path the drivers write the output to. *)
Definition final_path (toString : Q -> string) (outputPath : path)
    (timestamp : JS.number) : path :=
  path_join (path_dirname outputPath) (StableFrame.outputFilename toString timestamp).

Definition windowStart : JS.number := JS.half.

Definition windowEnd (d : JS.number) : JS.number :=
  JS.Math_min JS.ten (JS.mul (JS.Num (3 # 10)) d).

Definition is_number (x : JS.number) : Prop :=
  match x with
  | JS.Num _ => True
  | JS.NaN => False
  end.

(** [x <= y] on numbers. *)
Definition number_le (x y : JS.number) : Prop :=
  match x, y with
  | JS.Num a, JS.Num b => (a <= b)%Q
  | _, _ => False
  end.

Definition number_lt (x y : JS.number) : Prop :=
  match x, y with
  | JS.Num a, JS.Num b => (a < b)%Q
  | _, _ => False
  end.

(** [all_chars p s]: every character of [s] satisfies [p]. *)
Fixpoint all_chars (p : ascii -> bool) (s : string) : bool :=
  match s with
  | String c s' => p c && all_chars p s'
  | EmptyString => true
  end.

(** ** Reference definition for the artifact name *)

(** [|q|] rounded to the nearest tenth (the larger one on a tie), in tenths. *)
Definition tenths (q : Q) : Z := Qfloor (Qabs q * 10 + (1 # 2)).

(** The naming convention: base name, two hyphens, the time stamp in
    seconds to one decimal place with a hyphen where the decimal point
    would be, then ["s."] and the extension. *)
Definition artifact_name (baseName : string) (q : Q) (ext : string) : string :=
  baseName +:+ "--"
  +:+ (if JS.Qltb q 0 then "-" else "") +:+ JS.decimal (tenths q / 10)
  +:+ "-" +:+ JS.decimal (tenths q mod 10)
  +:+ "s." +:+ ext.

Fixpoint no_dot (s : string) : bool :=
  match s with
  | String c s' => negb (Ascii.eqb c ".") && no_dot s'
  | EmptyString => true
  end.

(** ** Reference definitions for the directory searches *)

(** A file name whose extension, in lower case, is a supported format. *)
Definition is_video (file : string) : bool :=
  bool_decide (JS.toLowerCase (JS.path_extname file) ∈ StableFrame.SUPPORTED_FORMATS).

(** [video_at n rel]: below the directory [n], the relative path [rel]
    leads to a regular file with a supported extension. *)
Definition video_at (n : node) (rel : path) : Prop :=
  (exists m d, lookup_path n rel = Some (File m d))
  /\ is_video (List.last rel EmptyString) = true.

(** The number of files and directories of a tree. *)
Fixpoint node_size (n : node) : nat :=
  match n with
  | File _ _ => 1
  | Dir _ es => S (map_fold (fun _ n' acc => node_size n' + acc)%nat 0%nat es)
  end.


(** The first loop of [findFirstVideoFile], over a listing: the files
    of the directory itself. *)
Definition first_file (dir : path) (l : list (string * node)) : option path :=
  foldr (fun e found =>
    if isFile e.2 && is_video e.1 then Some (path_join dir e.1) else found) None l.

(** The second loop: the subdirectories, in order. *)
Definition first_below (dir : path) (l : list (string * node)) : option path :=
  foldr (fun e found =>
    match e.2 with
    | Dir _ _ =>
      match StableFrame.find_video e.2 (path_join dir e.1) with
      | Some p => Some p
      | None => found
      end
    | File _ _ => found
    end) None l.

(** What [getAllVideoFiles] pushes for one entry of a listing. *)
Definition pushed (dir : path) (e : string * node) : list path :=
  match e.2 with
  | Dir _ _ => Compress.video_files e.2 (path_join dir e.1)
  | File _ _ => if is_video e.1 then [path_join dir e.1] else []
  end.

(** Whether [needsCompression] calls the video at [p] stale in [w]:
    its output is missing or older. *)
Definition stale (cwd : path) (w : world) (p : path) : bool :=
  match lookup_path (fs w) (Compress.outputPathOf cwd p), lookup_path (fs w) p with
  | Some out, Some src => mtime_of out <? mtime_of src
  | _, _ => true
  end.

(** ** Reference definitions for the processes and the errors of a run *)

(** The processes of the motion analysis: the burst and the comparisons. *)
Definition is_analysis (req : request) : Prop :=
  match req with
  | SampleFrames _ _ _ _ | Ssim _ _ => True
  | _ => False
  end.

Definition is_fs_error (e : error) : Prop :=
  match e with
  | FsError _ _ => True
  | _ => False
  end.

(** ** A concrete project, and engines to run the scripts against *)

Module Sample.

#[local] Open Scope string_scope.

(** A file written at [p], when the directory it goes to exists. *)
Fixpoint write (n : node) (p : path) (x : node) : node :=
  match n, p with
  | Dir m es, [c] => Dir m (<[ c := x ]> es)
  | Dir m es, c :: p' => Dir m (alter (fun n' => write n' p' x) c es)
  | _, _ => n
  end.

Definition __dirname : path := ["proj"; "dev"].
Definition cwd : path := ["proj"; "dev"].
Definition video : path := ["proj"; "dev"; "vid"; "reel.MP4"].

(** The project before any run: one video, modified at time 10. *)
Definition project : node :=
  Dir 0 {[ "proj" :=
    Dir 0 {[ "dev" :=
      Dir 0 {[ "vid" :=
        Dir 0 {[ "reel.MP4" := File 10 "video"; "notes.txt" := File 1 "" ]} ]} ]} ]}.

Definition w0 : world := mkWorld project 100 [].

Definition info : VideoInfo :=
  mkVideoInfo (JS.Num 20) (JS.Num 1000) (JS.Num 1920) (JS.Num 1080) (JS.Num 30).

Definition toString (q : Q) : string := "".

Definition parse_info (report : string) : option VideoInfo := Some info.

Definition frame_names : list string :=
  ["frame_001.jpg"; "frame_002.jpg"; "frame_003.jpg"; "frame_004.jpg"].

(** An engine: [sampling] is how the sampling process ends, [frames]
    are the files it leaves in the temporary directory, [diagnostic]
    is the text of the comparison whose second frame is given, and
    [written] is the modification time it gives the thumbnail. *)
Definition engine (sampling : proc_event) (frames : list string)
    (diagnostic : string -> string) (written : Z)
    (req : request) (t : node) : response :=
  match req with
  | FfmpegVersion => mkResponse (Close 0) "ffmpeg version 7" "" t
  | Ffprobe _ => mkResponse (Close 0) "{}" "" t
  | SampleFrames _ _ _ d =>
    mkResponse sampling "" ""
      (foldr (fun f t' => write t' (path_join d f) (File 50 "jpg")) t frames)
  | Ssim _ frame2Path =>
    mkResponse (Close 0) "" (diagnostic (List.last frame2Path "")) t
  | ExtractFrame _ _ _ out =>
    mkResponse (Close 0) "" "" (write t out (File written "webp"))
  end.

(** Similarities 0.2, 0.8 and 0.5: motion scores 0.8, 0.2 and 0.5. *)
Definition dip (frame : string) : string :=
  if String.eqb frame "frame_002.jpg" then "SSIM Y:0.1 All:0.2 (0.9)"
  else if String.eqb frame "frame_003.jpg" then "SSIM Y:0.7 All:0.8 (6.9)"
  else "SSIM Y:0.4 All:0.5 (3.0)".

(** Similarities 0.7, 0.7 and 0.1: motion scores 0.3, 0.3 and 0.9. *)
Definition tie (frame : string) : string :=
  if String.eqb frame "frame_004.jpg" then "SSIM All:0.1 (0.4)"
  else "SSIM All:0.7 (5.2)".

Definition healthy : request -> node -> response :=
  engine (Close 0) frame_names dip 60.
Definition tied : request -> node -> response :=
  engine (Close 0) frame_names tie 60.
Definition one_frame : request -> node -> response :=
  engine (Close 0) ["frame_001.jpg"] dip 60.
Definition exits_1 : request -> node -> response :=
  engine (Close 1) [] dip 60.
Definition cannot_start : request -> node -> response :=
  engine (ProcError (SpawnFailed "ffmpeg")) [] dip 60.

(** A first comparison whose figure is a lone dot; then similarity 0.9. *)
Definition dotted (frame : string) : string :=
  if String.eqb frame "frame_002.jpg" then "SSIM All:. (0.0)"
  else "SSIM All:0.9 (10.0)".

Definition unreadable_figure : request -> node -> response :=
  engine (Close 0) frame_names dotted 60.

(** An engine that stamps the thumbnail with a time before the
    source's last modification. *)
Definition stamps_early : request -> node -> response :=
  engine (Close 0) frame_names dip 5.

End Sample.

(** ** Further layouts of the project *)

Module Layouts.

#[local] Open Scope string_scope.

(** A project whose input directory [vid] has the given entries, and
    whose other entries next to [dev] are [siblings]. *)
Definition project_with (vid : node) (siblings : gmap string node) : world :=
  mkWorld (Dir 0 {[ "proj" := Dir 0 (<[ "dev" := Dir 0 {[ "vid" := vid ]} ]> siblings) ]})
          100 [].

(** Videos at two depths, and a file that is no video. *)
Definition nested_entries : gmap string node :=
  {[ "a" := Dir 2 {[ "x.mp4" := File 5 "deep" ]};
     "b.MOV" := File 7 "top";
     "notes.txt" := File 1 "" ]}.

Definition nested : world := project_with (Dir 0 nested_entries) ∅.

(** No video at any depth. *)
Definition quiet_entries : gmap string node :=
  {[ "docs" := Dir 2 {[ "readme.md" := File 5 "" ]};
     "notes.txt" := File 1 "" ]}.

Definition quiet : world := project_with (Dir 0 quiet_entries) ∅.

(** [vid] is a regular file. *)
Definition vid_is_file : world := project_with (File 3 "") ∅.

(** Two videos that differ in their extension only, and the output
    that both are given, written between the two. *)
Definition twin_entries : gmap string node :=
  {[ "clip.mp4" := File 10 "first"; "clip.mov" := File 20 "second" ]}.

Definition twins : world :=
  project_with (Dir 0 twin_entries)
    {[ "src" := Dir 0 {[ "assets" := Dir 0 {[ "vid" :=
         Dir 0 {[ "clip--extra-compressed.mp4" := File 15 "compressed" ]} ]} ]} ]}.

End Layouts.

(** ** Reasoning about the monad *)

(** [wp m Q w]: running [m] in [w] ends in an outcome and a world
    that satisfy [Q]. *)
Definition wp {A} (m : M A) (Q : outcome A -> world -> Prop) (w : world) : Prop :=
  Q (m w).1 (m w).2.

Lemma wp_run {A} (m : M A) Q w o w' : m w = (o, w') -> Q o w' -> wp m Q w.
Proof. unfold wp. by intros ->. Qed.

Lemma wp_mono {A} (m : M A) (Q Q' : outcome A -> world -> Prop) w :
  wp m Q w -> (forall o w', Q o w' -> Q' o w') -> wp m Q' w.
Proof. unfold wp. auto. Qed.

Lemma wp_any {A} (m : M A) (Q : outcome A -> world -> Prop) w :
  (forall o w', Q o w') -> wp m Q w.
Proof. unfold wp. auto. Qed.

Lemma wp_ret {A} (a : A) Q w : Q (Resolved a) w -> wp (ret a) Q w.
Proof. done. Qed.

Lemma wp_throw {A} e (Q : outcome A -> world -> Prop) w :
  Q (Rejected e) w -> wp (throw e) Q w.
Proof. done. Qed.

Lemma wp_bind {A B} (m : M A) (k : A -> M B) Q w :
  wp m (fun o w' =>
          match o with
          | Resolved a => wp (k a) Q w'
          | Rejected e => Q (Rejected e) w'
          end) w ->
  wp (bind m k) Q w.
Proof. unfold wp, bind. by destruct (m w) as [[a|e] w']. Qed.

Lemma wp_try_catch {A} (m : M A) (h : error -> M A) Q w :
  wp m (fun o w' =>
          match o with
          | Resolved a => Q (Resolved a) w'
          | Rejected e => wp (h e) Q w'
          end) w ->
  wp (try_catch m h) Q w.
Proof. unfold wp, try_catch. by destruct (m w) as [[a|e] w']. Qed.

Lemma bind_resolved {A B} (m : M A) (k : A -> M B) w a w' :
  m w = (Resolved a, w') -> bind m k w = k a w'.
Proof. unfold bind. by intros ->. Qed.

Lemma bind_rejected {A B} (m : M A) (k : A -> M B) w e w' :
  m w = (Rejected e, w') -> bind m k w = (Rejected e, w').
Proof. unfold bind. by intros ->. Qed.

Lemma try_catch_resolved {A} (m : M A) h w a w' :
  m w = (Resolved a, w') -> try_catch m h w = (Resolved a, w').
Proof. unfold try_catch. by intros ->. Qed.

Lemma try_catch_rejected {A} (m : M A) h w e w' :
  m w = (Rejected e, w') -> try_catch m h w = h e w'.
Proof. unfold try_catch. by intros ->. Qed.

(** ** The file system: lookups after updates *)

Lemma lookup_path_app n p q :
  lookup_path n (p ++ q) = lookup_path n p ≫= fun n' => lookup_path n' q.
Proof.
  revert n; induction p as [|c p IH]; intros n; simpl; [done|].
  destruct n as [|m es]; [done|]. destruct (es !! c); [apply IH|done].
Qed.

Lemma lookup_remove n p : p ≠ [] -> lookup_path (remove n p) p = None.
Proof.
  revert n; induction p as [|c p IH]; intros n Hp; [done|].
  destruct n as [m d|m es]; [by destruct p|].
  destruct p as [|c' p'].
  - simpl. by rewrite lookup_delete_eq.
  - cbn [remove lookup_path]. rewrite lookup_alter_eq.
    destruct (es !! c) as [n'|]; simpl; [|done].
    by apply IH.
Qed.

Lemma lookup_remove_below n p q :
  p ≠ [] -> lookup_path (remove n p) (p ++ q) = None.
Proof. intros Hp. by rewrite lookup_path_app, lookup_remove. Qed.

Lemma lookup_path_join n dir file m es :
  lookup_path n dir = Some (Dir m es) ->
  lookup_path n (path_join dir file) = es !! file.
Proof.
  intros H. unfold path_join. rewrite lookup_path_app, H. simpl.
  by destruct (es !! file).
Qed.

Lemma path_dirname_join dir file : path_dirname (path_join dir file) = dir.
Proof. apply removelast_last. Qed.

(** ** The primitive operations *)

Lemma wp_existsSync p Q w :
  Q (Resolved (bool_decide (is_Some (lookup_path (fs w) p)))) w ->
  wp (existsSync p) Q w.
Proof. done. Qed.

Lemma wp_statSync p Q w :
  (forall n, lookup_path (fs w) p = Some n -> Q (Resolved n) w) ->
  (lookup_path (fs w) p = None -> Q (Rejected (FsError "ENOENT" p)) w) ->
  wp (statSync p) Q w.
Proof.
  unfold wp, statSync. intros Hs Hn.
  destruct (lookup_path (fs w) p); simpl; auto.
Qed.

Lemma wp_readdirSync p Q w :
  (forall m es, lookup_path (fs w) p = Some (Dir m es) ->
                Q (Resolved (map_to_list es).*1) w) ->
  (forall e, (forall m es, lookup_path (fs w) p ≠ Some (Dir m es)) ->
             Q (Rejected e) w) ->
  wp (readdirSync p) Q w.
Proof.
  unfold wp, readdirSync. intros Hd He.
  destruct (lookup_path (fs w) p) as [[m d|m es]|] eqn:E; simpl.
  - apply He. congruence.
  - by eapply Hd.
  - apply He. congruence.
Qed.

Lemma wp_rmSync p Q w :
  Q (Resolved tt) (mkWorld (remove (fs w) p) (now w) (spawned w)) ->
  wp (rmSync p) Q w.
Proof. done. Qed.

Lemma wp_mkdirSync p Q w :
  (forall n, mkdir_p (now w) (fs w) p = Some n ->
             Q (Resolved tt) (mkWorld n (now w) (spawned w))) ->
  (mkdir_p (now w) (fs w) p = None -> Q (Rejected (FsError "ENOTDIR" p)) w) ->
  wp (mkdirSync p) Q w.
Proof.
  unfold wp, mkdirSync. intros Hs Hn.
  destruct (mkdir_p (now w) (fs w) p); simpl; auto.
Qed.

(** [ensureDirectoryExists] either succeeds, or fails on a path that is
    not there and leaves the world as it was. *)
Lemma wp_ensureDirectoryExists p Q w :
  (forall w', spawned w' = spawned w -> Q (Resolved tt) w') ->
  (forall e, lookup_path (fs w) p = None -> Q (Rejected e) w) ->
  wp (ensureDirectoryExists p) Q w.
Proof.
  intros Hs Hn. unfold ensureDirectoryExists.
  apply wp_bind, wp_existsSync.
  destruct (bool_decide_reflect (is_Some (lookup_path (fs w) p))) as [Hex|Hex]; simpl.
  - apply wp_ret. by apply Hs.
  - apply wp_mkdirSync.
    + intros n _. by apply Hs.
    + intros _. apply Hn. by apply eq_None_not_Some.
Qed.

(** *** The freshness gate *)

Lemma filter_fst {A B} (f : A -> bool) (l : list (A * B)) :
  List.filter f l.*1 = (List.filter (fun e => f e.1) l).*1.
Proof.
  induction l as [|[a b] l IH]; csimpl; [done|].
  destruct (f a); csimpl; by rewrite IH.
Qed.

Lemma anyUpToDate_run w src outputDir m es (l : list (string * node)) :
  lookup_path (fs w) outputDir = Some (Dir m es) ->
  (forall e, In e l -> es !! e.1 = Some e.2) ->
  StableFrame.anyUpToDate src outputDir l.*1 w
  = (Resolved (forallb (fun e => mtime_of e.2 <? mtime_of src) l), w).
Proof.
  intros Hdir. induction l as [|[f n] l IH]; intros Hl; csimpl; [done|].
  unfold bind, statSync.
  rewrite (lookup_path_join _ _ f _ _ Hdir).
  pose proof (Hl (f, n) (or_introl eq_refl)) as Hf. simpl in Hf. rewrite Hf. simpl.
  destruct (Z.leb_spec (mtime_of src) (mtime_of n)) as [Hle|Hlt].
  - by replace (mtime_of n <? mtime_of src) with false by lia.
  - replace (mtime_of n <? mtime_of src) with true by lia.
    apply IH. intros e He. apply Hl. by right.
Qed.

Lemma outputs_lookup es e : In e (outputs es) -> es !! e.1 = Some e.2.
Proof.
  unfold outputs. intros [He _]%filter_In.
  destruct e as [f n]. by apply elem_of_map_to_list, list_elem_of_In.
Qed.

Lemma needsExtraction_dir w inputPath outputDir m es :
  lookup_path (fs w) outputDir = Some (Dir m es) ->
  StableFrame.needsExtraction inputPath outputDir w =
  match outputs es, lookup_path (fs w) inputPath with
  | [], _ => (Resolved true, w)
  | _ :: _, None => (Rejected (FsError "ENOENT" inputPath), w)
  | _ :: _, Some src =>
    (Resolved (forallb (fun e => mtime_of e.2 <? mtime_of src) (outputs es)), w)
  end.
Proof.
  intros Hdir.
  unfold StableFrame.needsExtraction, bind, existsSync, readdirSync, statSync.
  rewrite Hdir. rewrite bool_decide_eq_true_2 by eauto. simpl.
  rewrite Hdir, filter_fst. fold (outputs es).
  destruct (outputs es) as [|e l] eqn:Hout; [done|].
  cbn [fmap list_fmap length Nat.eqb].
  destruct (lookup_path (fs w) inputPath) as [src|]; [|done].
  apply (anyUpToDate_run w src outputDir m es (e :: l) Hdir).
  intros e' He'. apply outputs_lookup. by rewrite Hout.
Qed.

Lemma forallb_false {A} (f : A -> bool) l :
  forallb f l = false -> exists x, In x l /\ f x = false.
Proof.
  induction l as [|x l IH]; simpl; [done|].
  destruct (f x) eqn:Hx; simpl.
  - intros (y & Hy & Hf)%IH. eauto.
  - eauto.
Qed.

Lemma anyUpToDate_pure src outputDir files w :
  wp (StableFrame.anyUpToDate src outputDir files) (fun _ w' => w' = w) w.
Proof.
  induction files as [|file rest IH]; simpl; [done|].
  apply wp_bind, wp_statSync; [|done].
  intros n _. by destruct (_ <=? _).
Qed.

Lemma needsExtraction_pure inputPath outputDir w :
  (StableFrame.needsExtraction inputPath outputDir w).2 = w.
Proof.
  change (wp (StableFrame.needsExtraction inputPath outputDir) (fun _ w' => w' = w) w).
  unfold StableFrame.needsExtraction.
  apply wp_bind, wp_existsSync. destruct (negb _); [done|].
  apply wp_bind, wp_readdirSync; [|done].
  intros m es _. destruct (_ =? _)%nat; [done|].
  apply wp_bind, wp_statSync; [|done].
  intros src _. apply anyUpToDate_pure.
Qed.

Lemma needsExtraction_single_pure inputPath outputPath w :
  (FirstFrame.needsExtraction inputPath outputPath w).2 = w.
Proof.
  change (wp (FirstFrame.needsExtraction inputPath outputPath) (fun _ w' => w' = w) w).
  unfold FirstFrame.needsExtraction.
  apply wp_bind, wp_existsSync. destruct (negb _); [done|].
  apply wp_bind, wp_statSync; [|done].
  intros src _. apply wp_bind, wp_statSync; [|done]. done.
Qed.

Lemma newest_mtime_lt (l : list (string * node)) t :
  l ≠ [] ->
  exists newest, newest_mtime l = Some newest /\
    (newest < t <-> forall e, In e l -> mtime_of e.2 < t).
Proof.
  destruct l as [|e l]; [done|]. intros _. simpl. eexists; split; [done|].
  induction l as [|e' l IH]; simpl.
  - split; [intros H x [<-|[]]; done | intros H; apply H; by left].
  - rewrite Z.max_lub_lt_iff, IH. split.
    + intros [H1 H2] x [<-|[<-|Hx]]; auto.
    + intros H; split; [apply H; auto | intros x [<-|Hx]; apply H; auto].
Qed.

(** C2. The freshness check is a read-only predicate.  Directory variant: stale
    when the target is absent or holds no entry with the output prefix
    and extension; otherwise stale exactly when the source is strictly
    newer than every such entry, that is, strictly newer than the most
    recently modified one, and fresh exactly when some such entry is at
    least as new as the source.  Single-file variant: stale when the
    output is absent, otherwise exactly when the source is strictly
    newer than it. *)
Theorem needsExtraction_gate w inputPath target :
  (StableFrame.needsExtraction inputPath target w).2 = w
  /\ (FirstFrame.needsExtraction inputPath target w).2 = w
  /\ (lookup_path (fs w) target = None ->
      (StableFrame.needsExtraction inputPath target w).1 = Resolved true
      /\ (FirstFrame.needsExtraction inputPath target w).1 = Resolved true)
  /\ (forall m es,
      lookup_path (fs w) target = Some (Dir m es) -> outputs es = [] ->
      (StableFrame.needsExtraction inputPath target w).1 = Resolved true)
  /\ (forall m es src,
      lookup_path (fs w) target = Some (Dir m es) -> outputs es ≠ [] ->
      lookup_path (fs w) inputPath = Some src ->
      exists stale newest,
        (StableFrame.needsExtraction inputPath target w).1 = Resolved stale
        /\ newest_mtime (outputs es) = Some newest
        /\ (stale = true <-> forall e, In e (outputs es) -> mtime_of e.2 < mtime_of src)
        /\ (stale = true <-> newest < mtime_of src)
        /\ (stale = false <-> exists e, In e (outputs es) /\ mtime_of src <= mtime_of e.2))
  /\ (forall out src,
      lookup_path (fs w) target = Some out ->
      lookup_path (fs w) inputPath = Some src ->
      (FirstFrame.needsExtraction inputPath target w).1
      = Resolved (bool_decide (mtime_of out < mtime_of src))).
Proof.
  assert (Hall : forall src l,
    forallb (fun e : string * node => mtime_of e.2 <? mtime_of src) l = true
    <-> forall e, In e l -> mtime_of e.2 < mtime_of src).
  { intros src l. rewrite forallb_forall.
    split; intros H e He; specialize (H e He); lia. }
  repeat split.
  - apply needsExtraction_pure.
  - apply needsExtraction_single_pure.
  - unfold StableFrame.needsExtraction, bind, existsSync.
    by rewrite H, bool_decide_eq_false_2 by (by intros [? ?]).
  - unfold FirstFrame.needsExtraction, bind, existsSync.
    by rewrite H, bool_decide_eq_false_2 by (by intros [? ?]).
  - intros m es Hdir Hnone. by rewrite (needsExtraction_dir _ _ _ _ _ Hdir), Hnone.
  - intros m es src Hdir Hsome Hsrc.
    rewrite (needsExtraction_dir _ _ _ _ _ Hdir), Hsrc.
    destruct (newest_mtime_lt (outputs es) (mtime_of src) Hsome) as (newest & Hn & Hlt).
    exists (forallb (fun e => mtime_of e.2 <? mtime_of src) (outputs es)), newest.
    destruct (outputs es) as [|e0 l0] eqn:Hout; [done|]. rewrite <- Hout in *.
    repeat split; try done; try apply Hall.
    + by rewrite Hlt, <- Hall.
    + by rewrite Hlt, <- Hall.
    + intros (e & He & Hf)%forallb_false. exists e. split; [done|lia].
    + intros (e & He & Hle). apply not_true_iff_false. rewrite Hall.
      intros H. specialize (H e He). lia.
  - intros out src Hout Hsrc.
    unfold FirstFrame.needsExtraction, bind, existsSync, statSync, ret.
    rewrite Hout, bool_decide_eq_true_2 by eauto. simpl.
    rewrite Hsrc. simpl. rewrite Hout. simpl.
    f_equal. destruct (Z.ltb_spec (mtime_of out) (mtime_of src)).
    + by rewrite bool_decide_eq_true_2.
    + rewrite bool_decide_eq_false_2; [done|lia].
Qed.

(** ** Strings, sorting and the directory search *)

Lemma append_cons x (a b : string) : String x a +:+ b = String x (a +:+ b).
Proof. done. Qed.

Lemma append_assoc (a b c : string) : (a +:+ b) +:+ c = a +:+ (b +:+ c).
Proof. induction a as [|x a IH]; [done|]. by rewrite !append_cons, IH. Qed.

(** *** Strings: prefixes, runs and the [All:] figure *)

Lemma prefix_drop p s :
  String.prefix p s = true -> s = p +:+ JS.drop (String.length p) s.
Proof.
  revert s. induction p as [|a p IH]; intros s; [by destruct s|].
  destruct s as [|b s]; [done|]. cbn [String.prefix].
  destruct (ascii_dec a b) as [->|]; [|done].
  intros Hp. rewrite append_cons. cbn [String.length JS.drop]. by rewrite <- IH.
Qed.

Lemma take_drop_while p s : s = JS.take_while p s +:+ JS.drop_while p s.
Proof.
  induction s as [|c s IH]; [done|]. cbn [JS.take_while JS.drop_while].
  destruct (p c); [|done]. by rewrite append_cons, <- IH.
Qed.

Lemma take_while_all p s : all_chars p (JS.take_while p s) = true.
Proof.
  induction s as [|c s IH]; [done|]. cbn [JS.take_while].
  destruct (p c) eqn:Hc; [|done]. cbn [all_chars]. by rewrite Hc, IH.
Qed.

Lemma drop_while_head p s c s' : JS.drop_while p s = String c s' -> p c = false.
Proof.
  induction s as [|c0 s IH]; [done|]. cbn [JS.drop_while].
  destruct (p c0) eqn:Hc; [done|]. by intros [= <- _].
Qed.

(** What the regular expression captures: a non-empty maximal run of
    digits and dots right after an occurrence of ["All:"]. *)
Lemma match_All_Some text capture :
  JS.match_All text = Some capture ->
  exists pre post,
    text = pre +:+ "All:" +:+ capture +:+ post
    /\ capture ≠ EmptyString
    /\ all_chars JS.is_digit_or_dot capture = true
    /\ forall c post', post = String c post' -> JS.is_digit_or_dot c = false.
Proof.
  induction text as [|a text IH]; [done|]. cbn [JS.match_All].
  assert (Hlater : JS.match_All text = Some capture ->
    exists pre post,
      String a text = pre +:+ "All:" +:+ capture +:+ post
      /\ capture ≠ EmptyString
      /\ all_chars JS.is_digit_or_dot capture = true
      /\ forall c post', post = String c post' -> JS.is_digit_or_dot c = false).
  { intros (pre & post & -> & ?)%IH. by exists (String a pre), post. }
  destruct (String.prefix "All:" (String a text)) eqn:Hp; [|done].
  destruct (JS.take_while JS.is_digit_or_dot (JS.drop 4 (String a text)))
    as [|c0 cap0] eqn:Hrun; [done|].
  intros [= <-]. apply prefix_drop in Hp. change (String.length "All:") with 4%nat in Hp.
  exists EmptyString, (JS.drop_while JS.is_digit_or_dot (JS.drop 4 (String a text))).
  split_and!.
  - rewrite <- Hrun, <- take_drop_while. exact Hp.
  - done.
  - rewrite <- Hrun. apply take_while_all.
  - intros c post'. apply drop_while_head.
Qed.

(** What it means that the regular expression does not match: no
    occurrence of ["All:"] is followed by a digit or a dot. *)
Lemma match_All_None text :
  JS.match_All text = None ->
  forall pre c post,
    text = pre +:+ "All:" +:+ String c post -> JS.is_digit_or_dot c = false.
Proof.
  induction text as [|a text IH]; intros Hnone pre c post Htext.
  { by destruct pre. }
  cbn [JS.match_All] in Hnone.
  destruct pre as [|b pre].
  - change (EmptyString +:+ ?s) with s in Htext.
    rewrite Htext in Hnone.
    change (String.prefix "All:" ("All:" +:+ String c post)) with true in Hnone.
    change (JS.drop 4 ("All:" +:+ String c post)) with (String c post) in Hnone.
    cbn [JS.take_while] in Hnone. by destruct (JS.is_digit_or_dot c).
  - rewrite append_cons in Htext. injection Htext as -> Htext.
    apply (IH) with (pre := pre) (post := post); [|done].
    destruct (String.prefix "All:" (String b text)); [|done].
    by destruct (JS.take_while _ _).
Qed.

Lemma match_All_not_None text pre c post :
  text = pre +:+ "All:" +:+ String c post ->
  JS.is_digit_or_dot c = true ->
  JS.match_All text ≠ None.
Proof.
  intros Htext Hc Hnone.
  rewrite (match_All_None text Hnone pre c post Htext) in Hc. done.
Qed.

(** *** Sorting *)

Lemma insert_sorted_Permutation x l : JS.insert_sorted x l ≡ₚ x :: l.
Proof.
  induction l as [|y l IH]; [done|]. cbn [JS.insert_sorted].
  destruct (String.leb x y); [done|]. rewrite IH. apply Permutation_swap.
Qed.

Lemma sort_Permutation l : JS.sort l ≡ₚ l.
Proof.
  induction l as [|x l IH]; [done|]. unfold JS.sort in *. cbn [foldr].
  by rewrite insert_sorted_Permutation, IH.
Qed.

Lemma insert_sorted_Sorted x l :
  Sorted String.le l -> Sorted String.le (JS.insert_sorted x l).
Proof.
  induction 1 as [|y l Hl IH Hhd]; [by repeat constructor|].
  cbn [JS.insert_sorted]. destruct (String.leb x y) eqn:Hxy.
  - constructor; [by constructor|]. constructor. unfold String.le. by rewrite Hxy.
  - assert (Hyx : String.le y x).
    { unfold String.le. destruct (String.leb_total x y) as [H|H]; [congruence|].
      by rewrite H. }
    constructor; [done|].
    destruct l as [|z l]; cbn [JS.insert_sorted]; [by constructor|].
    destruct (String.leb x z); constructor; [done|by inversion Hhd].
Qed.

(** [sort] puts the frame names in ascending order, and keeps them all. *)
Lemma sort_Sorted l : Sorted String.le (JS.sort l).
Proof.
  induction l as [|x l IH]; [constructor|]. unfold JS.sort in *. cbn [foldr].
  by apply insert_sorted_Sorted.
Qed.

(** *** The search for the video *)

(** The two loops of [findFirstVideoFile] run over the directory
    listing in its order: the first file with a supported extension
    wins, then the first subdirectory that holds a video. *)
Lemma find_video_listing m es dir :
  StableFrame.find_video (Dir m es) dir
  = match
      foldr (fun e found =>
        if isFile e.2
           && bool_decide (JS.toLowerCase (JS.path_extname e.1)
                           ∈ StableFrame.SUPPORTED_FORMATS)
        then Some (path_join dir e.1) else found) None (map_to_list es)
    with
    | Some p => Some p
    | None =>
      foldr (fun e found =>
        match e.2 with
        | Dir _ _ =>
          match StableFrame.find_video e.2 (path_join dir e.1) with
          | Some p => Some p
          | None => found
          end
        | File _ _ => found
        end) None (map_to_list es)
    end.
Proof.
  assert (Hpairs : forall (B : Type) (f : string -> node -> B -> B) b l,
            foldr (uncurry f) b l = foldr (fun e => f e.1 e.2) b l).
  { intros B f b l. induction l as [|[file n] l IH]; [done|]. simpl. by rewrite IH. }
  cbn [StableFrame.find_video]. by rewrite !map_fold_foldr, !Hpairs.
Qed.

(** ** Properties of the stable-frame script *)

Section Properties.

Variable engine : request -> node -> response.
Variable __dirname : path.
Variable cwd : path.
Variable toString : Q -> string.
Variable parse_info : string -> option VideoInfo.

#[local] Notation spawn := (StableFrame.spawn engine).
#[local] Notation tempDir := (StableFrame.tempDir __dirname).
#[local] Notation calculateFrameDifference := (StableFrame.calculateFrameDifference engine).
#[local] Notation scoreFrames := (StableFrame.scoreFrames engine).
#[local] Notation analyzeMotion := (StableFrame.analyzeMotion engine __dirname).
#[local] Notation outputFilename := (StableFrame.outputFilename toString).
#[local] Notation extractSimpleFrame := (StableFrame.extractSimpleFrame engine toString).
#[local] Notation extractStableFrame := (StableFrame.extractStableFrame engine __dirname toString).
#[local] Notation extractVideoThumbnail :=
  (StableFrame.extractVideoThumbnail engine __dirname cwd toString parse_info).

Lemma wp_spawn req Q w :
  Q (Resolved (engine req (fs w)))
    (mkWorld (fs_after (engine req (fs w))) (now w) (spawned w ++ [req])) ->
  wp (spawn req) Q w.
Proof. done. Qed.

Lemma tempDir_nonempty : tempDir ≠ [].
Proof. unfold StableFrame.tempDir, path_join. by destruct __dirname. Qed.

(** C7. Whatever way one motion-analysis pass ends -- a selected
    timestamp, the early return on a burst of fewer than two frames, a
    non-zero exit of the engine, a failure to start it, or an exception
    while the frames are read and scored -- the temporary frame
    directory [temp_frames] and everything below it is gone from the
    file system when the pass hands its outcome to the caller. *)
Theorem analyzeMotion_removes_tempDir inputPath startTime endTime videoInfo w rest :
  lookup_path (fs (analyzeMotion inputPath startTime endTime videoInfo w).2)
              (tempDir ++ rest) = None.
Proof.
  pose proof tempDir_nonempty as Hne.
  change (wp (analyzeMotion inputPath startTime endTime videoInfo)
            (fun _ w' => lookup_path (fs w') (tempDir ++ rest) = None) w).
  unfold StableFrame.analyzeMotion.
  apply wp_bind, wp_ensureDirectoryExists.
  2:{ intros _ Hgone. by rewrite lookup_path_app, Hgone. }
  intros w1 _. apply wp_bind, wp_spawn.
  set (w2 := mkWorld _ _ _).
  destruct (event _) as [code|e].
  - destruct (code =? 0).
    + apply wp_try_catch, wp_bind, wp_readdirSync.
      2:{ intros e _. apply wp_bind, wp_rmSync, wp_throw. by apply lookup_remove_below. }
      intros m es _.
      destruct (_ <? _)%nat.
      * apply wp_bind, wp_rmSync, wp_ret. by apply lookup_remove_below.
      * apply wp_bind, wp_any. intros [scores|e] w3.
        2:{ apply wp_bind, wp_rmSync, wp_throw. by apply lookup_remove_below. }
        apply wp_bind. destruct scores as [|x l]; simpl.
        -- apply wp_throw, wp_bind, wp_rmSync, wp_throw. by apply lookup_remove_below.
        -- apply wp_ret, wp_bind, wp_rmSync, wp_ret. by apply lookup_remove_below.
    + apply wp_bind, wp_rmSync, wp_ret. by apply lookup_remove_below.
  - apply wp_bind, wp_rmSync, wp_throw. by apply lookup_remove_below.
Qed.

#[local] Notation sampler := (sample engine __dirname).
#[local] Notation burst_of := (burst __dirname).
#[local] Notation scored_by := (scored engine __dirname).
#[local] Notation cleaned := (cleaned __dirname).
#[local] Notation ssim_request := (ssim_request __dirname).
#[local] Notation final_path := (final_path toString).

(** *** The scorer *)

(** C5. The scorer always resolves, never rejects.  After a ['close']
    event its score is one minus the number read from the figure that
    follows the first usable ["All:"] of the diagnostic text -- a
    non-empty run of digits and dots -- and the fallback 0.5 when no
    ["All:"] of the text is followed by a digit or a dot; after an
    ['error'] event (the engine could not be started) it is 0.5 as
    well.  The only effect is the one spawned comparison. *)
Theorem calculateFrameDifference_score frame1Path frame2Path w :
  let ffmpeg := engine (Ssim frame1Path frame2Path) (fs w) in
  exists motionScore,
    calculateFrameDifference frame1Path frame2Path w
    = (Resolved motionScore,
       mkWorld (fs_after ffmpeg) (now w) (spawned w ++ [Ssim frame1Path frame2Path]))
    /\ (forall code ssimMatch,
        event ffmpeg = Close code ->
        JS.match_All (stderr ffmpeg) = Some ssimMatch ->
        motionScore = JS.sub JS.one (JS.parseFloat ssimMatch)
        /\ exists pre post,
             stderr ffmpeg = pre +:+ "All:" +:+ ssimMatch +:+ post
             /\ ssimMatch ≠ EmptyString
             /\ all_chars JS.is_digit_or_dot ssimMatch = true)
    /\ (forall code,
        event ffmpeg = Close code ->
        (forall pre c post,
           stderr ffmpeg = pre +:+ "All:" +:+ String c post ->
           JS.is_digit_or_dot c = false) ->
        motionScore = JS.half)
    /\ (forall e, event ffmpeg = ProcError e -> motionScore = JS.half).
Proof.
  intros ffmpeg.
  unfold StableFrame.calculateFrameDifference, bind, StableFrame.spawn.
  cbn [fst snd fs now spawned]. fold ffmpeg.
  destruct (event ffmpeg) as [code|e].
  - destruct (JS.match_All (stderr ffmpeg)) as [ssimMatch|] eqn:Hmatch;
      eexists; (split; [done|]); split_and!.
    + intros _ capture _ [= <-]. split; [done|].
      destruct (match_All_Some _ _ Hmatch) as (pre & post & ? & ? & ? & _). eauto.
    + intros _ _ Hnone. exfalso.
      destruct (match_All_Some _ _ Hmatch) as (pre & post & Htext & Hne & Hall & _).
      destruct ssimMatch as [|c capture]; [done|].
      cbn [all_chars] in Hall. apply andb_true_iff in Hall as [Hc _].
      rewrite append_cons in Htext. by rewrite (Hnone _ _ _ Htext) in Hc.
    + done.
    + done.
    + done.
    + done.
  - eexists. split; [done|]. split_and!; done.
Qed.

Lemma calculateFrameDifference_resolves frame1Path frame2Path w :
  exists s w', calculateFrameDifference frame1Path frame2Path w = (Resolved s, w')
    /\ spawned w' = spawned w ++ [Ssim frame1Path frame2Path].
Proof.
  unfold StableFrame.calculateFrameDifference, bind, StableFrame.spawn. simpl.
  destruct (event _); [destruct (JS.match_All _)|]; eauto.
Qed.

(** *** The motion-analysis pass, case by case *)

Lemma analyzeMotion_sample inputPath startTime endTime videoInfo w :
  analyzeMotion inputPath startTime endTime videoInfo w
  = bind (sampler inputPath startTime endTime)
      (fun ffmpeg =>
         match event ffmpeg with
         | Close code =>
           if code =? 0 then
             try_catch
               (let* files := readdirSync tempDir in
                let frameFiles := JS.sort (List.filter StableFrame.is_frame files) in
                if (length frameFiles <? 2)%nat then
                  let* _ := rmSync tempDir in
                  ret (JS.add startTime JS.half)
                else
                  let* motionScores :=
                    scoreFrames tempDir startTime frameFiles
                      (seq 1 (length frameFiles - 1)) [] in
                  let* stableFrame :=
                    StableFrame.reduce
                      (fun min current =>
                         if JS.lt (StableFrame.score current) (StableFrame.score min)
                         then current else min)
                      motionScores in
                  let* _ := rmSync tempDir in
                  ret (StableFrame.timestamp stableFrame))
               (fun error =>
                  let* _ := rmSync tempDir in
                  throw error)
           else
             let* _ := rmSync tempDir in
             ret (JS.add startTime JS.one)
         | ProcError error =>
           let* _ := rmSync tempDir in
           throw error
         end) w.
Proof.
  unfold StableFrame.analyzeMotion, sample, bind.
  by destruct (ensureDirectoryExists tempDir w) as [[[]|e] w0].
Qed.

Lemma sample_spawned inputPath startTime endTime w r w1 :
  sampler inputPath startTime endTime w = (Resolved r, w1) ->
  spawned w1
  = spawned w ++ [SampleFrames inputPath startTime (JS.sub endTime startTime) tempDir].
Proof.
  intros Hs.
  assert (wp (sampler inputPath startTime endTime)
            (fun o w' => forall r', o = Resolved r' ->
               spawned w' = spawned w ++
                 [SampleFrames inputPath startTime (JS.sub endTime startTime) tempDir]) w)
    as Hwp.
  { unfold sample. apply wp_bind, wp_ensureDirectoryExists; [|done].
    intros w' Hw'. apply wp_spawn. intros _ _. simpl. by rewrite Hw'. }
  unfold wp in Hwp. rewrite Hs in Hwp. eauto.
Qed.

Lemma analyzeMotion_nonzero inputPath startTime endTime videoInfo w r w1 code :
  sampler inputPath startTime endTime w = (Resolved r, w1) ->
  event r = Close code -> code ≠ 0 ->
  analyzeMotion inputPath startTime endTime videoInfo w
  = (Resolved (JS.add startTime JS.one), cleaned w1).
Proof.
  intros Hs Hev Hcode.
  rewrite analyzeMotion_sample, (bind_resolved _ _ _ _ _ Hs), Hev.
  by destruct (Z.eqb_spec code 0).
Qed.

Lemma analyzeMotion_error inputPath startTime endTime videoInfo w r w1 e :
  sampler inputPath startTime endTime w = (Resolved r, w1) ->
  event r = ProcError e ->
  analyzeMotion inputPath startTime endTime videoInfo w = (Rejected e, cleaned w1).
Proof.
  intros Hs Hev.
  by rewrite analyzeMotion_sample, (bind_resolved _ _ _ _ _ Hs), Hev.
Qed.

Lemma readdirSync_burst w frameFiles :
  burst_of w = Some frameFiles ->
  exists files, readdirSync tempDir w = (Resolved files, w)
    /\ frameFiles = JS.sort (List.filter StableFrame.is_frame files).
Proof.
  unfold burst, readdirSync.
  destruct (lookup_path (fs w) tempDir) as [[m d|m es]|]; [done| |done].
  intros [= <-]. eauto.
Qed.

Lemma analyzeMotion_degenerate inputPath startTime endTime videoInfo w r w1 frameFiles :
  sampler inputPath startTime endTime w = (Resolved r, w1) ->
  event r = Close 0 ->
  burst_of w1 = Some frameFiles ->
  (length frameFiles < 2)%nat ->
  analyzeMotion inputPath startTime endTime videoInfo w
  = (Resolved (JS.add startTime JS.half), cleaned w1).
Proof.
  intros Hs Hev (files & Hfiles & ->)%readdirSync_burst Hlen.
  rewrite analyzeMotion_sample, (bind_resolved _ _ _ _ _ Hs), Hev. simpl.
  unfold try_catch. rewrite (bind_resolved _ _ _ _ _ Hfiles).
  by rewrite (proj2 (Nat.ltb_lt _ _) Hlen).
Qed.

(** C4. When the engine exits with status 0 and the burst holds fewer
    than two frames, the pass resolves with exactly [startTime + 0.5]
    right after the directory listing: the only process spawned during
    the pass is the sampling one, so the scorer is never invoked. *)
Theorem degenerate_burst_fallback inputPath startTime endTime videoInfo w r w1 frameFiles :
  sampler inputPath startTime endTime w = (Resolved r, w1) ->
  event r = Close 0 ->
  burst_of w1 = Some frameFiles ->
  (length frameFiles < 2)%nat ->
  exists w',
    analyzeMotion inputPath startTime endTime videoInfo w
    = (Resolved (JS.add startTime JS.half), w')
    /\ spawned w'
       = spawned w ++ [SampleFrames inputPath startTime (JS.sub endTime startTime) tempDir].
Proof.
  intros Hs Hev Hb Hlen. exists (cleaned w1).
  split; [by eapply analyzeMotion_degenerate|].
  apply (sample_spawned _ _ _ _ _ _ Hs).
Qed.

(** *** Numbers *)

Lemma Qltb_lt x y : JS.Qltb x y = true <-> (x < y)%Q.
Proof.
  unfold JS.Qltb. rewrite negb_true_iff, <- not_true_iff_false, Qle_bool_iff.
  split; [apply Qnot_le_lt | apply Qlt_not_le].
Qed.

Lemma Qltb_ge x y : JS.Qltb x y = false <-> (y <= x)%Q.
Proof.
  unfold JS.Qltb. rewrite negb_false_iff. apply Qle_bool_iff.
Qed.

Lemma lt_number_lt x y : JS.lt x y = true <-> number_lt x y.
Proof.
  destruct x as [|a], y as [|b]; simpl; try (split; [discriminate|done]).
  apply Qltb_lt.
Qed.


(** *** The reduction of [analyzeMotion] *)

(** The reduction keeps an element of the array: the first one that no
    element is strictly below, and, when all scores are numbers, with
    every earlier element strictly above it. *)
Lemma fold_lower x l :
  exists j,
    (x :: l) !! j = Some (fold_left lower l x)
    /\ (forall k y, (x :: l) !! k = Some y ->
          JS.lt (StableFrame.score y) (StableFrame.score (fold_left lower l x)) = false)
    /\ (Forall (fun y => is_number (StableFrame.score y)) (x :: l) ->
        forall k y, (x :: l) !! k = Some y ->
          number_le (StableFrame.score (fold_left lower l x)) (StableFrame.score y)
          /\ ((k < j)%nat ->
              number_lt (StableFrame.score (fold_left lower l x)) (StableFrame.score y))).
Proof.
  induction l as [|c l IH] using rev_ind.
  - exists 0%nat. simpl. split; [done|]. split.
    + intros [|k] y [=]; subst.
      destruct (StableFrame.score y); simpl; [done|]. apply Qltb_ge, Qle_refl.
    + intros Hnum [|k] y [=]; subst. split; [|lia].
      apply Forall_inv in Hnum.
      destruct (StableFrame.score y); simpl in *; [done|apply Qle_refl].
  - destruct IH as (j & Hj & Hmin & Hfirst).
    rewrite fold_left_app. simpl.
    set (r := fold_left lower l x) in *.
    change (lower r c)
      with (if JS.lt (StableFrame.score c) (StableFrame.score r) then c else r).
    destruct (JS.lt (StableFrame.score c) (StableFrame.score r)) eqn:Hlt.
    + (* the new element is strictly lower: it replaces the minimum *)
      exists (length (x :: l)).
      apply lt_number_lt in Hlt.
      destruct (StableFrame.score c) as [|qc] eqn:Hc; [done|].
      destruct (StableFrame.score r) as [|qr] eqn:Hr; [done|]. simpl in Hlt.
      split; [|split].
      * change (x :: l ++ [c]) with ((x :: l) ++ [c]).
        by rewrite lookup_app_r, Nat.sub_diag.
      * intros k y Hy. change (x :: l ++ [c]) with ((x :: l) ++ [c]) in Hy.
        apply lookup_app_Some in Hy as [Hy|[_ Hy]].
        -- specialize (Hmin k y Hy).
           destruct (StableFrame.score y) as [|qy]; [done|]. simpl in *.
           apply Qltb_ge. apply Qltb_ge in Hmin. lra.
        -- apply list_lookup_singleton_Some in Hy as [_ <-]. rewrite Hc. simpl.
           apply Qltb_ge, Qle_refl.
      * intros Hnum k y Hy. change (x :: l ++ [c]) with ((x :: l) ++ [c]) in Hnum, Hy.
        apply Forall_app in Hnum as [Hnum _].
        apply lookup_app_Some in Hy as [Hy|[Hk Hy]].
        -- destruct (Hfirst Hnum k y Hy) as [Hle _].
           destruct (StableFrame.score y) as [|qy]; [done|]. simpl in *.
           split; [lra|]. intros _. lra.
        -- apply list_lookup_singleton_Some in Hy as [_ <-]. rewrite Hc. simpl.
           split; [apply Qle_refl|]. intros Hk'. simpl in *. lia.
    + (* otherwise the minimum is kept *)
      exists j. split; [|split].
      * change (x :: l ++ [c]) with ((x :: l) ++ [c]).
        rewrite lookup_app_l; [done|]. by eapply lookup_lt_Some.
      * intros k y Hy. change (x :: l ++ [c]) with ((x :: l) ++ [c]) in Hy.
        apply lookup_app_Some in Hy as [Hy|[_ Hy]]; [by eapply Hmin|].
        by apply list_lookup_singleton_Some in Hy as [_ <-].
      * intros Hnum k y Hy. change (x :: l ++ [c]) with ((x :: l) ++ [c]) in Hnum, Hy.
        apply Forall_app in Hnum as [Hnum Hc].
        apply lookup_app_Some in Hy as [Hy|[Hk Hy]]; [by eapply Hfirst|].
        apply list_lookup_singleton_Some in Hy as [_ <-].
        apply Forall_inv in Hc.
        assert (Hr : is_number (StableFrame.score r)).
        { eapply (Forall_lookup_1 _ _ _ _ Hnum Hj). }
        destruct (StableFrame.score c) as [|qc]; [done|].
        destruct (StableFrame.score r) as [|qr]; [done|]. simpl in *.
        apply Qltb_ge in Hlt. split; [done|].
        intros Hk'. apply lookup_lt_Some in Hj. simpl in *. lia.
Qed.

(** *** The scoring loop *)

Lemma scoreFrames_run startTime frameFiles indices acc w :
  exists scores w',
    scoreFrames tempDir startTime frameFiles indices acc w
    = (Resolved (acc ++ records startTime indices scores), w')
    /\ scored_by (pair_at frameFiles <$> indices) w scores w'
    /\ length scores = length indices
    /\ spawned w' = spawned w ++ (ssim_request <$> (pair_at frameFiles <$> indices)).
Proof.
  revert acc w. induction indices as [|i rest IH]; intros acc w.
  - exists [], w. simpl. rewrite !app_nil_r. repeat split. constructor.
  - cbn [StableFrame.scoreFrames].
    destruct (calculateFrameDifference_resolves
                (path_join tempDir (nth (i - 1) frameFiles EmptyString))
                (path_join tempDir (nth i frameFiles EmptyString)) w)
      as (s & w1 & Hs & Hsp).
    rewrite (bind_resolved _ _ _ _ _ Hs).
    destruct (IH (acc ++ [StableFrame.mkMotionScore
                            (JS.add startTime (JS.mul (JS.of_nat i) JS.half)) s i]) w1)
      as (scores & w2 & Hrun & Hscored & Hlen & Hsp2).
    exists (s :: scores), w2. rewrite Hrun. csimpl.
    rewrite <- app_assoc. repeat split; try done.
    + by econstructor.
    + by rewrite Hlen.
    + rewrite Hsp2, Hsp, <- app_assoc. done.
Qed.

Lemma pair_at_cons a frameFiles i :
  (1 <= i)%nat -> pair_at (a :: frameFiles) (S i) = pair_at frameFiles i.
Proof.
  intros Hi. unfold pair_at. destruct i as [|i]; [lia|]. simpl.
  by rewrite Nat.sub_0_r.
Qed.

Lemma pair_at_adjacent frameFiles :
  pair_at frameFiles <$> seq 1 (length frameFiles - 1) = adjacent frameFiles.
Proof.
  induction frameFiles as [|a [|b l] IH]; [done|done|].
  replace (length (a :: b :: l) - 1)%nat with (S (length l)) by (simpl; lia).
  replace (length (b :: l) - 1)%nat with (length l) in IH by (simpl; lia).
  change (adjacent (a :: b :: l)) with ((a, b) :: adjacent (b :: l)).
  cbn [seq fmap list_fmap]. f_equal.
  rewrite <- IH.
  rewrite <- (fmap_S_seq 1), <- list_fmap_compose.
  apply list_fmap_ext. intros k i Hi%lookup_seq. simpl. apply pair_at_cons. lia.
Qed.

Lemma analyzeMotion_scored inputPath startTime endTime videoInfo w r w1 frameFiles :
  sampler inputPath startTime endTime w = (Resolved r, w1) ->
  event r = Close 0 ->
  burst_of w1 = Some frameFiles ->
  (2 <= length frameFiles)%nat ->
  exists scores w2 x l,
    scored_by (adjacent frameFiles) w1 scores w2
    /\ length scores = (length frameFiles - 1)%nat
    /\ spawned w2 = spawned w1 ++ (ssim_request <$> adjacent frameFiles)
    /\ records startTime (seq 1 (length frameFiles - 1)) scores = x :: l
    /\ analyzeMotion inputPath startTime endTime videoInfo w
       = (Resolved (StableFrame.timestamp (fold_left lower l x)), cleaned w2).
Proof.
  intros Hs Hev (files & Hfiles & ->)%readdirSync_burst Hlen.
  set (frameFiles := JS.sort _) in *.
  destruct (scoreFrames_run startTime frameFiles (seq 1 (length frameFiles - 1)) [] w1)
    as (scores & w2 & Hrun & Hscored & Hlens & Hsp).
  rewrite pair_at_adjacent in Hscored, Hsp. rewrite length_seq in Hlens.
  destruct (records startTime (seq 1 (length frameFiles - 1)) scores) as [|x l] eqn:Hrec.
  { apply (f_equal length) in Hrec. unfold records in Hrec.
    rewrite length_zip_with, length_seq in Hrec. simpl in Hrec. lia. }
  exists scores, w2, x, l. repeat split; try done.
  rewrite analyzeMotion_sample, (bind_resolved _ _ _ _ _ Hs), Hev. simpl.
  unfold try_catch. rewrite (bind_resolved _ _ _ _ _ Hfiles). fold frameFiles.
  rewrite (proj2 (Nat.ltb_ge _ _) Hlen).
  by rewrite (bind_resolved _ _ _ _ _ Hrun).
Qed.

(** *** The extraction drivers *)

Lemma extractSimpleFrame_run inputPath outputPath videoInfo t w :
  exists result w',
    extractSimpleFrame inputPath outputPath videoInfo t w = (Resolved result, w')
    /\ spawned w'
       = spawned w ++ [ExtractFrame inputPath t videoInfo (final_path outputPath t)]
    /\ forall filename t',
         result = StableFrame.Success filename t' ->
         t' = t /\ filename = outputFilename t
         /\ is_Some (lookup_path (fs w') (final_path outputPath t)).
Proof.
  unfold StableFrame.extractSimpleFrame, bind, StableFrame.spawn, existsSync, statSync.
  fold (final_path outputPath t). simpl.
  set (r := engine _ _).
  destruct (event r) as [code|e]; [destruct (code =? 0)|]; simpl;
    try (by eexists _, _; repeat split).
  destruct (lookup_path (fs_after r) (final_path outputPath t)) as [n|] eqn:Hn.
  - rewrite bool_decide_eq_true_2 by eauto. simpl. rewrite Hn.
    eexists _, _. split; [done|]. split; [done|].
    intros filename t' [= <- <-]. simpl. rewrite Hn. eauto.
  - rewrite bool_decide_eq_false_2 by (by intros [? ?]). simpl.
    by eexists _, _; repeat split.
Qed.

Lemma extractStableFrame_rejected inputPath outputPath videoInfo w e w1 :
  analyzeMotion inputPath JS.half
    (JS.Math_min JS.ten (JS.mul (duration videoInfo) (JS.Num (3 # 10)))) videoInfo w
  = (Rejected e, w1) ->
  extractStableFrame inputPath outputPath videoInfo w
  = extractSimpleFrame inputPath outputPath videoInfo JS.two w1.
Proof.
  intros Ha. unfold StableFrame.extractStableFrame.
  by rewrite (try_catch_rejected _ _ _ _ _ (bind_rejected _ _ _ _ _ Ha)).
Qed.

Lemma extractStableFrame_resolved inputPath outputPath videoInfo w t w1 :
  analyzeMotion inputPath JS.half
    (JS.Math_min JS.ten (JS.mul (duration videoInfo) (JS.Num (3 # 10)))) videoInfo w
  = (Resolved t, w1) ->
  exists result w',
    extractStableFrame inputPath outputPath videoInfo w = (Resolved result, w')
    /\ spawned w'
       = spawned w1 ++ [ExtractFrame inputPath t videoInfo (final_path outputPath t)]
    /\ forall filename t',
         result = StableFrame.Success filename t' ->
         t' = t /\ filename = outputFilename t
         /\ is_Some (lookup_path (fs w') (final_path outputPath t)).
Proof.
  intros Ha. unfold StableFrame.extractStableFrame, try_catch.
  rewrite (bind_resolved _ _ _ _ _ Ha).
  unfold bind, StableFrame.spawn, existsSync, statSync.
  fold (final_path outputPath t). simpl.
  set (r := engine _ _).
  destruct (event r) as [code|e]; [destruct (code =? 0)|]; simpl;
    try (by eexists _, _; repeat split).
  destruct (lookup_path (fs_after r) (final_path outputPath t)) as [n|] eqn:Hn.
  - rewrite bool_decide_eq_true_2 by eauto. simpl. rewrite Hn.
    eexists _, _. split; [done|]. split; [done|].
    intros filename t' [= <- <-]. simpl. rewrite Hn. eauto.
  - rewrite bool_decide_eq_false_2 by (by intros [? ?]). simpl.
    by eexists _, _; repeat split.
Qed.

(** *** The selection *)


Lemma analyzeMotion_selects inputPath startTime endTime videoInfo w r w1 frameFiles :
  sampler inputPath startTime endTime w = (Resolved r, w1) ->
  event r = Close 0 ->
  burst_of w1 = Some frameFiles ->
  (2 <= length frameFiles)%nat ->
  exists scores w2 j s,
    scored_by (adjacent frameFiles) w1 scores w2
    /\ length scores = (length frameFiles - 1)%nat
    /\ spawned w2 = spawned w1 ++ (ssim_request <$> adjacent frameFiles)
    /\ scores !! j = Some s
    /\ (forall k s', scores !! k = Some s' -> JS.lt s' s = false)
    /\ (Forall is_number scores ->
        forall k s', scores !! k = Some s' ->
          number_le s s' /\ ((k < j)%nat -> number_lt s s'))
    /\ analyzeMotion inputPath startTime endTime videoInfo w
       = (Resolved (pair_timestamp startTime (S j)), cleaned w2).
Proof.
  intros Hs Hev Hb Hlen.
  destruct (analyzeMotion_scored inputPath startTime endTime
              videoInfo w r w1 frameFiles Hs Hev Hb Hlen)
    as (scores & w2 & x & l & Hscored & Hlens & Hsp & Hrec & Hrun).
  destruct (fold_lower x l) as (j & Hj & Hmin & Hfirst).
  set (chosen := fold_left lower l x) in *.
  rewrite <- Hrec in Hj, Hmin, Hfirst. unfold records in Hj.
  apply lookup_zip_with_Some in Hj as (i & s & Hchosen & Hi & Hsj).
  apply lookup_seq in Hi as [-> _].
  assert (Hrecord : forall k s', scores !! k = Some s' ->
            records startTime (seq 1 (length frameFiles - 1)) scores !! k
            = Some (StableFrame.mkMotionScore (pair_timestamp startTime (1 + k)) s' (1 + k))).
  { intros k s' Hk. unfold records. apply lookup_zip_with_Some.
    exists (1 + k)%nat, s'. split; [done|]. split; [|done].
    apply lookup_seq. split; [done|].
    apply lookup_lt_Some in Hk. lia. }
  assert (Hscore : StableFrame.score chosen = s) by (by rewrite Hchosen).
  assert (Hts : StableFrame.timestamp chosen = pair_timestamp startTime (S j))
    by (by rewrite Hchosen).
  rewrite Hscore in Hmin, Hfirst. rewrite Hts in Hrun.
  exists scores, w2, j, s. split_and!; try done.
  - intros k s' Hk. apply (Hmin k _ (Hrecord k s' Hk)).
  - intros Hnum k s' Hk.
    apply (fun H => Hfirst H k _ (Hrecord k s' Hk)).
    apply Forall_lookup_2. intros k' y Hy. unfold records in Hy.
    apply lookup_zip_with_Some in Hy as (i' & s'' & -> & _ & Hs'').
    apply (Forall_lookup_1 _ _ _ _ Hnum Hs'').
Qed.

Lemma analyzeMotion_unreadable inputPath startTime endTime videoInfo w r w1 :
  sampler inputPath startTime endTime w = (Resolved r, w1) ->
  event r = Close 0 ->
  burst_of w1 = None ->
  exists e, analyzeMotion inputPath startTime endTime videoInfo w = (Rejected e, cleaned w1).
Proof.
  intros Hs Hev Hb.
  rewrite analyzeMotion_sample, (bind_resolved _ _ _ _ _ Hs), Hev. simpl.
  unfold try_catch, bind, readdirSync. unfold burst in Hb.
  destruct (lookup_path (fs w1) tempDir) as [[m d|m es]|]; [|done|]; eauto.
Qed.

(** The ways a motion-analysis pass can end. *)
Lemma analyzeMotion_outcomes inputPath startTime endTime videoInfo w :
  (exists e w', analyzeMotion inputPath startTime endTime videoInfo w = (Rejected e, w'))
  \/ (exists t w', analyzeMotion inputPath startTime endTime videoInfo w = (Resolved t, w')
       /\ (t = JS.add startTime JS.half \/ t = JS.add startTime JS.one
           \/ exists j, t = pair_timestamp startTime (S j))).
Proof.
  destruct (sampler inputPath startTime endTime w) as [[r|e] w1] eqn:Hs.
  2:{ left. exists e, w1. by rewrite analyzeMotion_sample, (bind_rejected _ _ _ _ _ Hs). }
  destruct (event r) as [code|e] eqn:Hev.
  2:{ left. eexists _, _. by eapply analyzeMotion_error. }
  destruct (Z.eq_dec code 0) as [->|Hcode].
  2:{ right. eexists _, _. split; [by eapply analyzeMotion_nonzero|]. auto. }
  destruct (burst_of w1) as [frameFiles|] eqn:Hb.
  2:{ left. destruct (analyzeMotion_unreadable inputPath startTime endTime videoInfo
                        w r w1 Hs Hev Hb) as [e He]. eauto. }
  destruct (Nat.lt_ge_cases (length frameFiles) 2) as [Hlt|Hge].
  - right. eexists _, _. split; [by eapply analyzeMotion_degenerate|]. auto.
  - right.
    destruct (analyzeMotion_selects inputPath startTime endTime videoInfo
                w r w1 frameFiles Hs Hev Hb Hge)
      as (scores & w2 & j & s & _ & _ & _ & _ & _ & _ & Hrun).
    eexists _, _. split; [done|]. eauto.
Qed.


(** *** Failures of the sampling engine *)

(** C3, as the code has it.  A non-zero exit of the sampling engine is
    not an error for the pass: no frame is listed or scored, and the
    pass resolves with the fallback [startTime + 1] (1.5 s for the
    selector's window start 0.5).  A failure to start the engine does
    surface: the pass rejects with the spawn error, which the caller
    then catches.  In both cases the sampling is the only process
    spawned. *)
Theorem sampling_failure inputPath startTime endTime videoInfo w r w1 :
  sampler inputPath startTime endTime w = (Resolved r, w1) ->
  (forall code, event r = Close code -> code ≠ 0 ->
     analyzeMotion inputPath startTime endTime videoInfo w
     = (Resolved (JS.add startTime JS.one), cleaned w1))
  /\ (forall e, event r = ProcError e ->
     analyzeMotion inputPath startTime endTime videoInfo w = (Rejected e, cleaned w1))
  /\ spawned (cleaned w1)
     = spawned w ++ [SampleFrames inputPath startTime (JS.sub endTime startTime) tempDir]
  /\ JS.add windowStart JS.one = JS.Num (3 # 2).
Proof.
  intros Hs. split_and!.
  - intros code Hev Hcode. by eapply analyzeMotion_nonzero.
  - intros e Hev. by eapply analyzeMotion_error.
  - apply (sample_spawned _ _ _ _ _ _ Hs).
  - done.
Qed.

Lemma selection_failure_fallback_aux inputPath outputPath videoInfo w e w1 :
  analyzeMotion inputPath JS.half
    (JS.Math_min JS.ten (JS.mul (duration videoInfo) (JS.Num (3 # 10)))) videoInfo w
  = (Rejected e, w1) ->
  forall filename t w',
    extractStableFrame inputPath outputPath videoInfo w
    = (Resolved (StableFrame.Success filename t), w') ->
    t = JS.Num 2 /\ filename = outputFilename (JS.Num 2).
Proof.
  intros Ha filename t w' Hrun.
  rewrite (extractStableFrame_rejected inputPath outputPath videoInfo w e w1 Ha) in Hrun.
  destruct (extractSimpleFrame_run inputPath outputPath videoInfo JS.two w1)
    as (result & w2 & Hrun' & _ & Hres).
  rewrite Hrun in Hrun'. injection Hrun' as <- <-.
  destruct (Hres filename t eq_refl) as (-> & -> & _). done.
Qed.

(** C6. When the motion analysis fails -- its promise rejects, be it
    from the sampling or from reading the temporary frames -- the
    caller does not fail: it extracts once more, through the simple
    path, at the fixed time stamp 2.0, and resolves with the result of
    that extraction. *)
Theorem selection_failure_fallback inputPath outputPath videoInfo w e w1 :
  analyzeMotion inputPath JS.half
    (JS.Math_min JS.ten (JS.mul (duration videoInfo) (JS.Num (3 # 10)))) videoInfo w
  = (Rejected e, w1) ->
  extractStableFrame inputPath outputPath videoInfo w
  = extractSimpleFrame inputPath outputPath videoInfo (JS.Num 2) w1
  /\ exists result w2,
       extractStableFrame inputPath outputPath videoInfo w = (Resolved result, w2)
       /\ spawned w2
          = spawned w1
            ++ [ExtractFrame inputPath (JS.Num 2) videoInfo (final_path outputPath (JS.Num 2))]
       /\ forall filename t,
            result = StableFrame.Success filename t ->
            t = JS.Num 2 /\ filename = outputFilename (JS.Num 2).
Proof.
  intros Ha.
  pose proof (extractStableFrame_rejected inputPath outputPath videoInfo w e w1 Ha) as Hfb.
  split; [done|].
  destruct (extractSimpleFrame_run inputPath outputPath videoInfo JS.two w1)
    as (result & w2 & Hrun & Hsp & Hres).
  exists result, w2. rewrite Hfb. split_and!; try done.
  intros filename t Hsucc. destruct (Hres filename t Hsucc) as (-> & -> & _). done.
Qed.

(** *** Lower bound on the selected time stamp *)

Lemma add_lower_bound s d q :
  JS.add (JS.Num s) (JS.Num d) = JS.Num q -> (q == s + d)%Q.
Proof. intros [= <-]. apply Qred_correct. Qed.

Lemma pair_timestamp_lower_bound s j :
  exists q, pair_timestamp (JS.Num s) (S j) = JS.Num q /\ (s + (1 # 2) <= q)%Q.
Proof.
  unfold pair_timestamp, JS.of_nat, JS.half. simpl. eexists. split; [done|].
  rewrite !Qred_correct.
  assert (1 <= inject_Z (Z.of_nat (S j)))%Q.
  { change 1%Q with (inject_Z 1). rewrite <- Zle_Qle. lia. }
  lra.
Qed.

Lemma analyzeMotion_lower_bound inputPath startTime endTime videoInfo w s t w' :
  startTime = JS.Num s ->
  analyzeMotion inputPath startTime endTime videoInfo w = (Resolved t, w') ->
  exists q, t = JS.Num q /\ (s + (1 # 2) <= q)%Q.
Proof.
  intros -> Hrun.
  destruct (analyzeMotion_outcomes inputPath (JS.Num s) endTime videoInfo w)
    as [(e & w'' & He)|(t' & w'' & Ht & Hcases)]; [congruence|].
  rewrite Hrun in Ht. injection Ht as <- <-.
  destruct Hcases as [->|[->|[j ->]]].
  - eexists. split; [done|]. simpl. rewrite Qred_correct. lra.
  - eexists. split; [done|]. simpl. rewrite Qred_correct. lra.
  - apply pair_timestamp_lower_bound.
Qed.

(** A thumbnail that is extracted carries the name of its time stamp,
    and that time stamp is a number, 1.0 or more. *)
Lemma extractStableFrame_timestamp inputPath outputPath videoInfo w filename t w' :
  extractStableFrame inputPath outputPath videoInfo w
  = (Resolved (StableFrame.Success filename t), w') ->
  filename = outputFilename t /\ exists q, t = JS.Num q /\ (1 <= q)%Q.
Proof.
  intros Hrun.
  destruct (StableFrame.analyzeMotion engine __dirname inputPath JS.half
              (JS.Math_min JS.ten (JS.mul (duration videoInfo) (JS.Num (3 # 10))))
              videoInfo w) as [[t0|e] w1] eqn:Ha.
  - destruct (extractStableFrame_resolved inputPath outputPath videoInfo w t0 w1 Ha)
      as (result & w2 & Hext & _ & Hres).
    rewrite Hrun in Hext. injection Hext as <- <-.
    destruct (Hres filename t eq_refl) as (-> & -> & _). split; [done|].
    destruct (analyzeMotion_lower_bound _ _ _ _ _ (1 # 2)%Q _ _ eq_refl Ha) as (q & -> & Hq).
    exists q. split; [done|]. lra.
  - destruct (selection_failure_fallback_aux inputPath outputPath videoInfo w e w1 Ha
                filename t w' Hrun) as [-> ->].
    split; [done|]. exists 2%Q. split; [done|]. lra.
Qed.

(** C10. A pass that resolves does so with a time stamp of at least
    [startTime + 0.5]; the selector starts at 0.5 and falls back to 2.0,
    so a thumbnail that is extracted is taken at 1.0 s or later. *)
Theorem selected_timestamp_lower_bound inputPath outputPath startTime endTime videoInfo w :
  (forall s t w',
     startTime = JS.Num s ->
     analyzeMotion inputPath startTime endTime videoInfo w = (Resolved t, w') ->
     exists q, t = JS.Num q /\ (s + (1 # 2) <= q)%Q)
  /\ (forall filename t w',
     extractStableFrame inputPath outputPath videoInfo w
     = (Resolved (StableFrame.Success filename t), w') ->
     exists q, t = JS.Num q /\ (1 <= q)%Q).
Proof.
  split.
  - intros s t w'. apply analyzeMotion_lower_bound.
  - intros filename t w' Hrun.
    by destruct (extractStableFrame_timestamp _ _ _ _ _ _ _ Hrun) as [_ ?].
Qed.

(** *** The name of the output *)

Lemma no_dot_app a b : no_dot (a +:+ b) = no_dot a && no_dot b.
Proof.
  induction a as [|x a IH]; [done|].
  rewrite append_cons. cbn [no_dot]. by rewrite IH, andb_assoc.
Qed.

Lemma no_dot_uint u : no_dot (NilEmpty.string_of_uint u) = true.
Proof. induction u; simpl; done. Qed.

Lemma no_dot_decimal n : no_dot (JS.decimal n) = true.
Proof.
  unfold JS.decimal, NilZero.string_of_uint.
  destruct (N.to_uint (Z.to_N n)) eqn:E; try done; rewrite <- E; apply no_dot_uint.
Qed.

(** Replacing ["."] hits the first dot of the string. *)
Lemma replace_first_dot pre post :
  no_dot pre = true ->
  JS.replace "." "-" (pre +:+ String "." post) = pre +:+ String "-" post.
Proof.
  induction pre as [|c pre IH]; intros Hpre; [by destruct post|].
  simpl in Hpre. apply andb_true_iff in Hpre as [Hc Hpre].
  apply negb_true_iff, Ascii.eqb_neq in Hc.
  rewrite !append_cons. cbn [JS.replace String.prefix].
  destruct (ascii_dec "." c) as [Heq|_]; [by symmetry in Heq|].
  by rewrite IH.
Qed.

Lemma outputFilename_convention q :
  (Qabs q < inject_Z (10 ^ 21))%Q ->
  outputFilename (JS.Num q)
  = artifact_name StableFrame.OUTPUT_BASE_FILENAME q "webp".
Proof.
  intros Hq. unfold StableFrame.outputFilename, artifact_name, JS.toFixed1.
  destruct (Qle_bool (inject_Z (10 ^ 21)) (Qabs q)) eqn:Hbig.
  { apply Qle_bool_iff in Hbig. lra. }
  fold (tenths q). do 2 f_equal.
  set (sign := if JS.Qltb q 0 then _ else _).
  rewrite <- (append_assoc sign). change ("." +:+ ?s) with (String "." s).
  rewrite replace_first_dot.
  - by rewrite !append_assoc.
  - rewrite no_dot_app, no_dot_decimal. subst sign. by destruct (JS.Qltb q 0).
Qed.

(** C8. The file name the drivers give the output is the base name,
    two hyphens, the time stamp to one decimal place with a hyphen for
    the decimal point, and [s.webp] -- [firstframe--4-2s.webp] at 4.2 s
    -- on the motion-analysis path and on the simple fallback path
    alike; the engine is asked to write that very file. *)
Theorem output_filename_convention inputPath outputPath videoInfo w :
  (forall q, (Qabs q < inject_Z (10 ^ 21))%Q ->
     outputFilename (JS.Num q) = artifact_name StableFrame.OUTPUT_BASE_FILENAME q "webp")
  /\ (forall t w1,
     analyzeMotion inputPath JS.half
       (JS.Math_min JS.ten (JS.mul (duration videoInfo) (JS.Num (3 # 10)))) videoInfo w
     = (Resolved t, w1) ->
     exists result w',
       extractStableFrame inputPath outputPath videoInfo w = (Resolved result, w')
       /\ spawned w'
          = spawned w1
            ++ [ExtractFrame inputPath t videoInfo
                  (path_join (path_dirname outputPath) (outputFilename t))]
       /\ forall filename t', result = StableFrame.Success filename t' ->
            t' = t /\ filename = outputFilename t)
  /\ (forall t,
     exists result w',
       extractSimpleFrame inputPath outputPath videoInfo t w = (Resolved result, w')
       /\ spawned w'
          = spawned w
            ++ [ExtractFrame inputPath t videoInfo
                  (path_join (path_dirname outputPath) (outputFilename t))]
       /\ forall filename t', result = StableFrame.Success filename t' ->
            t' = t /\ filename = outputFilename t)
  /\ (forall filename t w',
     extractStableFrame inputPath outputPath videoInfo w
     = (Resolved (StableFrame.Success filename t), w') ->
     exists q, t = JS.Num q
       /\ ((q < inject_Z (10 ^ 21))%Q ->
           filename = artifact_name StableFrame.OUTPUT_BASE_FILENAME q "webp"))
  /\ outputFilename (JS.Num (42 # 10)) = "firstframe--4-2s.webp"
  /\ outputFilename (JS.Num 2) = "firstframe--2-0s.webp".
Proof.
  split_and!; try done.
  - apply outputFilename_convention.
  - intros t w1 Ha.
    destruct (extractStableFrame_resolved inputPath outputPath videoInfo w t w1 Ha)
      as (result & w' & Hrun & Hsp & Hres).
    exists result, w'. split_and!; try done.
    intros filename t' Hsucc. by destruct (Hres filename t' Hsucc) as (? & ? & _).
  - intros t.
    destruct (extractSimpleFrame_run inputPath outputPath videoInfo t w)
      as (result & w' & Hrun & Hsp & Hres).
    exists result, w'. split_and!; try done.
    intros filename t' Hsucc. by destruct (Hres filename t' Hsucc) as (? & ? & _).
  - intros filename t w' Hrun.
    destruct (extractStableFrame_timestamp _ _ _ _ _ _ _ Hrun) as (-> & q & -> & Hq).
    exists q. split; [done|]. intros Hbig.
    apply outputFilename_convention. rewrite Qabs_pos; [done|lra].
Qed.

(** *** Running the script twice *)

Lemma prefix_append a b : String.prefix a (a +:+ b) = true.
Proof.
  induction a as [|x a IH]; [by destruct b|].
  rewrite append_cons. cbn [String.prefix].
  by destruct (ascii_dec x x).
Qed.

Lemma endsWith_append a b suf :
  JS.endsWith b suf = true -> JS.endsWith (a +:+ b) suf = true.
Proof.
  intros Hb. induction a as [|x a IH]; [done|].
  rewrite append_cons. cbn [JS.endsWith]. rewrite IH. apply orb_true_r.
Qed.

Lemma is_output_outputFilename t : StableFrame.is_output (outputFilename t) = true.
Proof.
  unfold StableFrame.is_output, StableFrame.outputFilename, JS.startsWith.
  rewrite prefix_append. simpl.
  by repeat apply endsWith_append.
Qed.

Lemma extractStableFrame_success inputPath outputPath videoInfo w :
  wp (extractStableFrame inputPath outputPath videoInfo)
     (fun o w' => forall filename t,
        o = Resolved (StableFrame.Success filename t) ->
        filename = outputFilename t
        /\ is_Some (lookup_path (fs w') (path_join (path_dirname outputPath) filename))) w.
Proof.
  destruct (StableFrame.analyzeMotion engine __dirname inputPath JS.half
              (JS.Math_min JS.ten (JS.mul (duration videoInfo) (JS.Num (3 # 10))))
              videoInfo w) as [[t0|e] w1] eqn:Ha.
  - destruct (extractStableFrame_resolved inputPath outputPath videoInfo w t0 w1 Ha)
      as (result & w2 & Hrun & _ & Hres).
    eapply wp_run; [done|]. intros filename t [= ->].
    by destruct (Hres filename t eq_refl) as (-> & -> & ?).
  - pose proof (extractStableFrame_rejected inputPath outputPath videoInfo w e w1 Ha) as Hfb.
    destruct (extractSimpleFrame_run inputPath outputPath videoInfo JS.two w1)
      as (result & w2 & Hrun & _ & Hres).
    rewrite <- Hfb in Hrun.
    eapply wp_run; [done|]. intros filename t [= ->].
    by destruct (Hres filename t eq_refl) as (-> & -> & ?).
Qed.

Lemma extractVideoThumbnail_extracted w :
  wp extractVideoThumbnail
     (fun o w' => forall filename t,
        o = Resolved (StableFrame.Extracted filename t) ->
        filename = outputFilename t
        /\ is_Some (lookup_path (fs w')
                      (path_join (StableFrame.OUTPUT_DIR cwd) filename))) w.
Proof.
  unfold StableFrame.extractVideoThumbnail.
  apply wp_bind, wp_any. intros [hasFFmpeg|e] w1; [|done].
  destruct (negb hasFFmpeg); [done|].
  apply wp_bind, wp_existsSync. destruct (negb _); [done|].
  apply wp_bind, wp_any. intros [[videoFile|]|e] w2; [|done|done].
  apply wp_bind, wp_any. intros [[]|e] w3; [|done].
  apply wp_bind, wp_any. intros [stale|e] w4; [|done].
  destruct (negb stale); [done|].
  apply wp_try_catch, wp_bind, wp_any. intros [videoInfo|e] w5; [|done].
  apply wp_bind.
  eapply wp_mono; [apply extractStableFrame_success|].
  intros [[|filename t]|e] w6 Hres; [done| |done].
  rewrite path_dirname_join in Hres.
  intros filename' t' [= <- <-]. by apply Hres.
Qed.

Lemma lookup_path_join_Some n dir file out :
  lookup_path n (path_join dir file) = Some out ->
  exists m es, lookup_path n dir = Some (Dir m es) /\ es !! file = Some out.
Proof.
  unfold path_join. rewrite lookup_path_app.
  destruct (lookup_path n dir) as [[m d|m es]|]; simpl; [done| |done].
  destruct (es !! file) eqn:E; [|done]. intros [= <-]. eauto.
Qed.

(** A matching output that is at least as new as the source makes the
    gate report fresh. *)
Lemma needsExtraction_fresh w inputPath outputDir file src out :
  StableFrame.is_output file = true ->
  lookup_path (fs w) inputPath = Some src ->
  lookup_path (fs w) (path_join outputDir file) = Some out ->
  mtime_of src <= mtime_of out ->
  StableFrame.needsExtraction inputPath outputDir w = (Resolved false, w).
Proof.
  intros Hfile Hsrc (m & es & Hdir & Hout)%lookup_path_join_Some Hle.
  rewrite (needsExtraction_dir _ _ _ _ _ Hdir), Hsrc.
  assert (Hin : In (file, out) (outputs es)).
  { unfold outputs. apply filter_In. split; [|done].
    by apply list_elem_of_In, elem_of_map_to_list. }
  destruct (outputs es) as [|e0 l0] eqn:Houts; [done|]. rewrite <- Houts in *.
  do 2 f_equal. apply not_true_iff_false. intros Hall.
  rewrite forallb_forall in Hall. specialize (Hall _ Hin). simpl in Hall. lia.
Qed.

(** C9, as the code has it.  After a run that extracted the thumbnail
    [filename] at the time stamp [t], a second run that finds a source
    not newer than that output reports it fresh: the freshness check answers
    not-stale, the file system is left as it is (the output keeps its
    name and time stamp), and the only process the second run spawns is
    the availability check [ffmpeg -version] -- no probe, no sampling,
    no scoring, no extraction. *)
Theorem second_run_is_up_to_date w0 filename t w1 videoFile m es src :
  extractVideoThumbnail w0 = (Resolved (StableFrame.Extracted filename t), w1) ->
  event (engine FfmpegVersion (fs w1)) = Close 0 ->
  fs_after (engine FfmpegVersion (fs w1)) = fs w1 ->
  lookup_path (fs w1) (StableFrame.INPUT_DIR cwd) = Some (Dir m es) ->
  StableFrame.find_video (Dir m es) (StableFrame.INPUT_DIR cwd) = Some videoFile ->
  lookup_path (fs w1) videoFile = Some src ->
  (forall out,
     lookup_path (fs w1) (path_join (StableFrame.OUTPUT_DIR cwd) filename) = Some out ->
     mtime_of src <= mtime_of out) ->
  filename = outputFilename t
  /\ is_Some (lookup_path (fs w1) (path_join (StableFrame.OUTPUT_DIR cwd) filename))
  /\ StableFrame.needsExtraction videoFile (StableFrame.OUTPUT_DIR cwd) w1
     = (Resolved false, w1)
  /\ extractVideoThumbnail w1
     = (Resolved StableFrame.UpToDate,
        mkWorld (fs w1) (now w1) (spawned w1 ++ [FfmpegVersion])).
Proof.
  intros Hfirst Hev Hfs Hin Hfind Hsrc Hnewer.
  pose proof (extractVideoThumbnail_extracted w0) as Hwp.
  unfold wp in Hwp. rewrite Hfirst in Hwp. cbn [fst snd] in Hwp.
  destruct (Hwp filename t eq_refl) as [Hname [out Hout]].
  pose proof (Hnewer out Hout) as Hle.
  assert (Hfresh : forall w, fs w = fs w1 ->
            StableFrame.needsExtraction videoFile (StableFrame.OUTPUT_DIR cwd) w
            = (Resolved false, w)).
  { intros w Hw. eapply needsExtraction_fresh; rewrite ?Hw; try done.
    rewrite Hname. apply is_output_outputFilename. }
  split_and!; [done|by eexists|by apply Hfresh|].
  set (w2 := mkWorld (fs w1) (now w1) (spawned w1 ++ [FfmpegVersion])).
  assert (Hcheck : StableFrame.checkFFmpeg engine w1 = (Resolved true, w2)).
  { unfold StableFrame.checkFFmpeg, bind, StableFrame.spawn. simpl.
    by rewrite Hev, Hfs. }
  assert (Hexists : existsSync (StableFrame.INPUT_DIR cwd) w2 = (Resolved true, w2)).
  { unfold existsSync. change (fs w2) with (fs w1).
    by rewrite Hin, bool_decide_eq_true_2 by eauto. }
  assert (Hfound : StableFrame.findFirstVideoFile (StableFrame.INPUT_DIR cwd) w2
                   = (Resolved (Some videoFile), w2)).
  { unfold StableFrame.findFirstVideoFile. change (fs w2) with (fs w1).
    by rewrite Hin, Hfind. }
  destruct (lookup_path_join_Some _ _ _ _ Hout) as (m' & es' & Hdir & _).
  assert (Hensure : ensureDirectoryExists (StableFrame.OUTPUT_DIR cwd) w2
                    = (Resolved tt, w2)).
  { unfold ensureDirectoryExists, bind, existsSync. change (fs w2) with (fs w1).
    by rewrite Hdir, bool_decide_eq_true_2 by eauto. }
  unfold StableFrame.extractVideoThumbnail.
  rewrite (bind_resolved _ _ _ _ _ Hcheck). cbn [negb].
  rewrite (bind_resolved _ _ _ _ _ Hexists). cbn [negb].
  rewrite (bind_resolved _ _ _ _ _ Hfound).
  rewrite (bind_resolved _ _ _ _ _ Hensure).
  by rewrite (bind_resolved _ _ _ _ _ (Hfresh w2 eq_refl)).
Qed.

End Properties.

(** ** The directory search *)

Lemma node_size_entry m es c n' :
  es !! c = Some n' -> (node_size n' < node_size (Dir m es))%nat.
Proof.
  intros Hc. cbn [node_size].
  rewrite <- (insert_delete_id es c n' Hc) at 1.
  rewrite map_fold_insert_L.
  - lia.
  - intros. lia.
  - apply lookup_delete_eq.
Qed.

(** Induction on a tree: a directory inherits from its entries. *)
Lemma node_tree_ind (P : node -> Prop) :
  (forall m d, P (File m d)) ->
  (forall m es, (forall c n', es !! c = Some n' -> P n') -> P (Dir m es)) ->
  forall n, P n.
Proof.
  intros Hfile Hdir n. remember (node_size n) as k eqn:Hk. revert n Hk.
  induction k as [k IH] using lt_wf_ind. intros [m d|m es] ->; [apply Hfile|].
  apply Hdir. intros c n' Hc. eapply IH; [|done]. by eapply node_size_entry.
Qed.

Lemma last_path_join dir file : List.last (path_join dir file) EmptyString = file.
Proof. apply last_last. Qed.

Lemma video_at_entry m es file n' rel :
  es !! file = Some n' -> rel ≠ [] ->
  video_at (Dir m es) (file :: rel) <-> video_at n' rel.
Proof.
  intros Hfile Hrel. unfold video_at. cbn [lookup_path]. rewrite Hfile.
  by destruct rel.
Qed.

Lemma video_at_here m es file :
  video_at (Dir m es) [file]
  <-> exists n', es !! file = Some n' /\ isFile n' = true /\ is_video file = true.
Proof.
  unfold video_at. cbn [lookup_path List.last]. split.
  - intros [(m' & d & Hl) Hv]. destruct (es !! file) as [n'|]; [|done].
    injection Hl as ->. eauto.
  - intros (n' & -> & Hf & Hv). destruct n'; [eauto|done].
Qed.

Lemma find_video_loops m es dir :
  StableFrame.find_video (Dir m es) dir
  = match first_file dir (map_to_list es) with
    | Some p => Some p
    | None => first_below dir (map_to_list es)
    end.
Proof. apply find_video_listing. Qed.

Lemma first_file_Some dir l p :
  first_file dir l = Some p ->
  exists e, In e l /\ isFile e.2 = true /\ is_video e.1 = true /\ p = path_join dir e.1.
Proof.
  induction l as [|e l IH]; [done|]. cbn [first_file foldr]. fold (first_file dir l).
  destruct (isFile e.2 && is_video e.1) eqn:He.
  - intros [= <-]. apply andb_true_iff in He as [? ?]. exists e. split_and!; auto. by left.
  - intros (e' & ? & ?)%IH. exists e'. split; [by right|done].
Qed.

Lemma first_file_None dir l e :
  first_file dir l = None -> In e l -> isFile e.2 && is_video e.1 = false.
Proof.
  induction l as [|e' l IH]; [done|]. cbn [first_file foldr]. fold (first_file dir l).
  destruct (isFile e'.2 && is_video e'.1) eqn:He; [done|].
  intros Hl [<-|Hin]; auto.
Qed.

Lemma first_below_Some dir l p :
  first_below dir l = Some p ->
  exists e, In e l /\ isFile e.2 = false
    /\ StableFrame.find_video e.2 (path_join dir e.1) = Some p.
Proof.
  induction l as [|e l IH]; [done|]. cbn [first_below foldr]. fold (first_below dir l).
  assert (Hrest : first_below dir l = Some p ->
    exists e0, In e0 (e :: l) /\ isFile e0.2 = false
      /\ StableFrame.find_video e0.2 (path_join dir e0.1) = Some p).
  { intros (e' & ? & ?)%IH. exists e'. split; [by right|done]. }
  destruct e.2 as [m d|m es] eqn:He; [done|].
  destruct (StableFrame.find_video (Dir m es) (path_join dir e.1)) as [p'|] eqn:Hf; [|done].
  intros [= <-]. exists e. rewrite He. split_and!; auto. by left.
Qed.

Lemma first_below_None dir l e :
  first_below dir l = None -> In e l ->
  StableFrame.find_video e.2 (path_join dir e.1) = None.
Proof.
  induction l as [|e' l IH]; [done|]. cbn [first_below foldr]. fold (first_below dir l).
  intros Hl [<-|Hin].
  - destruct e'.2 as [m d|m es]; [done|].
    by destruct (StableFrame.find_video (Dir m es) (path_join dir e'.1)).
  - apply IH; [|done]. destruct e'.2 as [m d|m es]; [done|].
    by destruct (StableFrame.find_video (Dir m es) (path_join dir e'.1)).
Qed.

Lemma In_map_to_list (es : gmap string node) e :
  In e (map_to_list es) <-> es !! e.1 = Some e.2.
Proof. destruct e as [c n']. by rewrite <- list_elem_of_In, elem_of_map_to_list. Qed.

Lemma find_video_sound n dir p :
  StableFrame.find_video n dir = Some p ->
  exists rel, p = dir ++ rel /\ video_at n rel.
Proof.
  revert dir p. induction n as [m d|m es IH] using node_tree_ind; intros dir p; [done|].
  rewrite find_video_loops.
  destruct (first_file dir (map_to_list es)) as [p'|] eqn:Hfirst.
  - intros [= <-].
    apply first_file_Some in Hfirst as (e & He%In_map_to_list & Hf & Hv & ->).
    exists [e.1]. split; [done|]. apply video_at_here. eauto.
  - intros (e & He%In_map_to_list & Hd & Hfind)%first_below_Some.
    destruct (IH _ _ He _ _ Hfind) as (rel & -> & Hrel).
    exists (e.1 :: rel). split; [unfold path_join; by rewrite <- app_assoc|].
    apply (video_at_entry m es e.1 e.2 rel He); [|done].
    intros ->. destruct Hrel as [(m' & d' & [= Hl]) _]. by rewrite Hl in Hd.
Qed.

Lemma find_video_complete n dir rel :
  StableFrame.find_video n dir = None -> ~ video_at n rel.
Proof.
  revert dir rel. induction n as [m d|m es IH] using node_tree_ind; intros dir rel Hnone.
  - intros [(m' & d' & Hl) Hv]. by destruct rel.
  - rewrite find_video_loops in Hnone.
    destruct (first_file dir (map_to_list es)) as [p'|] eqn:Hfirst; [done|].
    destruct rel as [|file rel].
    { intros [(m' & d' & [=]) _]. }
    destruct rel as [|file' rel].
    + intros (n' & Hn' & Hf & Hv)%video_at_here.
      pose proof (first_file_None dir _ (file, n') Hfirst) as Hno.
      rewrite In_map_to_list in Hno. specialize (Hno Hn'). simpl in Hno.
      by rewrite Hf, Hv in Hno.
    + intros Hvid.
      destruct (es !! file) as [n'|] eqn:Hfile.
      2:{ destruct Hvid as [(m' & d' & Hl) _]. cbn [lookup_path] in Hl.
          by rewrite Hfile in Hl. }
      apply (video_at_entry m es file n' (file' :: rel) Hfile) in Hvid; [|done].
      pose proof (first_below_None dir _ (file, n') Hnone) as Hno.
      rewrite In_map_to_list in Hno. specialize (Hno Hfile).
      by apply (IH _ _ Hfile _ (file' :: rel) Hno).
Qed.


(** ** What the directory searches find *)

Lemma last_app_nonempty (l1 l2 : path) d :
  l2 ≠ [] -> List.last (l1 ++ l2) d = List.last l2 d.
Proof.
  intros Hl2. induction l1 as [|a l1 IH]; [done|].
  simpl. rewrite IH. by destruct (l1 ++ l2) eqn:E; [apply app_eq_nil in E as [_ ?]|].
Qed.

Lemma lookup_video_at n dir m es rel :
  lookup_path n dir = Some (Dir m es) -> video_at (Dir m es) rel ->
  rel ≠ []
  /\ (exists m' d, lookup_path n (dir ++ rel) = Some (File m' d))
  /\ is_video (List.last (dir ++ rel) EmptyString) = true.
Proof.
  intros Hdir [(m' & d & Hl) Hv].
  assert (Hrel : rel ≠ []) by (by intros ->).
  split_and!; [done| |].
  - exists m', d. by rewrite lookup_path_app, Hdir.
  - by rewrite last_app_nonempty.
Qed.

(** X1. A path returned by [findFirstVideoFile] lies below the searched
    directory and names an existing regular file whose extension, in
    lower case, is a supported format; the search leaves the world as
    it was. *)
Theorem findFirstVideoFile_sound dir w p w' :
  StableFrame.findFirstVideoFile dir w = (Resolved (Some p), w') ->
  w' = w
  /\ exists rel m d,
       p = dir ++ rel /\ rel ≠ []
       /\ lookup_path (fs w) p = Some (File m d)
       /\ is_video (List.last p EmptyString) = true.
Proof.
  unfold StableFrame.findFirstVideoFile.
  destruct (lookup_path (fs w) dir) as [[m d|m es]|] eqn:Hdir; [done| |done].
  intros Hrun.
  assert (Hfind : StableFrame.find_video (Dir m es) dir = Some p) by congruence.
  split; [congruence|].
  apply find_video_sound in Hfind as (rel & -> & Hrel).
  destruct (lookup_video_at _ _ _ _ _ Hdir Hrel) as (Hne & (m' & d' & Hl) & Hv).
  by exists rel, m', d'.
Qed.

(** X2. On a directory, [findFirstVideoFile] returns [null] exactly when
    no regular file with a supported extension exists anywhere below
    it, at any depth. *)
Theorem findFirstVideoFile_null_iff dir w m es :
  lookup_path (fs w) dir = Some (Dir m es) ->
  StableFrame.findFirstVideoFile dir w = (Resolved None, w)
  <-> forall rel, ~ video_at (Dir m es) rel.
Proof.
  intros Hdir. unfold StableFrame.findFirstVideoFile. rewrite Hdir. split.
  - intros Hrun rel.
    assert (Hnone : StableFrame.find_video (Dir m es) dir = None) by congruence.
    by apply (find_video_complete _ dir).
  - intros Hno. destruct (StableFrame.find_video (Dir m es) dir) as [p|] eqn:Hfind; [|done].
    apply find_video_sound in Hfind as (rel & _ & Hrel). by destruct (Hno rel).
Qed.

(** X3. A supported video directly in the searched directory wins over
    every video in a subdirectory: when there is one, the result is a
    video file of the directory itself. *)
Theorem findFirstVideoFile_prefers_top_level dir w m es file m' d :
  lookup_path (fs w) dir = Some (Dir m es) ->
  es !! file = Some (File m' d) ->
  is_video file = true ->
  exists file' m'' d',
    StableFrame.findFirstVideoFile dir w = (Resolved (Some (path_join dir file')), w)
    /\ es !! file' = Some (File m'' d')
    /\ is_video file' = true.
Proof.
  intros Hdir Hfile Hv. unfold StableFrame.findFirstVideoFile. rewrite Hdir.
  rewrite find_video_loops.
  destruct (first_file dir (map_to_list es)) as [p|] eqn:Hfirst.
  - apply first_file_Some in Hfirst as (e & He%In_map_to_list & Hf & Hv' & ->).
    destruct e as [file' [m'' d'|]]; [|done]. by exists file', m'', d'.
  - pose proof (first_file_None dir _ (file, File m' d) Hfirst) as Hno.
    rewrite In_map_to_list in Hno. specialize (Hno Hfile). simpl in Hno.
    by rewrite Hv in Hno.
Qed.

Lemma video_files_listing m es dir :
  Compress.video_files (Dir m es) dir = concat (pushed dir <$> map_to_list es).
Proof.
  cbn [Compress.video_files]. rewrite map_fold_foldr.
  induction (map_to_list es) as [|[file n'] l IH]; [done|].
  csimpl. rewrite <- IH. by destruct n'.
Qed.

Lemma video_files_spec n dir p :
  p ∈ Compress.video_files n dir <-> exists rel, p = dir ++ rel /\ video_at n rel.
Proof.
  revert dir p. induction n as [m d|m es IH] using node_tree_ind; intros dir p.
  { split; [by intros ?%elem_of_nil|]. intros (rel & _ & (m' & d' & Hl) & Hv).
    by destruct rel. }
  rewrite video_files_listing. rewrite list_elem_of_In, in_concat. split.
  - intros (l & Hl & Hp). apply in_map_iff in Hl as ([file n'] & <- & He).
    apply In_map_to_list in He. simpl in He. unfold pushed in Hp. simpl in Hp.
    destruct n' as [m' d'|m' es'].
    + destruct (is_video file) eqn:Hv; [|done]. destruct Hp as [<-|[]].
      exists [file]. split; [done|]. apply video_at_here. eauto.
    + apply list_elem_of_In, (IH _ _ He) in Hp as (rel & -> & Hrel).
      exists (file :: rel). split; [unfold path_join; by rewrite <- app_assoc|].
      apply (video_at_entry m es file _ rel He); [|done].
      intros ->. by destruct Hrel as [(? & ? & [=]) _].
  - intros (rel & -> & Hrel). destruct rel as [|file rel].
    { by destruct Hrel as [(? & ? & [=]) _]. }
    destruct (es !! file) as [n'|] eqn:Hfile.
    2:{ destruct Hrel as [(m' & d' & Hl) _]. cbn [lookup_path] in Hl.
        by rewrite Hfile in Hl. }
    exists (pushed dir (file, n')). split.
    { apply in_map, In_map_to_list. done. }
    unfold pushed. simpl. destruct rel as [|file' rel].
    + apply video_at_here in Hrel as (n'' & Hn'' & Hf & Hv).
      rewrite Hfile in Hn''. injection Hn'' as <-. destruct n'; [|done].
      rewrite Hv. by left.
    + apply (video_at_entry m es file n' (file' :: rel) Hfile) in Hrel; [|done].
      destruct n' as [m' d'|m' es'].
      { by destruct Hrel as [(? & ? & [=]) _]. }
      apply list_elem_of_In, (IH _ _ Hfile). exists (file' :: rel).
      split; [unfold path_join; by rewrite <- app_assoc|done].
Qed.





(** ** Making sure of a directory *)

Lemma fresh_dirs_lookup now p : lookup_path (fresh_dirs now p) p = Some (Dir now ∅).
Proof. induction p as [|c p IH]; [done|]. simpl. by rewrite lookup_singleton_eq. Qed.

Lemma fresh_dirs_only now p q :
  is_Some (lookup_path (fresh_dirs now p) q) -> q `prefix_of` p.
Proof.
  revert q. induction p as [|c p IH]; intros [|c' q]; simpl.
  - done.
  - rewrite lookup_empty. by intros [? [=]].
  - intros _. apply prefix_nil.
  - destruct (decide (c' = c)) as [->|Hc].
    + rewrite lookup_singleton_eq. intros Hq. by apply prefix_cons, IH.
    + rewrite lookup_singleton_ne by done. by intros [? [=]].
Qed.

Lemma mkdir_p_creates now n p n' :
  mkdir_p now n p = Some n' -> exists m es, lookup_path n' p = Some (Dir m es).
Proof.
  revert n n'. induction p as [|c p IH]; intros [m d|m es] n'; simpl; try done.
  - intros [= <-]. eauto.
  - destruct (es !! c) as [n0|] eqn:Hc.
    + destruct (mkdir_p now n0 p) as [n''|] eqn:Hrec; [|done].
      intros [= <-]. simpl. rewrite lookup_insert_eq. by eapply IH.
    + intros [= <-]. simpl. rewrite lookup_insert_eq, fresh_dirs_lookup. eauto.
Qed.

Lemma mkdir_p_keeps_files now n p n' q m d :
  mkdir_p now n p = Some n' ->
  lookup_path n q = Some (File m d) -> lookup_path n' q = Some (File m d).
Proof.
  revert n n' q. induction p as [|c p IH]; intros [m0 d0|m0 es] n' q; simpl; try done.
  - by intros [= <-].
  - destruct q as [|c' q]; [done|]. simpl.
    destruct (es !! c') as [n1|] eqn:Hc'; [|done].
    destruct (es !! c) as [n0|] eqn:Hc.
    + destruct (mkdir_p now n0 p) as [n''|] eqn:Hrec; [|done].
      intros [= <-] Hq. simpl. destruct (decide (c' = c)) as [->|Hne].
      * rewrite lookup_insert_eq. assert (n1 = n0) as -> by congruence. by eapply IH.
      * rewrite lookup_insert_ne by done. by rewrite Hc'.
    + intros [= <-] Hq. simpl.
      rewrite lookup_insert_ne by congruence. by rewrite Hc'.
Qed.

Lemma mkdir_p_only_ancestors now n p n' q :
  mkdir_p now n p = Some n' ->
  is_Some (lookup_path n' q) -> is_Some (lookup_path n q) \/ q `prefix_of` p.
Proof.
  revert n n' q. induction p as [|c p IH]; intros [m0 d0|m0 es] n' q; simpl; try done.
  - intros [= <-]. auto.
  - destruct q as [|c' q]; [by left|]. 
    destruct (es !! c) as [n0|] eqn:Hc.
    + destruct (mkdir_p now n0 p) as [n''|] eqn:Hrec; [|done].
      intros [= <-]. simpl. destruct (decide (c' = c)) as [->|Hne].
      * rewrite lookup_insert_eq, Hc. intros Hq.
        destruct (IH _ _ _ Hrec Hq) as [?|?]; [by left|right; by apply prefix_cons].
      * rewrite lookup_insert_ne by done. by left.
    + intros [= <-]. simpl. destruct (decide (c' = c)) as [->|Hne].
      * rewrite lookup_insert_eq. intros Hq%fresh_dirs_only. right. by apply prefix_cons.
      * rewrite lookup_insert_ne by done. by left.
Qed.

Lemma mkdir_p_blocked now n p :
  mkdir_p now n p = None ->
  exists q m d, q `prefix_of` p /\ lookup_path n q = Some (File m d).
Proof.
  revert n. induction p as [|c p IH]; intros [m0 d0|m0 es]; simpl; try done.
  - intros _. exists [], m0, d0. done.
  - intros _. exists [], m0, d0. split; [apply prefix_nil|done].
  - destruct (es !! c) as [n0|] eqn:Hc; [|done].
    destruct (mkdir_p now n0 p) as [n''|] eqn:Hrec; [done|].
    intros _. destruct (IH _ Hrec) as (q & m & d & Hq & Hl).
    exists (c :: q), m, d. split; [by apply prefix_cons|]. simpl. by rewrite Hc.
Qed.


Lemma ensureDirectoryExists_cases dirPath w :
  (exists w',
     ensureDirectoryExists dirPath w = (Resolved tt, w')
     /\ is_Some (lookup_path (fs w') dirPath)
     /\ (lookup_path (fs w) dirPath = None ->
         exists m es, lookup_path (fs w') dirPath = Some (Dir m es))
     /\ (forall q m d, lookup_path (fs w) q = Some (File m d) ->
                       lookup_path (fs w') q = Some (File m d))
     /\ (forall q, is_Some (lookup_path (fs w') q) ->
                   is_Some (lookup_path (fs w) q) \/ q `prefix_of` dirPath)
     /\ spawned w' = spawned w /\ now w' = now w)
  \/ (ensureDirectoryExists dirPath w = (Rejected (FsError "ENOTDIR" dirPath), w)
      /\ lookup_path (fs w) dirPath = None
      /\ exists q m d, q `prefix_of` dirPath /\ lookup_path (fs w) q = Some (File m d)).
Proof.
  unfold ensureDirectoryExists, bind, existsSync, mkdirSync.
  destruct (bool_decide_reflect (is_Some (lookup_path (fs w) dirPath))) as [Hex|Hex]; simpl.
  - left. exists w. split_and!; try done.
    + intros Hnone. rewrite Hnone in Hex. by destruct Hex.
    + auto.
  - apply eq_None_not_Some in Hex.
    destruct (mkdir_p (now w) (fs w) dirPath) as [n'|] eqn:Hmk.
    + left. eexists. split; [done|]. simpl. split_and!; try done.
      * destruct (mkdir_p_creates _ _ _ _ Hmk) as (m & es & ->). eauto.
      * intros _. by eapply mkdir_p_creates.
      * intros q m d. by eapply mkdir_p_keeps_files.
      * intros q. by eapply mkdir_p_only_ancestors.
    + right. split_and!; [done|done|]. by eapply mkdir_p_blocked.
Qed.



(** ** What the stable-frame run spawns, and how it can end *)

Section Driver.

Variable engine : request -> node -> response.
Variable __dirname : path.
Variable cwd : path.
Variable toString : Q -> string.
Variable parse_info : string -> option VideoInfo.

#[local] Notation tempDir := (StableFrame.tempDir __dirname).
#[local] Notation analyzeMotion := (StableFrame.analyzeMotion engine __dirname).
#[local] Notation outputFilename := (StableFrame.outputFilename toString).
#[local] Notation extractSimpleFrame := (StableFrame.extractSimpleFrame engine toString).
#[local] Notation extractStableFrame := (StableFrame.extractStableFrame engine __dirname toString).
#[local] Notation extractVideoThumbnail :=
  (StableFrame.extractVideoThumbnail engine __dirname cwd toString parse_info).
#[local] Notation sampler := (sample engine __dirname).
#[local] Notation final_path := (final_path toString).
#[local] Notation INPUT_DIR := (StableFrame.INPUT_DIR cwd).
#[local] Notation OUTPUT_DIR := (StableFrame.OUTPUT_DIR cwd).

Lemma sampler_rejected inputPath startTime endTime w e w1 :
  sampler inputPath startTime endTime w = (Rejected e, w1) -> w1 = w.
Proof.
  intros Hs.
  assert (wp (sampler inputPath startTime endTime)
            (fun o w' => forall e', o = Rejected e' -> w' = w) w) as Hwp.
  { unfold sample. apply wp_bind, wp_ensureDirectoryExists; [|done].
    intros w' Hw'. by apply wp_spawn. }
  unfold wp in Hwp. rewrite Hs in Hwp. by eapply Hwp.
Qed.

Lemma analyzeMotion_trace inputPath startTime endTime videoInfo w :
  exists tr,
    spawned (analyzeMotion inputPath startTime endTime videoInfo w).2 = spawned w ++ tr
    /\ Forall is_analysis tr.
Proof.
  destruct (sampler inputPath startTime endTime w) as [[r|e] w1] eqn:Hs.
  2:{ exists []. rewrite analyzeMotion_sample, (bind_rejected _ _ _ _ _ Hs). simpl.
      rewrite (sampler_rejected _ _ _ _ _ _ Hs). by rewrite app_nil_r. }
  pose proof Hs as Hsp. eapply sample_spawned in Hsp.
  assert (Hone : Forall is_analysis
            [SampleFrames inputPath startTime (JS.sub endTime startTime) tempDir]).
  { by repeat constructor. }
  destruct (event r) as [code|e] eqn:Hev.
  2:{ eexists. by erewrite analyzeMotion_error by eassumption. }
  destruct (Z.eq_dec code 0) as [->|Hcode].
  2:{ eexists. by erewrite analyzeMotion_nonzero by eassumption. }
  destruct (burst __dirname w1) as [frameFiles|] eqn:Hb.
  2:{ edestruct analyzeMotion_unreadable as [e ->]; [exact Hs|exact Hev|exact Hb|].
      by eexists. }
  destruct (Nat.lt_ge_cases (length frameFiles) 2) as [Hlt|Hge].
  - eexists. by erewrite analyzeMotion_degenerate by eassumption.
  - edestruct analyzeMotion_scored
      as (scores & w2 & x & l & _ & _ & Hsp2 & _ & ->);
      [exact Hs|exact Hev|exact Hb|exact Hge|].
    eexists. simpl. rewrite Hsp2, Hsp, <- app_assoc. split; [done|].
    apply Forall_app. split; [done|]. apply Forall_fmap, Forall_forall. by intros [??] _.
Qed.

Lemma extractStableFrame_trace inputPath outputPath videoInfo w :
  exists result w' tr t,
    extractStableFrame inputPath outputPath videoInfo w = (Resolved result, w')
    /\ spawned w'
       = spawned w ++ tr ++ [ExtractFrame inputPath t videoInfo (final_path outputPath t)]
    /\ Forall is_analysis tr
    /\ (result = StableFrame.Failure
        \/ result = StableFrame.Success (outputFilename t) t
           /\ is_Some (lookup_path (fs w') (final_path outputPath t))).
Proof.
  destruct (analyzeMotion_trace inputPath JS.half
              (JS.Math_min JS.ten (JS.mul (duration videoInfo) (JS.Num (3 # 10))))
              videoInfo w) as (tr & Htr & Han).
  destruct (analyzeMotion inputPath JS.half _ videoInfo w) as [[t|e] w1] eqn:Hrun;
    simpl in Htr.
  - edestruct extractStableFrame_resolved as (result & w' & Hres & Hsp & Hok); [exact Hrun|].
    exists result, w', tr, t. rewrite Hsp, Htr, <- app_assoc. split_and!; try done.
    destruct result as [|filename t']; [by left|right].
    destruct (Hok filename t' eq_refl) as (-> & -> & ?). done.
  - erewrite extractStableFrame_rejected by exact Hrun.
    destruct (extractSimpleFrame_run engine toString inputPath outputPath videoInfo JS.two w1)
      as (result & w' & Hres & Hsp & Hok).
    exists result, w', tr, JS.two. rewrite Hsp, Htr, <- app_assoc. split_and!; try done.
    destruct result as [|filename t']; [by left|right].
    destruct (Hok filename t' eq_refl) as (-> & -> & ?). done.
Qed.

(** X8. [extractStableFrame] never rejects, and it asks the engine for
    exactly one final frame: everything it spawns before is a burst or
    a comparison of the motion analysis, the last process is the
    extraction at some time stamp, and a failed extraction is not
    tried again.  It reports success only at that time stamp, under the
    name made from it, and with the file in place. *)
Theorem extractStableFrame_single_extraction inputPath outputPath videoInfo w :
  exists result w' tr t,
    extractStableFrame inputPath outputPath videoInfo w = (Resolved result, w')
    /\ spawned w'
       = spawned w ++ tr ++ [ExtractFrame inputPath t videoInfo (final_path outputPath t)]
    /\ Forall is_analysis tr
    /\ (result = StableFrame.Failure
        \/ result = StableFrame.Success (outputFilename t) t
           /\ is_Some (lookup_path (fs w') (final_path outputPath t))).
Proof. apply extractStableFrame_trace. Qed.

Lemma wp_checkFFmpeg Q w :
  (forall b, Q (Resolved b)
     (mkWorld (fs_after (engine FfmpegVersion (fs w))) (now w)
        (spawned w ++ [FfmpegVersion]))) ->
  wp (StableFrame.checkFFmpeg engine) Q w.
Proof.
  intros HQ. unfold StableFrame.checkFFmpeg. apply wp_bind, wp_spawn.
  destruct (event _); apply wp_ret, HQ.
Qed.

Lemma wp_findFirstVideoFile dir Q w :
  (forall found, Q (Resolved found) w) ->
  (forall e, is_fs_error e -> Q (Rejected e) w) ->
  wp (StableFrame.findFirstVideoFile dir) Q w.
Proof.
  intros Hres Hrej. unfold wp, StableFrame.findFirstVideoFile.
  destruct (lookup_path (fs w) dir) as [[m d|m es]|]; simpl; auto; by apply Hrej.
Qed.

Lemma wp_needsExtraction inputPath outputDir Q w :
  (forall stale, Q (Resolved stale) w) ->
  (forall e, is_fs_error e -> Q (Rejected e) w) ->
  wp (StableFrame.needsExtraction inputPath outputDir) Q w.
Proof.
  intros Hres Hrej. unfold StableFrame.needsExtraction.
  apply wp_bind, wp_existsSync. destruct (negb _); [by apply wp_ret|].
  assert (Hread : wp (readdirSync outputDir)
            (fun o w' => w' = w /\ forall e, o = Rejected e -> is_fs_error e) w).
  { unfold wp, readdirSync. destruct (lookup_path (fs w) outputDir) as [[m d|m es]|]; simpl;
      (split; [done|]); by intros e [= <-]. }
  apply wp_bind. eapply wp_mono; [exact Hread|]. intros [files|e] w' [-> He]; simpl.
  2:{ apply Hrej. by apply He. }
  destruct (_ =? _)%nat; [by apply wp_ret|].
  apply wp_bind, wp_statSync; [|intros _; by apply Hrej].
  intros src _. induction (List.filter StableFrame.is_output files) as [|file rest IH]; simpl.
  { by apply wp_ret. }
  apply wp_bind, wp_statSync; [|intros _; by apply Hrej].
  intros n _. destruct (_ <=? _); [by apply wp_ret|apply IH].
Qed.

Lemma wp_ensureDirectoryExists_fs p Q w :
  (forall w', spawned w' = spawned w -> Q (Resolved tt) w') ->
  (forall e, is_fs_error e -> Q (Rejected e) w) ->
  wp (ensureDirectoryExists p) Q w.
Proof.
  intros Hres Hrej. unfold ensureDirectoryExists.
  apply wp_bind, wp_existsSync. destruct (negb _).
  - apply wp_mkdirSync; [intros n _; by apply Hres|intros _; by apply Hrej].
  - apply wp_ret. by apply Hres.
Qed.

Lemma wp_getVideoInfo inputPath Q w :
  (forall o, Q o (mkWorld (fs_after (engine (Ffprobe inputPath) (fs w))) (now w)
                    (spawned w ++ [Ffprobe inputPath]))) ->
  wp (StableFrame.getVideoInfo engine parse_info inputPath) Q w.
Proof.
  intros HQ. unfold StableFrame.getVideoInfo. apply wp_bind, wp_spawn.
  destruct (event _) as [code|e]; [|apply HQ].
  destruct (code =? 0); [|apply HQ]. destruct (parse_info _); apply HQ.
Qed.

(** X9. A failure of ffprobe or ffmpeg never makes the run reject: once
    the freshness check is passed, every failure ends the run with exit
    code 1.  The run rejects only with a file-system error, raised
    while the video is searched, the output directory is made sure of
    or its entries are read; by then nothing but the version check has
    been spawned. *)
Theorem extractVideoThumbnail_rejects_only_on_fs w e w' :
  extractVideoThumbnail w = (Rejected e, w') ->
  is_fs_error e /\ spawned w' = spawned w ++ [FfmpegVersion].
Proof.
  intros Hrun.
  assert (wp extractVideoThumbnail
            (fun o w' => forall e, o = Rejected e ->
               is_fs_error e /\ spawned w' = spawned w ++ [FfmpegVersion]) w) as Hwp.
  { unfold StableFrame.extractVideoThumbnail.
    apply wp_bind, wp_checkFFmpeg. intros hasFFmpeg. set (w0 := mkWorld _ _ _).
    destruct (negb hasFFmpeg); [done|].
    apply wp_bind, wp_existsSync. destruct (negb _); [done|].
    apply wp_bind, wp_findFirstVideoFile.
    2:{ by intros e0 He0 e1 [= <-]. }
    intros [videoFile|]; [|done].
    apply wp_bind, wp_ensureDirectoryExists_fs.
    2:{ by intros e0 He0 e1 [= <-]. }
    intros w1 Hw1. apply wp_bind, wp_needsExtraction.
    2:{ intros e0 He0 e1 [= <-]. by rewrite Hw1. }
    intros stale. destruct (negb stale); [done|].
    apply wp_try_catch, wp_any. intros [result|e0] w2; [done|]. done. }
  unfold wp in Hwp. rewrite Hrun in Hwp. by apply Hwp.
Qed.

(** X10. The run stops before anything is written when a precondition
    fails: with exit code 1 when the version check does not exit with
    0 or the input directory is missing, and with the no-video message
    when the input directory holds no regular file with a supported
    extension at any depth.  In each case the version check is the only
    process spawned and the file system is as that check left it -- the
    output directory is not created. *)
Theorem extractVideoThumbnail_preconditions w :
  let r := engine FfmpegVersion (fs w) in
  let w0 := mkWorld (fs_after r) (now w) (spawned w ++ [FfmpegVersion]) in
  (event r ≠ Close 0 ->
   extractVideoThumbnail w = (Resolved StableFrame.ExitFailure, w0))
  /\ (event r = Close 0 -> lookup_path (fs w0) INPUT_DIR = None ->
      extractVideoThumbnail w = (Resolved StableFrame.ExitFailure, w0))
  /\ (forall m es, event r = Close 0 ->
        lookup_path (fs w0) INPUT_DIR = Some (Dir m es) ->
        (forall rel, ~ video_at (Dir m es) rel) ->
        extractVideoThumbnail w = (Resolved StableFrame.NoVideo, w0)).
Proof.
  intros r w0. unfold StableFrame.extractVideoThumbnail.
  assert (Hcheck : StableFrame.checkFFmpeg engine w
            = (Resolved (match event r with Close code => code =? 0 | ProcError _ => false end),
               w0)).
  { unfold StableFrame.checkFFmpeg, bind, StableFrame.spawn. fold r. simpl.
    by destruct (event r). }
  rewrite (bind_resolved _ _ _ _ _ Hcheck). split_and!.
  - intros Hev. destruct (event r) as [code|e0]; [|done].
    destruct (Z.eqb_spec code 0) as [Hcode|_]; [by rewrite Hcode in Hev|done].
  - intros -> Hmiss. simpl. unfold bind at 1, existsSync. rewrite Hmiss.
    rewrite bool_decide_eq_false_2; [done|]. by intros [? [=]].
  - intros m es -> Hdir Hno. simpl. unfold bind at 1, existsSync. rewrite Hdir.
    rewrite bool_decide_eq_true_2 by eauto. simpl.
    unfold bind, StableFrame.findFirstVideoFile. rewrite Hdir.
    destruct (StableFrame.find_video (Dir m es) INPUT_DIR) as [p|] eqn:Hfind; [|done].
    apply find_video_sound in Hfind as (rel & _ & Hrel). by destruct (Hno rel).
Qed.

End Driver.

(** ** The range of the scores and the names of the outputs *)

Lemma digits_value_nonneg s acc :
  all_chars JS.is_digit s = true -> 0 <= acc -> 0 <= JS.digits_value acc s.
Proof.
  revert acc. induction s as [|c s IH]; intros acc; simpl; [done|].
  intros [Hc Hs]%andb_true_iff Hacc. apply IH; [done|].
  unfold JS.is_digit in Hc. apply andb_true_iff in Hc as [Hlo%Nat.leb_le _].
  unfold JS.digit_value. lia.
Qed.

Lemma decimal_value_nonneg int frac :
  all_chars JS.is_digit int = true -> all_chars JS.is_digit frac = true ->
  exists q, JS.decimal_value int frac = JS.Num q /\ (0 <= q)%Q.
Proof.
  intros Hint Hfrac. unfold JS.decimal_value. eexists. split; [done|].
  rewrite Qred_correct. unfold Qle. simpl. rewrite Z.mul_1_r.
  apply digits_value_nonneg; [done|]. by apply digits_value_nonneg.
Qed.

Lemma parseFloat_nonneg s :
  JS.parseFloat s = JS.NaN \/ exists q, JS.parseFloat s = JS.Num q /\ (0 <= q)%Q.
Proof.
  unfold JS.parseFloat.
  pose proof (take_while_all JS.is_digit s) as Hint.
  destruct (JS.take_while JS.is_digit s) as [|c int] eqn:Eint.
  - destruct (JS.drop_while JS.is_digit s) as [|c rest]; [by left|].
    destruct (Ascii.eqb_spec c ".") as [->|Hc].
    + pose proof (take_while_all JS.is_digit rest) as Hfrac.
      destruct (JS.take_while JS.is_digit rest) as [|c' frac]; [by left|].
      right. by apply decimal_value_nonneg.
    + left. destruct c as [[] [] [] [] [] [] [] []]; done.
  - right. destruct (JS.drop_while JS.is_digit s) as [|c' rest].
    { by apply decimal_value_nonneg. }
    destruct (Ascii.eqb_spec c' ".") as [->|Hc].
    + apply decimal_value_nonneg; [done|]. apply take_while_all.
    + assert (Hgoal : exists q, JS.decimal_value (String c int) EmptyString = JS.Num q
                                /\ (0 <= q)%Q) by (by apply decimal_value_nonneg).
      destruct c' as [[] [] [] [] [] [] [] []]; done.
Qed.

Section Scores.

Variable engine : request -> node -> response.

(** X11. A motion score is never above 1: the scorer resolves with a
    number that is at most 1, or with NaN: the regular expression
    admits no sign, so the similarity read is never negative.  (Nothing
    keeps the similarity below 1; Example [score_below_zero].) *)
Theorem calculateFrameDifference_at_most_one frame1Path frame2Path w :
  exists motionScore w',
    StableFrame.calculateFrameDifference engine frame1Path frame2Path w
    = (Resolved motionScore, w')
    /\ (motionScore = JS.NaN \/ exists q, motionScore = JS.Num q /\ (q <= 1)%Q).
Proof.
  unfold StableFrame.calculateFrameDifference, bind, StableFrame.spawn.
  set (r := engine _ _). simpl.
  assert (Hhalf : JS.half = JS.NaN \/ exists q, JS.half = JS.Num q /\ (q <= 1)%Q).
  { right. eexists. split; [done|]. lra. }
  destruct (event r); [|by eexists _, _].
  destruct (JS.match_All (stderr r)) as [capture|]; [|by eexists _, _].
  eexists _, _. split; [done|].
  destruct (parseFloat_nonneg capture) as [->|(q & -> & Hq)]; [by left|right].
  eexists. split; [done|]. rewrite Qred_correct. lra.
Qed.

End Scores.

Lemma append_inv_head (a x y : string) : a +:+ x = a +:+ y -> x = y.
Proof. induction a as [|c a IH]; [done|]. rewrite !append_cons. intros [= ?]. auto. Qed.

Lemma digits_split s1 s2 c r1 r2 :
  all_chars JS.is_digit s1 = true -> all_chars JS.is_digit s2 = true ->
  JS.is_digit c = false ->
  s1 +:+ String c r1 = s2 +:+ String c r2 -> s1 = s2 /\ r1 = r2.
Proof.
  intros H1 H2 Hc. revert s2 H2.
  induction s1 as [|c1 s1 IH]; intros [|c2 s2] H2; rewrite ?append_cons; simpl in *.
  - by intros [= ->].
  - intros [= <- _]. apply andb_true_iff in H2 as [? _]. congruence.
  - intros [= -> _]. apply andb_true_iff in H1 as [? _]. congruence.
  - intros [= -> Heq]. apply andb_true_iff in H1 as [_ H1].
    apply andb_true_iff in H2 as [_ H2].
    destruct (IH H1 _ H2 Heq) as [-> ->]. done.
Qed.

Lemma digits_uint u : all_chars JS.is_digit (NilEmpty.string_of_uint u) = true.
Proof. induction u; simpl; done. Qed.

Lemma digits_decimal n : all_chars JS.is_digit (JS.decimal n) = true.
Proof.
  unfold JS.decimal, NilZero.string_of_uint.
  destruct (N.to_uint (Z.to_N n)) eqn:E; try done; rewrite <- E; apply digits_uint.
Qed.

Lemma decimal_inj n1 n2 : 0 <= n1 -> 0 <= n2 -> JS.decimal n1 = JS.decimal n2 -> n1 = n2.
Proof.
  intros Hn1 Hn2 Heq. unfold JS.decimal in Heq.
  assert (Hnonnil : forall n, N.to_uint n ≠ Decimal.Nil).
  { intros n Hnil. pose proof (Unsigned.of_to n) as Hn. rewrite Hnil in Hn.
    simpl in Hn. subst n. done. }
  assert (Huint : N.to_uint (Z.to_N n1) = N.to_uint (Z.to_N n2)).
  { apply (f_equal NilZero.uint_of_string) in Heq.
    rewrite !NilZero.usu in Heq by apply Hnonnil. congruence. }
  apply (f_equal N.of_uint) in Huint. rewrite !Unsigned.of_to in Huint. lia.
Qed.

Lemma tenths_nonneg q : 0 <= tenths q.
Proof.
  unfold tenths. change 0 with (Qfloor 0). apply Qfloor_resp_le.
  pose proof (Qabs_nonneg q). lra.
Qed.

Lemma artifact_name_inj baseName ext q1 q2 :
  (0 <= q1)%Q -> (0 <= q2)%Q ->
  artifact_name baseName q1 ext = artifact_name baseName q2 ext ->
  tenths q1 = tenths q2.
Proof.
  intros Hq1 Hq2. unfold artifact_name.
  assert (Hsign : forall q, (0 <= q)%Q -> JS.Qltb q 0 = false).
  { intros q Hq. unfold JS.Qltb. apply negb_false_iff, Qle_bool_iff. done. }
  rewrite !Hsign by done.
  intros Heq%append_inv_head%append_inv_head. change ("" +:+ ?s) with s in Heq.
  change ("-" +:+ ?s) with (String "-" s) in Heq.
  apply digits_split in Heq as [Hint Heq]; [|apply digits_decimal..|done].
  change ("s." +:+ ?s) with (String "s" ("." +:+ s)) in Heq.
  apply digits_split in Heq as [Hfrac _]; [|apply digits_decimal..|done].
  pose proof (tenths_nonneg q1). pose proof (tenths_nonneg q2).
  apply decimal_inj in Hint; [|by apply Z.div_pos..].
  apply decimal_inj in Hfrac; [|by apply Z.mod_pos_bound..].
  rewrite (Z.div_mod (tenths q1) 10), (Z.div_mod (tenths q2) 10) by done. congruence.
Qed.

Section Names.

Variable toString : Q -> string.

(** X12. Below 10^21, two non-negative time stamps get the same output
    file name exactly when they round to the same tenth of a second. *)
Theorem outputFilename_same_tenth q1 q2 :
  (0 <= q1)%Q -> (q1 < inject_Z (10 ^ 21))%Q ->
  (0 <= q2)%Q -> (q2 < inject_Z (10 ^ 21))%Q ->
  StableFrame.outputFilename toString (JS.Num q1)
  = StableFrame.outputFilename toString (JS.Num q2)
  <-> tenths q1 = tenths q2.
Proof.
  intros Hq1 Hb1 Hq2 Hb2.
  rewrite !outputFilename_convention by (rewrite Qabs_pos; done).
  split; [by apply artifact_name_inj|].
  intros Ht. unfold artifact_name. rewrite Ht.
  assert (Hsign : forall q, (0 <= q)%Q -> JS.Qltb q 0 = false).
  { intros q Hq. unfold JS.Qltb. apply negb_false_iff, Qle_bool_iff. done. }
  by rewrite !Hsign.
Qed.

End Names.

Lemma Qfloor_half z : Qfloor (inject_Z z + (1 # 2)) = z.
Proof.
  pose proof (Qfloor_le (inject_Z z + (1 # 2))) as Hle.
  pose proof (Qlt_floor (inject_Z z + (1 # 2))) as Hlt.
  set (f := Qfloor _) in *. clearbody f.
  assert (inject_Z f < inject_Z (z + 1))%Q as H1.
  { rewrite inject_Z_plus. change (inject_Z 1) with 1%Q. lra. }
  assert (inject_Z z < inject_Z (f + 1))%Q as H2 by lra.
  rewrite <- Zlt_Qlt in H1. rewrite <- Zlt_Qlt in H2. lia.
Qed.

Lemma pair_timestamp_value i :
  exists q, pair_timestamp windowStart i = JS.Num q
            /\ q == inject_Z (Z.of_nat i + 1) * (1 # 2).
Proof.
  unfold pair_timestamp, windowStart, JS.half, JS.add, JS.mul, JS.of_nat, JS.lift2.
  eexists. split; [done|]. rewrite !Qred_correct, inject_Z_plus. change (inject_Z 1) with 1%Q. lra.
Qed.

Lemma tenths_half_grid q k :
  0 <= k -> q == inject_Z k * (1 # 2) -> tenths q = 5 * k.
Proof.
  intros Hk Hq. unfold tenths. rewrite <- (Qfloor_half (5 * k)).
  apply Qfloor_comp. rewrite Qabs_pos.
  - rewrite Hq, inject_Z_mult. change (inject_Z 5) with 5%Q. lra.
  - rewrite Hq. assert (0 <= inject_Z k)%Q by (by rewrite <- (Zle_Qle 0)). lra.
Qed.

Section Grid.

Variable toString : Q -> string.

(** X13. The time stamps the motion analysis can select lie half a
    second apart, so two different ones never share an output file
    name: a later run that selects another time stamp writes a second
    file next to the first one instead of replacing it. *)
Theorem selected_names_distinct i j :
  Z.of_nat i < 10 ^ 21 -> Z.of_nat j < 10 ^ 21 ->
  i ≠ j ->
  StableFrame.outputFilename toString (pair_timestamp windowStart i)
  ≠ StableFrame.outputFilename toString (pair_timestamp windowStart j).
Proof.
  intros Hi Hj Hne.
  destruct (pair_timestamp_value i) as (q1 & -> & Hq1).
  destruct (pair_timestamp_value j) as (q2 & -> & Hq2).
  assert (Hrange : forall k q, Z.of_nat k < 10 ^ 21 ->
            q == inject_Z (Z.of_nat k + 1) * (1 # 2) ->
            (0 <= q)%Q /\ (Qabs q < inject_Z (10 ^ 21))%Q).
  { intros k q Hk Hq.
    assert (0 <= inject_Z (Z.of_nat k + 1))%Q by (rewrite <- (Zle_Qle 0); lia).
    assert (inject_Z (Z.of_nat k + 1) <= inject_Z (10 ^ 21))%Q by (rewrite <- Zle_Qle; lia).
    assert (0 <= q)%Q by (rewrite Hq; lra).
    split; [done|]. rewrite Qabs_pos by done. rewrite Hq.
    assert (0 < inject_Z (10 ^ 21))%Q by done. lra. }
  destruct (Hrange _ _ Hi Hq1) as [Hpos1 Hb1]. destruct (Hrange _ _ Hj Hq2) as [Hpos2 Hb2].
  rewrite !outputFilename_convention by done.
  intros Heq%artifact_name_inj; [|done..].
  rewrite (tenths_half_grid q1 (Z.of_nat i + 1) ltac:(lia) Hq1) in Heq.
  rewrite (tenths_half_grid q2 (Z.of_nat j + 1) ltac:(lia) Hq2) in Heq. lia.
Qed.

End Grid.

(** ** The first-frame script, and the two scripts on one output directory *)

Lemma wp_needsExtraction_single inputPath outputPath Q w :
  (forall stale, Q (Resolved stale) w) ->
  (forall e, is_fs_error e -> Q (Rejected e) w) ->
  wp (FirstFrame.needsExtraction inputPath outputPath) Q w.
Proof.
  intros Hres Hrej. unfold FirstFrame.needsExtraction.
  apply wp_bind, wp_existsSync. destruct (negb _); [by apply wp_ret|].
  apply wp_bind, wp_statSync; [|intros _; by apply Hrej].
  intros src _. apply wp_bind, wp_statSync; [|intros _; by apply Hrej].
  intros out _. by apply wp_ret.
Qed.

Lemma is_output_firstframe : StableFrame.is_output FirstFrameRun.OUTPUT_FILENAME = true.
Proof. done. Qed.

Section FirstFrameScript.

Variable engine : request -> node -> response.
Variable cwd : path.
Variable parse_info : string -> option VideoInfo.

#[local] Notation extractFirstFrame := (FirstFrameRun.extractFirstFrame engine).
#[local] Notation run := (FirstFrameRun.extractVideoThumbnail engine cwd parse_info).
#[local] Notation INPUT_DIR := (FirstFrameRun.INPUT_DIR cwd).
#[local] Notation OUTPUT_DIR := (FirstFrameRun.OUTPUT_DIR cwd).
#[local] Notation target := (path_join (FirstFrameRun.OUTPUT_DIR cwd) FirstFrameRun.OUTPUT_FILENAME).

Lemma extractFirstFrame_run inputPath outputPath videoInfo w :
  exists success w',
    extractFirstFrame inputPath outputPath videoInfo w = (Resolved success, w')
    /\ spawned w'
       = spawned w ++ [ExtractFrame inputPath (JS.Num (1 # 10)) videoInfo outputPath]
    /\ (success = true -> is_Some (lookup_path (fs w') outputPath)).
Proof.
  unfold FirstFrameRun.extractFirstFrame, bind, StableFrame.spawn. set (r := engine _ _).
  simpl. destruct (event r) as [code|e]; [|by eexists _, _].
  destruct (code =? 0); [|by eexists _, _].
  unfold existsSync. simpl.
  destruct (lookup_path (fs_after r) outputPath) as [out|] eqn:Hout.
  - rewrite bool_decide_eq_true_2 by eauto. unfold statSync. simpl. rewrite Hout.
    eexists _, _. split_and!; [done|done|]. simpl. rewrite Hout. eauto.
  - rewrite bool_decide_eq_false_2 by (by intros [? [=]]). by eexists _, _.
Qed.

Lemma run_extracted w :
  wp run
     (fun o w' =>
        o = Resolved FirstFrameRun.Extracted ->
        is_Some (lookup_path (fs w') target)
        /\ exists videoFile videoInfo,
             spawned w'
             = spawned w ++ [FfmpegVersion; Ffprobe videoFile;
                             ExtractFrame videoFile (JS.Num (1 # 10)) videoInfo target]) w.
Proof.
  unfold FirstFrameRun.extractVideoThumbnail.
  apply wp_bind, wp_checkFFmpeg. intros hasFFmpeg. set (w0 := mkWorld _ _ _).
  destruct (negb hasFFmpeg); [done|].
  apply wp_bind, wp_existsSync. destruct (negb _); [done|].
  apply wp_bind, wp_findFirstVideoFile; [|done].
  intros [videoFile|]; [|done].
  apply wp_bind, wp_ensureDirectoryExists_fs; [|done].
  intros w1 Hw1. apply wp_bind, wp_needsExtraction_single; [|done].
  intros stale. destruct (negb stale); [done|].
  apply wp_try_catch, wp_bind, wp_getVideoInfo.
  intros [videoInfo|e]; [|done]. set (w2 := mkWorld _ _ _).
  destruct (extractFirstFrame_run videoFile target videoInfo w2)
    as (success & w' & Hrun & Hsp & Hok).
  apply wp_bind. eapply wp_run; [exact Hrun|].
  destruct success; [|done]. apply wp_ret. intros _. split; [by apply Hok|].
  exists videoFile, videoInfo. rewrite Hsp. simpl. rewrite Hw1. simpl.
  by rewrite <- !app_assoc.
Qed.

(** X14. The first-frame script reports an extraction only with
    [firstframe.webp] in place in the output directory, and having
    spawned exactly three processes: the version check, the probe of
    the video it found, and one extraction from that video at 0.1 s --
    whatever the video's length or content. *)
Theorem firstFrame_run_extracted w w' :
  run w = (Resolved FirstFrameRun.Extracted, w') ->
  is_Some (lookup_path (fs w') target)
  /\ exists videoFile videoInfo,
       spawned w'
       = spawned w ++ [FfmpegVersion; Ffprobe videoFile;
                       ExtractFrame videoFile (JS.Num (1 # 10)) videoInfo target].
Proof.
  intros Hrun. pose proof (run_extracted w) as Hwp.
  unfold wp in Hwp. rewrite Hrun in Hwp. by apply Hwp.
Qed.

Section TwoScripts.

Variable engine' : request -> node -> response.
Variable __dirname : path.
Variable toString : Q -> string.
Variable parse_info' : string -> option VideoInfo.

(** X15. The two thumbnail scripts share the output directory, and the
    stable-frame script counts the first-frame script's
    [firstframe.webp] as one of its own outputs.  After the first-frame
    script has extracted, a stable-frame run that finds the source not
    newer than that file reports it up to date: it spawns the version
    check and nothing else, and writes no time-stamped thumbnail. *)
Theorem stable_run_after_first_frame_run w0 w1 videoFile m es src :
  run w0 = (Resolved FirstFrameRun.Extracted, w1) ->
  event (engine' FfmpegVersion (fs w1)) = Close 0 ->
  fs_after (engine' FfmpegVersion (fs w1)) = fs w1 ->
  lookup_path (fs w1) (StableFrame.INPUT_DIR cwd) = Some (Dir m es) ->
  StableFrame.find_video (Dir m es) (StableFrame.INPUT_DIR cwd) = Some videoFile ->
  lookup_path (fs w1) videoFile = Some src ->
  (forall out, lookup_path (fs w1) target = Some out -> mtime_of src <= mtime_of out) ->
  StableFrame.extractVideoThumbnail engine' __dirname cwd toString parse_info' w1
  = (Resolved StableFrame.UpToDate,
     mkWorld (fs w1) (now w1) (spawned w1 ++ [FfmpegVersion])).
Proof.
  intros Hfirst Hev Hfs Hin Hfind Hsrc Hnewer.
  pose proof (run_extracted w0) as Hwp.
  unfold wp in Hwp. rewrite Hfirst in Hwp. cbn [fst snd] in Hwp.
  destruct (Hwp eq_refl) as [[out Hout] _].
  pose proof (Hnewer out Hout) as Hle.
  set (w2 := mkWorld (fs w1) (now w1) (spawned w1 ++ [FfmpegVersion])).
  assert (Hfresh : StableFrame.needsExtraction videoFile (StableFrame.OUTPUT_DIR cwd) w2
                   = (Resolved false, w2)).
  { eapply needsExtraction_fresh; [apply is_output_firstframe|exact Hsrc|exact Hout|done]. }
  assert (Hcheck : StableFrame.checkFFmpeg engine' w1 = (Resolved true, w2)).
  { unfold StableFrame.checkFFmpeg, bind, StableFrame.spawn. simpl.
    by rewrite Hev, Hfs. }
  assert (Hexists : existsSync (StableFrame.INPUT_DIR cwd) w2 = (Resolved true, w2)).
  { unfold existsSync. change (fs w2) with (fs w1).
    by rewrite Hin, bool_decide_eq_true_2 by eauto. }
  assert (Hfound : StableFrame.findFirstVideoFile (StableFrame.INPUT_DIR cwd) w2
                   = (Resolved (Some videoFile), w2)).
  { unfold StableFrame.findFirstVideoFile. change (fs w2) with (fs w1).
    by rewrite Hin, Hfind. }
  destruct (lookup_path_join_Some _ _ _ _ Hout) as (m' & es' & Hdir & _).
  assert (Hensure : ensureDirectoryExists (StableFrame.OUTPUT_DIR cwd) w2
                    = (Resolved tt, w2)).
  { unfold ensureDirectoryExists, bind, existsSync. change (fs w2) with (fs w1).
    change (StableFrame.OUTPUT_DIR cwd) with OUTPUT_DIR.
    by rewrite Hdir, bool_decide_eq_true_2 by eauto. }
  unfold StableFrame.extractVideoThumbnail.
  rewrite (bind_resolved _ _ _ _ _ Hcheck). cbn [negb].
  rewrite (bind_resolved _ _ _ _ _ Hexists). cbn [negb].
  rewrite (bind_resolved _ _ _ _ _ Hfound).
  rewrite (bind_resolved _ _ _ _ _ Hensure).
  by rewrite (bind_resolved _ _ _ _ _ Hfresh).
Qed.

End TwoScripts.

(** X16. A second run of the first-frame script that finds the source
    not newer than [firstframe.webp] leaves it alone: the freshness
    check is the only thing between the search and the return, and the
    version check is the only process spawned. *)
Theorem firstFrame_second_run w0 w1 videoFile m es src :
  run w0 = (Resolved FirstFrameRun.Extracted, w1) ->
  event (engine FfmpegVersion (fs w1)) = Close 0 ->
  fs_after (engine FfmpegVersion (fs w1)) = fs w1 ->
  lookup_path (fs w1) INPUT_DIR = Some (Dir m es) ->
  StableFrame.find_video (Dir m es) INPUT_DIR = Some videoFile ->
  lookup_path (fs w1) videoFile = Some src ->
  (forall out, lookup_path (fs w1) target = Some out -> mtime_of src <= mtime_of out) ->
  run w1
  = (Resolved FirstFrameRun.UpToDate,
     mkWorld (fs w1) (now w1) (spawned w1 ++ [FfmpegVersion])).
Proof.
  intros Hfirst Hev Hfs Hin Hfind Hsrc Hnewer.
  pose proof (run_extracted w0) as Hwp.
  unfold wp in Hwp. rewrite Hfirst in Hwp. cbn [fst snd] in Hwp.
  destruct (Hwp eq_refl) as [[out Hout] _].
  pose proof (Hnewer out Hout) as Hle.
  set (w2 := mkWorld (fs w1) (now w1) (spawned w1 ++ [FfmpegVersion])).
  assert (Hfresh : FirstFrame.needsExtraction videoFile target w2 = (Resolved false, w2)).
  { assert (Hex : existsSync target w2 = (Resolved true, w2)).
    { unfold existsSync. change (fs w2) with (fs w1).
      by rewrite Hout, bool_decide_eq_true_2 by eauto. }
    assert (Hin' : statSync videoFile w2 = (Resolved src, w2)).
    { unfold statSync. change (fs w2) with (fs w1). by rewrite Hsrc. }
    assert (Hout' : statSync target w2 = (Resolved out, w2)).
    { unfold statSync. change (fs w2) with (fs w1). by rewrite Hout. }
    unfold FirstFrame.needsExtraction.
    rewrite (bind_resolved _ _ _ _ _ Hex). cbn [negb].
    rewrite (bind_resolved _ _ _ _ _ Hin'), (bind_resolved _ _ _ _ _ Hout').
    unfold ret. do 2 f_equal. by apply Z.ltb_ge. }
  assert (Hcheck : StableFrame.checkFFmpeg engine w1 = (Resolved true, w2)).
  { unfold StableFrame.checkFFmpeg, bind, StableFrame.spawn. simpl.
    by rewrite Hev, Hfs. }
  assert (Hexists : existsSync INPUT_DIR w2 = (Resolved true, w2)).
  { unfold existsSync. change (fs w2) with (fs w1).
    by rewrite Hin, bool_decide_eq_true_2 by eauto. }
  assert (Hfound : StableFrame.findFirstVideoFile INPUT_DIR w2
                   = (Resolved (Some videoFile), w2)).
  { unfold StableFrame.findFirstVideoFile. change (fs w2) with (fs w1).
    by rewrite Hin, Hfind. }
  destruct (lookup_path_join_Some _ _ _ _ Hout) as (m' & es' & Hdir & _).
  assert (Hensure : ensureDirectoryExists OUTPUT_DIR w2 = (Resolved tt, w2)).
  { unfold ensureDirectoryExists, bind, existsSync. change (fs w2) with (fs w1).
    by rewrite Hdir, bool_decide_eq_true_2 by eauto. }
  unfold FirstFrameRun.extractVideoThumbnail.
  rewrite (bind_resolved _ _ _ _ _ Hcheck). cbn [negb].
  rewrite (bind_resolved _ _ _ _ _ Hexists). cbn [negb].
  rewrite (bind_resolved _ _ _ _ _ Hfound).
  rewrite (bind_resolved _ _ _ _ _ Hensure).
  by rewrite (bind_resolved _ _ _ _ _ Hfresh).
Qed.

End FirstFrameScript.

(** ** The compression script: what it collects and where it writes *)

Lemma path_relative_below from rel : path_relative from (from ++ rel) = rel.
Proof.
  induction from as [|a from IH]; simpl; [by destruct rel|].
  by rewrite String.eqb_refl.
Qed.

Lemma length_append (a b : string) :
  String.length (a +:+ b) = (String.length a + String.length b)%nat.
Proof. induction a as [|c a IH]; [done|]. rewrite append_cons. simpl. by rewrite IH. Qed.

Lemma substring_append (a b : string) : String.substring 0 (String.length a) (a +:+ b) = a.
Proof.
  induction a as [|c a IH].
  - by destruct b.
  - rewrite append_cons. simpl. by rewrite IH.
Qed.

Lemma from_last_dot_no_dot e : no_dot e = true -> JS.from_last_dot e = None.
Proof.
  induction e as [|c e IH]; simpl; [done|].
  intros [Hc He]%andb_true_iff. rewrite (IH He).
  by destruct (Ascii.eqb c ".").
Qed.

Lemma from_last_dot_append stem e :
  no_dot e = true ->
  JS.from_last_dot (stem +:+ String "." e) = Some (String "." e).
Proof.
  intros He. induction stem as [|c stem IH].
  - change ("" +:+ ?s) with s. simpl. by rewrite (from_last_dot_no_dot e He).
  - rewrite append_cons. simpl. by rewrite IH.
Qed.

Lemma path_extname_append stem e :
  stem ≠ EmptyString -> e ≠ EmptyString -> no_dot e = true ->
  JS.path_extname (stem +:+ String "." e) = String "." e.
Proof.
  intros Hstem He Hnd. unfold JS.path_extname. rewrite from_last_dot_append by done.
  assert (Hlen : String.length (stem +:+ String "." e)
                 = (String.length stem + S (String.length e))%nat).
  { by rewrite length_append. }
  assert (Hs : (0 < String.length stem)%nat) by (destruct stem; [done|simpl; lia]).
  assert (Hl : (0 < String.length e)%nat) by (destruct e; [done|simpl; lia]).
  destruct (String.eqb_spec (String "." e) (stem +:+ String "." e)) as [Heq|_].
  { apply (f_equal String.length) in Heq. rewrite Hlen in Heq. simpl in Heq. lia. }
  destruct (String.eqb_spec (stem +:+ String "." e) "..") as [Heq|_]; [|done].
  apply (f_equal String.length) in Heq. rewrite Hlen in Heq. simpl in Heq. lia.
Qed.

Lemma path_parse_name_append dir stem e :
  stem ≠ EmptyString -> e ≠ EmptyString -> no_dot e = true ->
  path_parse_name (dir ++ [stem +:+ String "." e]) = stem.
Proof.
  intros Hstem He Hnd. unfold path_parse_name. rewrite last_last.
  rewrite path_extname_append by done. rewrite length_append.
  replace (String.length stem + String.length (String "." e)
           - String.length (String "." e))%nat with (String.length stem) by lia.
  apply substring_append.
Qed.

Section CompressScript.

Variable cwd : path.

#[local] Notation INPUT_DIR := (Compress.INPUT_DIR cwd).
#[local] Notation OUTPUT_DIR := (Compress.OUTPUT_DIR cwd).
#[local] Notation outputPathOf := (Compress.outputPathOf cwd).
#[local] Notation selectFiles := (Compress.selectFiles cwd).
#[local] Notation stale := (stale cwd).

(** X17. The output of a video keeps its place below the input
    directory and its name up to the last dot; the extension plays no
    part.  Two videos of one directory that differ in their extension
    only -- [clip.mp4] and [clip.mov] -- are therefore given the same
    output file. *)
Theorem outputPathOf_ignores_extension dir stem e1 e2 :
  stem ≠ EmptyString ->
  e1 ≠ EmptyString -> no_dot e1 = true ->
  e2 ≠ EmptyString -> no_dot e2 = true ->
  outputPathOf (INPUT_DIR ++ dir ++ [stem +:+ String "." e1])
  = OUTPUT_DIR ++ dir ++ [stem +:+ "--extra-compressed.mp4"]
  /\ outputPathOf (INPUT_DIR ++ dir ++ [stem +:+ String "." e1])
     = outputPathOf (INPUT_DIR ++ dir ++ [stem +:+ String "." e2]).
Proof.
  intros Hstem He1 Hn1 He2 Hn2.
  assert (Hform : forall e, e ≠ EmptyString -> no_dot e = true ->
            outputPathOf (INPUT_DIR ++ dir ++ [stem +:+ String "." e])
            = OUTPUT_DIR ++ dir ++ [stem +:+ "--extra-compressed.mp4"]).
  { intros e He Hn. unfold Compress.outputPathOf. rewrite path_relative_below.
    rewrite path_parse_name_append by done.
    unfold path_parse_dir, path_join. by rewrite removelast_last. }
  by rewrite !Hform.
Qed.

Lemma needsCompression_run w p :
  is_Some (lookup_path (fs w) p) ->
  Compress.needsCompression p (outputPathOf p) w = (Resolved (stale w p), w).
Proof.
  intros [src Hsrc]. unfold Compress.needsCompression, stale, bind, existsSync, statSync.
  rewrite Hsrc. destruct (lookup_path (fs w) (outputPathOf p)) as [out|] eqn:Hout.
  - rewrite bool_decide_eq_true_2 by eauto. simpl. by rewrite Hsrc, Hout.
  - by rewrite bool_decide_eq_false_2 by (by intros [? [=]]).
Qed.

Lemma selectFiles_run videoFiles filesToProcess skippedFiles w :
  Forall (fun p => is_Some (lookup_path (fs w) p)) videoFiles ->
  selectFiles videoFiles filesToProcess skippedFiles w
  = (Resolved
       (filesToProcess
          ++ ((fun p => Compress.mkJob p (outputPathOf p)) <$> List.filter (stale w) videoFiles),
        skippedFiles ++ List.filter (fun p => negb (stale w p)) videoFiles), w).
Proof.
  intros Hall. revert filesToProcess skippedFiles.
  induction Hall as [|p rest Hp _ IH]; intros filesToProcess skippedFiles.
  { simpl. by rewrite !app_nil_r. }
  cbn [Compress.selectFiles]. rewrite (bind_resolved _ _ _ _ _ (needsCompression_run w p Hp)).
  cbn [List.filter]. destruct (stale w p); cbn [negb]; rewrite IH; csimpl;
    by rewrite <- ?app_assoc.
Qed.

(** X18. On an input directory, collecting the videos and sorting them
    never rejects and leaves the world as it was.  The sorting keeps
    the order of the videos collected and puts each into exactly one
    list: into [filesToProcess], with the output path computed for it,
    when that output is missing or older than the video, and into
    [skippedFiles] otherwise. *)
Theorem selectFiles_partition w m es :
  lookup_path (fs w) INPUT_DIR = Some (Dir m es) ->
  exists videoFiles,
    Compress.getAllVideoFiles INPUT_DIR [] w = (Resolved videoFiles, w)
    /\ selectFiles videoFiles [] [] w
       = (Resolved
            ((fun p => Compress.mkJob p (outputPathOf p)) <$> List.filter (stale w) videoFiles,
             List.filter (fun p => negb (stale w p)) videoFiles), w).
Proof.
  intros Hdir. exists (Compress.video_files (Dir m es) INPUT_DIR). split.
  { unfold Compress.getAllVideoFiles. by rewrite Hdir. }
  apply (selectFiles_run _ [] []). apply Forall_forall.
  intros p (rel & -> & Hrel)%video_files_spec.
  destruct (lookup_video_at _ _ _ _ _ Hdir Hrel) as (_ & (m' & d' & Hl) & _). eauto.
Qed.

End CompressScript.

(** ** The processes of a whole run, and the files a pass leaves alone *)

Lemma remove_keeps_files n p q m d :
  ~ p `prefix_of` q ->
  lookup_path n q = Some (File m d) -> lookup_path (remove n p) q = Some (File m d).
Proof.
  revert n q. induction p as [|c p IH]; intros n q Hpre.
  { by destruct n. }
  destruct n as [m0 d0|m0 es]; [done|].
  destruct q as [|c' q]; [done|].
  assert (Hstep : c' = c -> ~ p `prefix_of` q).
  { intros -> Hpq. apply Hpre. by apply prefix_cons. }
  destruct p as [|c2 p].
  - simpl. destruct (decide (c' = c)) as [->|Hne].
    + destruct Hpre. apply prefix_cons, prefix_nil.
    + by rewrite lookup_delete_ne.
  - cbn [remove lookup_path]. destruct (decide (c' = c)) as [->|Hne].
    + rewrite lookup_alter_eq. destruct (es !! c) as [n1|]; [|done]. simpl.
      apply IH. by apply Hstep.
    + by rewrite lookup_alter_ne.
Qed.

Section WholeRun.

Variable engine : request -> node -> response.
Variable __dirname : path.
Variable cwd : path.
Variable toString : Q -> string.
Variable parse_info : string -> option VideoInfo.

#[local] Notation tempDir := (StableFrame.tempDir __dirname).
#[local] Notation analyzeMotion := (StableFrame.analyzeMotion engine __dirname).
#[local] Notation outputFilename := (StableFrame.outputFilename toString).
#[local] Notation extractStableFrame := (StableFrame.extractStableFrame engine __dirname toString).
#[local] Notation extractVideoThumbnail :=
  (StableFrame.extractVideoThumbnail engine __dirname cwd toString parse_info).
#[local] Notation OUTPUT_DIR := (StableFrame.OUTPUT_DIR cwd).

(** X19. The processes of a stable-frame run, whatever its outcome,
    follow one pattern: the version check; then nothing more, or the
    probe of the video found; then nothing more -- and the run ends
    with exit code 1 --, or bursts and comparisons of the motion
    analysis closed by exactly one extraction into the output
    directory, under the name made from its time stamp.  Only a run of
    the last shape can report an extraction, and it reports that name
    and that time stamp. *)
Theorem extractVideoThumbnail_processes w :
  exists o w' tr,
    extractVideoThumbnail w = (o, w')
    /\ spawned w' = spawned w ++ FfmpegVersion :: tr
    /\ ((tr = [] /\ forall filename t, o ≠ Resolved (StableFrame.Extracted filename t))
        \/ (exists videoFile,
              tr = [Ffprobe videoFile] /\ o = Resolved StableFrame.ExitFailure)
        \/ (exists videoFile videoInfo analysis t,
              tr = Ffprobe videoFile :: analysis
                   ++ [ExtractFrame videoFile t videoInfo
                         (path_join OUTPUT_DIR (outputFilename t))]
              /\ Forall is_analysis analysis
              /\ (o = Resolved StableFrame.ExitFailure
                  \/ o = Resolved (StableFrame.Extracted (outputFilename t) t)))).
Proof.
  set (Q := fun (o : outcome StableFrame.run_result) (w' : world) =>
    exists tr,
      spawned w' = spawned w ++ FfmpegVersion :: tr
      /\ ((tr = [] /\ forall filename t, o ≠ Resolved (StableFrame.Extracted filename t))
          \/ (exists videoFile,
                tr = [Ffprobe videoFile] /\ o = Resolved StableFrame.ExitFailure)
          \/ (exists videoFile videoInfo analysis t,
                tr = Ffprobe videoFile :: analysis
                     ++ [ExtractFrame videoFile t videoInfo
                           (path_join OUTPUT_DIR (outputFilename t))]
                /\ Forall is_analysis analysis
                /\ (o = Resolved StableFrame.ExitFailure
                    \/ o = Resolved (StableFrame.Extracted (outputFilename t) t))))).
  assert (Hwp : wp extractVideoThumbnail Q w).
  { assert (Hstop : forall o w', spawned w' = spawned w ++ [FfmpegVersion] ->
              (forall filename t, o ≠ Resolved (StableFrame.Extracted filename t)) ->
              Q o w').
    { intros o w' Hsp Ho. exists []. split; [done|by left]. }
    unfold StableFrame.extractVideoThumbnail.
    apply wp_bind, wp_checkFFmpeg. intros hasFFmpeg. set (w0 := mkWorld _ _ _).
    destruct (negb hasFFmpeg); [by apply wp_ret, Hstop|].
    apply wp_bind, wp_existsSync. destruct (negb _); [by apply wp_ret, Hstop|].
    apply wp_bind, wp_findFirstVideoFile; [|intros; by apply Hstop].
    intros [videoFile|]; [|by apply wp_ret, Hstop].
    apply wp_bind, wp_ensureDirectoryExists_fs; [|intros; by apply Hstop].
    intros w1 Hw1. apply wp_bind, wp_needsExtraction.
    2:{ intros. apply Hstop; [by rewrite Hw1|done]. }
    intros stale. destruct (negb stale).
    { apply wp_ret, Hstop; [by rewrite Hw1|done]. }
    apply wp_try_catch, wp_bind, wp_getVideoInfo. set (w2 := mkWorld _ _ _).
    assert (Hw2 : spawned w2 = spawned w ++ [FfmpegVersion; Ffprobe videoFile]).
    { simpl. rewrite Hw1. simpl. by rewrite <- app_assoc. }
    intros [videoInfo|e].
    2:{ apply wp_ret. exists [Ffprobe videoFile]. split; [done|]. right. left. eauto. }
    destruct (extractStableFrame_trace engine __dirname toString videoFile
                (path_join OUTPUT_DIR "temp.webp") videoInfo w2)
      as (result & w' & analysis & t & Hrun & Hsp & Han & Hres).
    unfold final_path in Hsp, Hres. rewrite path_dirname_join in Hsp, Hres.
    apply wp_bind. eapply wp_run; [exact Hrun|].
    assert (Hshape : forall o,
              o = Resolved StableFrame.ExitFailure
              \/ o = Resolved (StableFrame.Extracted (outputFilename t) t) ->
              Q o w').
    { intros o Ho. eexists. split.
      - rewrite Hsp, Hw2, <- app_assoc. simpl. reflexivity.
      - right. right. exists videoFile, videoInfo, analysis, t. done. }
    destruct Hres as [->|[-> _]]; apply wp_ret, Hshape; auto. }
  unfold wp in Hwp. destruct (extractVideoThumbnail w) as [o w'] eqn:Hrun.
  destruct Hwp as (tr & Hsp & Hshape). by exists o, w', tr.
Qed.

(** X20. A motion-analysis pass leaves alone every regular file outside
    its temporary directory that the engine leaves alone: making sure
    of the directory and removing it afterwards touch nothing else,
    however the pass ends. *)
Theorem analyzeMotion_keeps_files inputPath startTime endTime videoInfo w q m d :
  ~ tempDir `prefix_of` q ->
  (forall ss t n, lookup_path n q = Some (File m d) ->
     lookup_path (fs_after (engine (SampleFrames inputPath ss t tempDir) n)) q
     = Some (File m d)) ->
  (forall prev curr n, lookup_path n q = Some (File m d) ->
     lookup_path (fs_after (engine (Ssim (path_join tempDir prev)
                                         (path_join tempDir curr)) n)) q
     = Some (File m d)) ->
  lookup_path (fs w) q = Some (File m d) ->
  lookup_path (fs (analyzeMotion inputPath startTime endTime videoInfo w).2) q
  = Some (File m d).
Proof.
  intros Hout Hsample Hssim Hq.
  set (I := fun w' : world => lookup_path (fs w') q = Some (File m d)).
  change (wp (analyzeMotion inputPath startTime endTime videoInfo) (fun _ w' => I w') w).
  assert (Hrm : forall A (k : unit -> M A) w0, I w0 ->
            (forall w1, I w1 -> wp (k tt) (fun _ w' => I w') w1) ->
            wp (let* x := rmSync tempDir in k x) (fun _ w' => I w') w0).
  { intros A k w0 Hw0 Hk. apply wp_bind, wp_rmSync, Hk. by apply remove_keeps_files. }
  unfold StableFrame.analyzeMotion. apply wp_bind.
  destruct (ensureDirectoryExists_cases tempDir w)
    as [(w1 & Hrun & _ & _ & Hkeep & _)|(Hrun & _)];
    (eapply wp_run; [exact Hrun|]); [|done].
  apply wp_bind, wp_spawn. set (r := engine _ _). set (w2 := mkWorld _ _ _).
  assert (Hw2 : I w2) by (by apply Hsample, Hkeep).
  destruct (event r) as [code|e]; [|by apply Hrm].
  destruct (code =? 0); [|by apply Hrm].
  apply wp_try_catch. apply wp_bind, wp_readdirSync.
  2:{ intros e _. by apply Hrm. }
  intros m0 es _. destruct (_ <? _)%nat; [by apply Hrm|].
  assert (Hloop : forall indices acc w0, I w0 ->
            wp (StableFrame.scoreFrames engine tempDir startTime
                  (JS.sort (List.filter StableFrame.is_frame (map_to_list es).*1))
                  indices acc)
               (fun _ w' => I w') w0).
  { induction indices as [|i rest IH]; intros acc w0 Hw0; [done|].
    cbn [StableFrame.scoreFrames]. apply wp_bind.
    unfold StableFrame.calculateFrameDifference. apply wp_bind, wp_spawn.
    set (r' := engine _ _). set (w3 := mkWorld _ _ _).
    assert (Hw3 : I w3) by (by apply Hssim).
    destruct (event r'); [destruct (JS.match_All _)|]; apply wp_ret, IH, Hw3. }
  apply wp_bind. eapply wp_mono; [by apply Hloop|].
  intros [motionScores|e] w3 Hw3; [|by apply Hrm].
  apply wp_bind. destruct motionScores as [|x l]; [by apply Hrm|].
  apply wp_ret. by apply Hrm.
Qed.

End WholeRun.

(** The engines of the concrete project write where they are told to. *)
Lemma write_keeps_files n p x q m d :
  ~ p `prefix_of` q ->
  lookup_path n q = Some (File m d) -> lookup_path (Sample.write n p x) q = Some (File m d).
Proof.
  revert n q. induction p as [|c p IH]; intros n q Hpre.
  { by destruct n. }
  destruct n as [m0 d0|m0 es]; [done|].
  destruct q as [|c' q]; [done|].
  assert (Hstep : c' = c -> ~ p `prefix_of` q).
  { intros -> Hpq. apply Hpre. by apply prefix_cons. }
  destruct p as [|c2 p].
  - simpl. destruct (decide (c' = c)) as [->|Hne].
    + destruct Hpre. apply prefix_cons, prefix_nil.
    + by rewrite lookup_insert_ne.
  - cbn [Sample.write lookup_path]. destruct (decide (c' = c)) as [->|Hne].
    + rewrite lookup_alter_eq. destruct (es !! c) as [n1|]; [|done]. simpl.
      apply IH. by apply Hstep.
    + by rewrite lookup_alter_ne.
Qed.

(** ** The theorems on the concrete project *)

Section Runs.

#[local] Open Scope string_scope.

#[local] Notation tempDir := (StableFrame.tempDir Sample.__dirname).
#[local] Notation analyzeMotion e := (StableFrame.analyzeMotion e Sample.__dirname).
#[local] Notation extractStableFrame e :=
  (StableFrame.extractStableFrame e Sample.__dirname Sample.toString).
#[local] Notation extractVideoThumbnail e :=
  (StableFrame.extractVideoThumbnail e Sample.__dirname Sample.cwd Sample.toString
     Sample.parse_info).
#[local] Notation sampled e :=
  (sample e Sample.__dirname Sample.video windowStart (windowEnd (JS.Num 20)) Sample.w0).

Example healthy_run :
  (extractVideoThumbnail Sample.healthy Sample.w0).1
  = Resolved (StableFrame.Extracted "firstframe--1-5s.webp" (JS.Num (3 # 2))).
Proof. vm_compute. reflexivity. Qed.

Example tied_run :
  (extractVideoThumbnail Sample.tied Sample.w0).1
  = Resolved (StableFrame.Extracted "firstframe--1-0s.webp" (JS.Num 1)).
Proof. vm_compute. reflexivity. Qed.


Lemma run_eq {A} (m : M A) w o : (m w).1 = o -> m w = (o, (m w).2).
Proof. intros <-. by destruct (m w). Qed.

#[local] Notation window_end := (JS.Math_min JS.ten (JS.mul (duration Sample.info) (JS.Num (3 # 10)))).
#[local] Notation temp_output := (path_join (StableFrame.OUTPUT_DIR Sample.cwd) "temp.webp").

Lemma needsExtraction_gate_witness :
  (StableFrame.needsExtraction Sample.video (StableFrame.OUTPUT_DIR Sample.cwd) Sample.w0).1
  = Resolved true
  /\ (StableFrame.needsExtraction Sample.video (StableFrame.OUTPUT_DIR Sample.cwd)
        (extractVideoThumbnail Sample.healthy Sample.w0).2).1
     = Resolved false.
Proof.
  split.
  - destruct (needsExtraction_gate Sample.w0 Sample.video (StableFrame.OUTPUT_DIR Sample.cwd))
      as (_ & _ & Habsent & _).
    apply Habsent. vm_compute. reflexivity.
  - destruct (needsExtraction_gate (extractVideoThumbnail Sample.healthy Sample.w0).2
                Sample.video (StableFrame.OUTPUT_DIR Sample.cwd))
      as (_ & _ & _ & _ & Hdir & _).
    edestruct Hdir as (stale & newest & -> & _ & _ & _ & Hfresh).
    + vm_compute. reflexivity.
    + vm_compute. discriminate.
    + vm_compute. reflexivity.
    + f_equal. apply Hfresh.
      exists ("firstframe--1-5s.webp", File 60 "webp"). split.
      * vm_compute. by left.
      * vm_compute. discriminate.
Defined.

Lemma sampling_failure_counterexample :
  event (Sample.exits_1
           (SampleFrames Sample.video windowStart
              (JS.sub (windowEnd (JS.Num 20)) windowStart) tempDir)
           (fs (ensureDirectoryExists tempDir Sample.w0).2))
  = Close 1
  /\ (analyzeMotion Sample.exits_1 Sample.video windowStart (windowEnd (JS.Num 20))
        Sample.info Sample.w0).1
     = Resolved (JS.Num (3 # 2))
  /\ (analyzeMotion Sample.exits_1 Sample.video windowStart (windowEnd (JS.Num 20))
        Sample.info Sample.w0).1
     ≠ Resolved (JS.add windowStart JS.half)
  /\ (analyzeMotion Sample.cannot_start Sample.video windowStart (windowEnd (JS.Num 20))
        Sample.info Sample.w0).1
     = Rejected (SpawnFailed "ffmpeg").
Proof. vm_compute. split_and!; try reflexivity. discriminate. Qed.

Lemma sampling_failure_witness :
  (analyzeMotion Sample.exits_1 Sample.video windowStart (windowEnd (JS.Num 20))
     Sample.info Sample.w0).1
  = Resolved (JS.add windowStart JS.one)
  /\ (analyzeMotion Sample.cannot_start Sample.video windowStart (windowEnd (JS.Num 20))
        Sample.info Sample.w0).1
     = Rejected (SpawnFailed "ffmpeg").
Proof.
  split.
  - edestruct (sampling_failure Sample.exits_1 Sample.__dirname Sample.video windowStart
                 (windowEnd (JS.Num 20)) Sample.info Sample.w0) as (Hexit & _).
    { reflexivity. }
    rewrite (Hexit 1); [reflexivity|vm_compute; reflexivity|lia].
  - edestruct (sampling_failure Sample.cannot_start Sample.__dirname Sample.video windowStart
                 (windowEnd (JS.Num 20)) Sample.info Sample.w0) as (_ & Herror & _).
    { reflexivity. }
    rewrite (Herror (SpawnFailed "ffmpeg")); [reflexivity|vm_compute; reflexivity].
Defined.

Lemma degenerate_burst_fallback_witness :
  exists w',
    analyzeMotion Sample.one_frame Sample.video windowStart (windowEnd (JS.Num 20))
      Sample.info Sample.w0
    = (Resolved (JS.add windowStart JS.half), w')
    /\ spawned w'
       = [SampleFrames Sample.video windowStart
            (JS.sub (windowEnd (JS.Num 20)) windowStart) tempDir].
Proof.
  eapply (degenerate_burst_fallback Sample.one_frame Sample.__dirname Sample.video
            windowStart (windowEnd (JS.Num 20)) Sample.info Sample.w0 _ _
            ["frame_001.jpg"]).
  - reflexivity.
  - vm_compute. reflexivity.
  - vm_compute. reflexivity.
  - simpl. lia.
Defined.

Lemma calculateFrameDifference_score_witness :
  (StableFrame.calculateFrameDifference Sample.healthy
     (path_join tempDir "frame_001.jpg") (path_join tempDir "frame_002.jpg") Sample.w0).1
  = Resolved (JS.Num (4 # 5)).
Proof.
  destruct (calculateFrameDifference_score Sample.healthy
              (path_join tempDir "frame_001.jpg") (path_join tempDir "frame_002.jpg")
              Sample.w0) as (motionScore & -> & Hparsed & _).
  cbn [fst]. f_equal.
  destruct (Hparsed 0 "0.2") as [-> _]; vm_compute; reflexivity.
Defined.

Lemma selection_failure_fallback_witness :
  exists result w2,
    extractStableFrame Sample.cannot_start Sample.video temp_output Sample.info Sample.w0
    = (Resolved result, w2)
    /\ forall filename t,
         result = StableFrame.Success filename t ->
         t = JS.Num 2 /\ filename = "firstframe--2-0s.webp".
Proof.
  edestruct (selection_failure_fallback Sample.cannot_start Sample.__dirname Sample.toString
               Sample.video temp_output Sample.info Sample.w0)
    as (_ & result & w2 & Hrun & _ & Hname).
  { apply run_eq. vm_compute. reflexivity. }
  exists result, w2. split; [done|]. apply Hname.
Defined.

Lemma output_filename_convention_witness :
  StableFrame.outputFilename Sample.toString (JS.Num (42 # 10))
  = artifact_name "firstframe" (42 # 10) "webp"
  /\ artifact_name "firstframe" (42 # 10) "webp" = "firstframe--4-2s.webp".
Proof.
  split; [|reflexivity].
  apply (proj1 (output_filename_convention Sample.healthy Sample.__dirname Sample.toString
                  Sample.video temp_output Sample.info Sample.w0)).
  vm_compute. reflexivity.
Defined.

#[local] Notation first_run := (extractVideoThumbnail Sample.healthy Sample.w0).

Lemma second_run_counterexample :
  first_run.1 = Resolved (StableFrame.Extracted "firstframe--1-5s.webp" (JS.Num (3 # 2)))
  /\ (extractVideoThumbnail Sample.healthy first_run.2).1 = Resolved StableFrame.UpToDate
  /\ spawned (extractVideoThumbnail Sample.healthy first_run.2).2
     = (spawned first_run.2 ++ [FfmpegVersion])%list
  /\ spawned (extractVideoThumbnail Sample.healthy first_run.2).2 ≠ spawned first_run.2.
Proof. vm_compute. split_and!; try reflexivity. discriminate. Qed.

Lemma second_run_is_up_to_date_witness :
  extractVideoThumbnail Sample.healthy first_run.2
  = (Resolved StableFrame.UpToDate,
     mkWorld (fs first_run.2) (now first_run.2) (spawned first_run.2 ++ [FfmpegVersion])%list).
Proof.
  edestruct (second_run_is_up_to_date Sample.healthy Sample.__dirname Sample.cwd
               Sample.toString Sample.parse_info Sample.w0
               "firstframe--1-5s.webp" (JS.Num (3 # 2)) first_run.2 Sample.video)
    as (_ & _ & _ & Hsecond).
  - apply (run_eq (extractVideoThumbnail Sample.healthy) Sample.w0).
    vm_compute. reflexivity.
  - vm_compute. reflexivity.
  - reflexivity.
  - vm_compute. reflexivity.
  - vm_compute. reflexivity.
  - vm_compute. reflexivity.
  - intros out Hout. vm_compute in Hout. injection Hout as <-. vm_compute. discriminate.
  - exact Hsecond.
Defined.

Lemma selected_timestamp_lower_bound_witness :
  exists q,
    (analyzeMotion Sample.healthy Sample.video JS.half window_end Sample.info Sample.w0).1
    = Resolved (JS.Num q)
    /\ (1 <= q)%Q.
Proof.
  destruct (selected_timestamp_lower_bound Sample.healthy Sample.__dirname Sample.toString
              Sample.video temp_output JS.half window_end Sample.info Sample.w0)
    as (Hpass & _).
  edestruct (Hpass (1 # 2)%Q (JS.Num (3 # 2))) as (q & Hq & Hle).
  - reflexivity.
  - apply (run_eq (analyzeMotion Sample.healthy Sample.video JS.half window_end Sample.info)
             Sample.w0).
    vm_compute. reflexivity.
  - exists q. split; [vm_compute; by rewrite Hq|lra].
Defined.

(** *** The helpers and the scripts on concrete inputs *)

Example toFixed1_4_2 : JS.toFixed1 Sample.toString (JS.Num (42 # 10)) = "4.2".
Proof. reflexivity. Qed.

Example toFixed1_tie : JS.toFixed1 Sample.toString (JS.Num (125 # 100)) = "1.3".
Proof. reflexivity. Qed.

Example toFixed1_negative : JS.toFixed1 Sample.toString (JS.Num (- 5 # 100)) = "-0.1".
Proof. reflexivity. Qed.

Example parseFloat_prefix : JS.parseFloat "0.25.7" = JS.Num (1 # 4).
Proof. reflexivity. Qed.

Example parseFloat_dot : JS.parseFloat "." = JS.NaN.
Proof. reflexivity. Qed.

Example match_All_first : JS.match_All "SSIM Y:0.91 All:0.93 (11.5) All:0.1" = Some "0.93".
Proof. reflexivity. Qed.

Example match_All_skips : JS.match_All "All:nan All:0.5" = Some "0.5".
Proof. reflexivity. Qed.

Example sort_frames :
  JS.sort ["frame_010.jpg"; "frame_002.jpg"; "frame_001.jpg"]
  = ["frame_001.jpg"; "frame_002.jpg"; "frame_010.jpg"].
Proof. reflexivity. Qed.

Example path_extname_upper : JS.toLowerCase (JS.path_extname "reel.final.MP4") = ".mp4".
Proof. reflexivity. Qed.

Example path_extname_hidden : JS.path_extname ".mp4" = "".
Proof. reflexivity. Qed.

Example is_output_thumbnail : StableFrame.is_output "firstframe--4-2s.webp" = true.
Proof. reflexivity. Qed.

(** Scores 0.8, 0.2, 0.5 at 1.0, 1.5, 2.0: the minimum is at 1.5. *)
Example healthy_selection :
  (analyzeMotion Sample.healthy Sample.video JS.half (JS.Num 6) Sample.info Sample.w0).1
  = Resolved (JS.Num (3 # 2)).
Proof. vm_compute. reflexivity. Qed.

(** Scores 0.3, 0.3, 0.9 at 1.0, 1.5, 2.0: the first minimum, at 1.0. *)
Example tied_selection :
  (analyzeMotion Sample.tied Sample.video JS.half (JS.Num 6) Sample.info Sample.w0).1
  = Resolved (JS.Num 1).
Proof. vm_compute. reflexivity. Qed.

(** A figure that is a lone dot is captured, and read as [NaN]. *)
Example unreadable_figure_score :
  (StableFrame.calculateFrameDifference Sample.unreadable_figure
     (path_join tempDir "frame_001.jpg") (path_join tempDir "frame_002.jpg") Sample.w0).1
  = Resolved JS.NaN.
Proof. vm_compute. reflexivity. Qed.

(** Nothing compares below [NaN]: a first score [NaN] is kept by the
    reduction, whatever follows. *)
Example unreadable_figure_selection :
  (analyzeMotion Sample.unreadable_figure Sample.video JS.half (JS.Num 6)
     Sample.info Sample.w0).1
  = Resolved (JS.Num 1).
Proof. vm_compute. reflexivity. Qed.

(** An output stamped before the source's modification time does not
    make the source fresh: the second run extracts again. *)
Example stamped_early_second_run :
  (extractVideoThumbnail Sample.stamps_early
     (extractVideoThumbnail Sample.stamps_early Sample.w0).2).1
  = Resolved (StableFrame.Extracted "firstframe--1-5s.webp" (JS.Num (3 # 2))).
Proof. vm_compute. reflexivity. Qed.

(** *** The further properties on concrete inputs *)

#[local] Notation input_dir := (StableFrame.INPUT_DIR Sample.cwd).

Lemma findFirstVideoFile_sound_witness :
  exists m d, lookup_path (fs Sample.w0) Sample.video = Some (File m d).
Proof.
  destruct (findFirstVideoFile_sound input_dir Sample.w0 Sample.video Sample.w0)
    as (_ & rel & m & d & _ & _ & Hl & _).
  - vm_compute. reflexivity.
  - eauto.
Defined.

Lemma findFirstVideoFile_null_iff_witness :
  ~ video_at (Dir 0 Layouts.quiet_entries) ["docs"; "readme.md"].
Proof.
  apply (proj1 (findFirstVideoFile_null_iff input_dir Layouts.quiet 0 Layouts.quiet_entries
                  ltac:(vm_compute; reflexivity))).
  vm_compute. reflexivity.
Defined.

Lemma findFirstVideoFile_prefers_top_level_witness :
  exists file',
    (StableFrame.findFirstVideoFile input_dir Layouts.nested).1
    = Resolved (Some (path_join input_dir file')).
Proof.
  destruct (findFirstVideoFile_prefers_top_level input_dir Layouts.nested 0 Layouts.nested_entries
              "b.MOV" 7 "top")
    as (file' & m & d & Hrun & _).
  - vm_compute. reflexivity.
  - vm_compute. reflexivity.
  - vm_compute. reflexivity.
  - exists file'. by rewrite Hrun.
Defined.



Lemma extractVideoThumbnail_rejects_only_on_fs_witness :
  is_fs_error (FsError "ENOTDIR" input_dir)
  /\ spawned (extractVideoThumbnail Sample.healthy Layouts.vid_is_file).2 = [FfmpegVersion].
Proof.
  apply (extractVideoThumbnail_rejects_only_on_fs Sample.healthy Sample.__dirname Sample.cwd
           Sample.toString Sample.parse_info Layouts.vid_is_file).
  apply (run_eq (extractVideoThumbnail Sample.healthy) Layouts.vid_is_file).
  vm_compute. reflexivity.
Defined.

Lemma outputFilename_same_tenth_witness :
  StableFrame.outputFilename Sample.toString (JS.Num (42 # 10))
  = StableFrame.outputFilename Sample.toString (JS.Num (424 # 100)).
Proof.
  apply (outputFilename_same_tenth Sample.toString (42 # 10) (424 # 100)).
  - lra.
  - vm_compute. reflexivity.
  - lra.
  - vm_compute. reflexivity.
  - vm_compute. reflexivity.
Defined.

Lemma selected_names_distinct_witness :
  StableFrame.outputFilename Sample.toString (pair_timestamp windowStart 1)
  ≠ StableFrame.outputFilename Sample.toString (pair_timestamp windowStart 2).
Proof. apply selected_names_distinct; lia. Defined.

#[local] Notation first_frame_run :=
  (FirstFrameRun.extractVideoThumbnail Sample.healthy Sample.cwd Sample.parse_info Sample.w0).
#[local] Notation first_frame_target :=
  (path_join (FirstFrameRun.OUTPUT_DIR Sample.cwd) FirstFrameRun.OUTPUT_FILENAME).

Lemma firstFrame_run_extracted_witness :
  is_Some (lookup_path (fs first_frame_run.2) first_frame_target).
Proof.
  eapply (firstFrame_run_extracted Sample.healthy Sample.cwd Sample.parse_info Sample.w0).
  apply (run_eq (FirstFrameRun.extractVideoThumbnail Sample.healthy Sample.cwd
                   Sample.parse_info) Sample.w0).
  vm_compute. reflexivity.
Defined.

Lemma stable_run_after_first_frame_run_witness :
  (extractVideoThumbnail Sample.healthy first_frame_run.2).1 = Resolved StableFrame.UpToDate.
Proof.
  erewrite (stable_run_after_first_frame_run Sample.healthy Sample.cwd Sample.parse_info
              Sample.healthy Sample.__dirname Sample.toString Sample.parse_info
              Sample.w0 first_frame_run.2 Sample.video).
  - reflexivity.
  - apply (run_eq (FirstFrameRun.extractVideoThumbnail Sample.healthy Sample.cwd
                     Sample.parse_info) Sample.w0).
    vm_compute. reflexivity.
  - vm_compute. reflexivity.
  - reflexivity.
  - vm_compute. reflexivity.
  - vm_compute. reflexivity.
  - vm_compute. reflexivity.
  - intros out Hout. vm_compute in Hout. injection Hout as <-. vm_compute. discriminate.
Defined.

Lemma firstFrame_second_run_witness :
  (FirstFrameRun.extractVideoThumbnail Sample.healthy Sample.cwd Sample.parse_info
     first_frame_run.2).1
  = Resolved FirstFrameRun.UpToDate.
Proof.
  erewrite (firstFrame_second_run Sample.healthy Sample.cwd Sample.parse_info
              Sample.w0 first_frame_run.2 Sample.video).
  - reflexivity.
  - apply (run_eq (FirstFrameRun.extractVideoThumbnail Sample.healthy Sample.cwd
                     Sample.parse_info) Sample.w0).
    vm_compute. reflexivity.
  - vm_compute. reflexivity.
  - reflexivity.
  - vm_compute. reflexivity.
  - vm_compute. reflexivity.
  - vm_compute. reflexivity.
  - intros out Hout. vm_compute in Hout. injection Hout as <-. vm_compute. discriminate.
Defined.

Lemma outputPathOf_ignores_extension_witness :
  Compress.outputPathOf Sample.cwd ["proj"; "dev"; "vid"; "clip.mp4"]
  = Compress.outputPathOf Sample.cwd ["proj"; "dev"; "vid"; "clip.mov"].
Proof.
  exact (proj2 (outputPathOf_ignores_extension Sample.cwd [] "clip" "mp4" "mov"
                  ltac:(done) ltac:(done) eq_refl ltac:(done) eq_refl)).
Defined.

Lemma selectFiles_partition_witness :
  exists videoFiles,
    (Compress.getAllVideoFiles (Compress.INPUT_DIR Sample.cwd) [] Layouts.twins).1
    = Resolved videoFiles
    /\ (Compress.selectFiles Sample.cwd videoFiles [] [] Layouts.twins).1
       = Resolved
           ([Compress.mkJob ["proj"; "dev"; "vid"; "clip.mov"]
               ["proj"; "src"; "assets"; "vid"; "clip--extra-compressed.mp4"]],
            [["proj"; "dev"; "vid"; "clip.mp4"]]).
Proof.
  destruct (selectFiles_partition Sample.cwd Layouts.twins 0 Layouts.twin_entries)
    as (videoFiles & Hall & Hsel).
  - vm_compute. reflexivity.
  - exists videoFiles. rewrite Hall, Hsel. split; [done|].
    vm_compute in Hall. injection Hall as <-. vm_compute. reflexivity.
Defined.

Lemma analyzeMotion_keeps_files_witness :
  lookup_path
    (fs (analyzeMotion Sample.healthy Sample.video JS.half window_end Sample.info
           Sample.w0).2) Sample.video
  = Some (File 10 "video").
Proof.
  assert (Hout : forall f, ~ path_join tempDir f `prefix_of` Sample.video).
  { intros f [k Hk]. vm_compute in Hk. discriminate. }
  apply (analyzeMotion_keeps_files Sample.healthy Sample.__dirname).
  - intros [k Hk]. vm_compute in Hk. discriminate.
  - intros ss t n Hn. cbn [Sample.healthy Sample.engine fs_after Sample.frame_names foldr].
    by repeat apply write_keeps_files.
  - intros prev curr n Hn. exact Hn.
  - reflexivity.
Defined.

(** A similarity above 1 gives a negative motion score. *)
Example score_below_zero : JS.sub JS.one (JS.parseFloat "1.5") = JS.Num (-1 # 2).
Proof. reflexivity. Qed.

End Runs.
